(** * Segment aggregation and hypothesis tests of the insurance risk analytics scripts

    A shallow embedding of [src/results_tables.py] and [src/stat_tests.py]:
    the metric normalizer ([prepare], [load_data]), the segment aggregator and
    report assembler ([summarize_group]), and the test engine
    ([two_prop_ztest], [chi2_test_frequency], [kw_test_numeric], [run_tests]),
    and the two scripts from end to end ([find_input], [run_all], [main]).

    Conventions of the embedding.
    - A pandas cell is a [Cell]: text, a number, or the missing value NaN.
      The finite float64 values of the scripts are held as exact rationals
      ([Q]), and a float that may be NaN is a [float] = [option Q], with
      [None] for NaN.  Sums and quotients are exact; where a property turns
      on the rounding of float64 it says so: [float64_sum] adds in binary64,
      and the conservation of totals is for amounts that float64 adds without
      rounding ([adds_exactly]).
    - The two-proportion z-test takes a square root, so it is stated over the
      real numbers ([R]); its possibly-NaN results are [rfloat] = [option R].
    - A pandas frame is a list of column names and a list of rows; a row maps
      column names to cells.
    - Python exceptions are the [Raise] results of [Res]; calls into scipy and
      lines printed are recorded in an event log; frames mutated in place live
      in a heap addressed by references.
    - numpy, scipy and the pandas parser are outside the repository: they are
      the fields of the classes [SciPy] and [Pandas], about which nothing is
      assumed; so is the file system, the class [Storage].  The one property
      about the value of a statistic, the chi-square one, is stated for a
      scipy that computes what it documents ([documented_chi2]). *)

From Stdlib Require Import ZArith QArith Qabs Qreals Reals Lra Lia Ascii String.
From Stdlib Require PrimFloat Uint63.
From stdpp Require Import base gmap strings list sorting.

Local Open Scope Z_scope.

(** ** Cells and floats *)

Inductive Cell : Type :=
  | Str (s : string)
  | Num (q : Q)
  | NaN.

Definition float : Type := option Q.
Definition rfloat : Type := option R.

(* pandas isna / notna on one cell *)
Definition isna (c : Cell) : bool :=
  match c with NaN => true | _ => false end.

Definition notna (c : Cell) : bool := negb (isna c).

(* Series.dropna() *)
Definition dropna (l : list Cell) : list Cell := List.filter notna l.

(* Series.fillna(v) *)
Definition fillna (v : Cell) (l : list Cell) : list Cell :=
  map (λ c, if isna c then v else c) l.

(* elementwise ==; NaN equals nothing, itself included *)
Definition cell_eqb (a b : Cell) : bool :=
  match a, b with
  | Str s, Str t => String.eqb s t
  | Num p, Num q => Qeq_bool p q
  | _, _ => false
  end.

(* elementwise != *)
Definition cell_neqb (a b : Cell) : bool := negb (cell_eqb a b).

(* the order in which groupby and crosstab list their keys: numbers by
   value, text by code point; a column holds one kind *)
Definition cell_leb (a b : Cell) : bool :=
  match a, b with
  | Num p, Num q => Qle_bool p q
  | Num _, _ => true
  | Str s, Str t => String.leb s t
  | Str _, Num _ => false
  | Str _, NaN => true
  | NaN, NaN => true
  | NaN, _ => false
  end.

(* Series.unique(): distinct values in order of first appearance *)
Fixpoint unique (l : list Cell) : list Cell :=
  match l with
  | [] => []
  | c :: l' => c :: List.filter (λ d, cell_neqb d c) (unique l')
  end.

Definition cell_le : relation Cell := λ a b, Is_true (cell_leb a b).

#[global] Instance cell_le_dec (a b : Cell) : Decision (cell_le a b) :=
  Is_true_dec (cell_leb a b).

Definition sort_keys (l : list Cell) : list Cell := merge_sort cell_le l.

(* the keys of a groupby: the values present, each once, in order; a missing
   value is no key *)
Definition groupby_keys (keys : list Cell) : list Cell :=
  sort_keys (unique (dropna keys)).

(* Series.nunique(): NaN is not counted *)
Definition nunique (l : list Cell) : Z := Z.of_nat (length (unique (dropna l))).

(* Series.count(): the number of non-missing cells *)
Definition count (l : list Cell) : Z := Z.of_nat (length (dropna l)).

(* Series.isin(values) *)
Definition isin (values : list Cell) (c : Cell) : bool :=
  existsb (cell_eqb c) values.

(** ** Exceptions *)

Inductive Exn : Type :=
  | KeyError (key : string)
  | TypeError
  | ZeroDivisionError
  | LibraryError (what : string).

Inductive Res (A : Type) : Type :=
  | Ok (a : A)
  | Raise (e : Exn).
Arguments Ok {A} a.
Arguments Raise {A} e.

#[global] Instance Res_ret : MRet Res := λ A a, Ok a.
#[global] Instance Res_bind : MBind Res := λ A B f m,
  match m with Ok a => f a | Raise e => Raise e end.
#[global] Instance Res_fmap : FMap Res := λ A B f m,
  match m with Ok a => Ok (f a) | Raise e => Raise e end.

(* a / b on Python floats *)
Definition qdiv (a b : Q) : Res Q :=
  if Qeq_bool b 0 then Raise ZeroDivisionError else Ok (a / b)%Q.

(* a numeric reading of a cell; text in a numeric column is a TypeError *)
Definition to_float (c : Cell) : Res float :=
  match c with
  | Num q => Ok (Some q)
  | NaN => Ok None
  | Str _ => Raise TypeError
  end.

(* Series.sum(), skipna: NaN adds nothing, an empty or all-NaN series sums to
   0.  The numbers are added exactly; pandas adds them in float64 *)
Fixpoint sum_cells (l : list Cell) : Res Q :=
  match l with
  | [] => Ok 0%Q
  | c :: l' =>
      x ← to_float c;
      s ← sum_cells l';
      mret (match x with Some q => (q + s)%Q | None => s end)
  end.

Definition sumZ (l : list Z) : Z := foldr Z.add 0 l.
Definition sumQ (l : list Q) : Q := foldr Qplus 0%Q l.

(** ** Frames *)

Record DataFrame : Type := mkDF {
  columns : list string;
  rows : list (gmap string Cell)
}.

Definition has_column (df : DataFrame) (c : string) : bool :=
  bool_decide (c ∈ columns df).

Definition cell (r : gmap string Cell) (c : string) : Cell :=
  default NaN (r !! c).

(* df[c] *)
Definition getcol (df : DataFrame) (c : string) : Res (list Cell) :=
  if has_column df c then Ok (map (λ r, cell r c) (rows df))
  else Raise (KeyError c).

(* df[mask], the mask given row by row *)
Definition select_rows (p : gmap string Cell → bool) (df : DataFrame) : DataFrame :=
  mkDF (columns df) (List.filter p (rows df)).

(* df[c] = values; a new name is appended to the columns *)
Definition setcol (df : DataFrame) (c : string) (values : list Cell) : DataFrame :=
  mkDF (if has_column df c then columns df else columns df ++ [c])
       (zip_with (λ r v, <[c := v]> r) (rows df) values).

(* df[c] = scalar *)
Definition setcol_scalar (df : DataFrame) (c : string) (v : Cell) : DataFrame :=
  setcol df c (map (λ _, v) (rows df)).

(** ** Contingency tables *)

Record Crosstab : Type := mkCrosstab {
  ct_index : list Cell;
  ct_columns : list Cell;
  ct_counts : list (list Z)
}.

(* pd.crosstab(a, b): one table row per distinct value of [a], one table
   column per distinct value of [b], each entry the number of positions
   holding that pair; positions where either side is missing are left out *)
Definition crosstab (a b : list Cell) : Crosstab :=
  let pairs := List.filter (λ p, notna p.1 && notna p.2) (zip a b) in
  let idx := groupby_keys (map fst pairs) in
  let cols := groupby_keys (map snd pairs) in
  mkCrosstab idx cols
    (map (λ i, map (λ j,
       Z.of_nat (length (List.filter (λ p, cell_eqb p.1 i && cell_eqb p.2 j) pairs)))
       cols) idx).

(** ** The libraries outside the repository *)

Class SciPy : Type := {
  (* scipy.stats.norm.sf *)
  norm_sf : R → R;
  (* scipy.stats.mannwhitneyu(x, y, alternative='two-sided'): statistic, p-value *)
  mannwhitneyu : list Cell → list Cell → Res (float * float);
  (* scipy.stats.kruskal over the samples: statistic, p-value *)
  kruskal : list (list Cell) → Res (float * float);
  (* scipy.stats.chi2_contingency(table): statistic, p-value *)
  chi2_contingency : Crosstab → Res (float * float)
}.

Class Pandas : Type := {
  (* the number grammar of pd.to_numeric on one string; None when it does not parse *)
  parse_number : string → option Q;
  (* pd.read_csv(path, sep=sep, ...) *)
  read_csv : string → string → Res DataFrame
}.

(** ** Events and the monad of the reporting code *)

Inductive Printable : Type :=
  | PText (s : string)
  | PFloat (x : float)
  | PKeys (l : list Cell)
  | PTable (ct : Crosstab).

Inductive Event : Type :=
  | CallMannWhitneyU (x y : list Cell)
  | CallKruskal (samples : list (list Cell))
  | CallChi2Contingency (ct : Crosstab)
  | Print (items : list Printable).

(* a result or an exception, with the events that happened up to there *)
Definition M (A : Type) : Type := (Res A * list Event)%type.

#[global] Instance M_ret : MRet M := λ A a, (Ok a, []).
#[global] Instance M_bind : MBind M := λ A B f m,
  match m with
  | (Ok a, log) => let '(r, log') := f a in (r, log ++ log')
  | (Raise e, log) => (Raise e, log)
  end.

Definition lift {A} (r : Res A) : M A := (r, []).
Definition emit (ev : Event) : M unit := (Ok tt, [ev]).
Definition print (items : list Printable) : M unit := emit (Print items).

(* try: m / except Exception: handler *)
Definition try_except {A} (m : M A) (handler : M A) : M A :=
  match m with
  | (Ok a, log) => (Ok a, log)
  | (Raise _, log) => let '(r, log') := handler in (r, log ++ log')
  end.

Section Calls.
Context `{SciPy}.

Definition call_mannwhitneyu (x y : list Cell) : M (float * float) :=
  _ ← emit (CallMannWhitneyU x y); lift (mannwhitneyu x y).

Definition call_kruskal (samples : list (list Cell)) : M (float * float) :=
  _ ← emit (CallKruskal samples); lift (kruskal samples).

Definition call_chi2_contingency (ct : Crosstab) : M (float * float) :=
  _ ← emit (CallChi2Contingency ct); lift (chi2_contingency ct).
End Calls.

(** ** results_tables.py: two_prop_ztest *)

(* truth value of a Python number *)
Definition truthy (x : R) : bool := if Req_dec_T x 0 then false else true.

(* a / b on Python numbers *)
Definition rdiv (a b : R) : Res R :=
  if truthy b then Ok (a / b)%R else Raise ZeroDivisionError.

(* np.sqrt: NaN below zero *)
Definition np_sqrt (x : R) : rfloat :=
  if Rlt_dec x 0 then None else Some (sqrt x).

Section ZTest.
Context `{SciPy}.
Local Open Scope R_scope.

Definition two_prop_ztest (k1 n1 k2 n2 : R) : Res (rfloat * rfloat) :=
  p1 ← (if truthy n1 then rdiv k1 n1 else mret 0);
  p2 ← (if truthy n2 then rdiv k2 n2 else mret 0);
  p_pool ← (if truthy (n1 + n2) then rdiv (k1 + k2) (n1 + n2) else mret 0);
  se ← (if truthy n1 && truthy n2 then
          a ← rdiv 1 n1;
          b ← rdiv 1 n2;
          mret (np_sqrt (p_pool * (1 - p_pool) * (a + b)))
        else mret None);
  match se with
  | None => mret (None, None)
  | Some se =>
      if Req_dec_T se 0 then mret (None, None)
      else
        z ← rdiv (p1 - p2) se;
        let pval := 2 * norm_sf (Rabs z) in
        mret (Some z, Some pval)
  end.
End ZTest.

(** ** results_tables.py: summarize_group *)

(* one row of df.groupby(group_col).agg(...).reset_index() *)
Record GroupRow : Type := mkGroupRow {
  g_key : Cell;
  g_policies : Z;
  g_total_premium : Q;
  g_total_claims : Q;
  g_claims_count : Q
}.

(* one row of the returned table *)
Record SummaryRow : Type := mkSummaryRow {
  segment_value : Cell;
  policies : Z;
  claims_count : Q;
  claim_freq : float;
  total_premium : Q;
  total_claims : Q;
  loss_ratio : float;
  z_freq_vs_rest : rfloat;
  p_freq_vs_rest : rfloat;
  mw_stat_severity_vs_rest : float;
  p_severity_vs_rest : float
}.

(* sort_values(key, ascending=False), as a stable sort: rows with equal keys
   keep their order; pandas sorts with quicksort, which leaves the order of
   ties open *)
Fixpoint insert_desc {A} (key : A → Z) (x : A) (l : list A) : list A :=
  match l with
  | [] => [x]
  | y :: l' => if key x <? key y then y :: insert_desc key x l' else x :: y :: l'
  end.

Definition sort_desc {A} (key : A → Z) (l : list A) : list A :=
  foldr (insert_desc key) [] l.

(* DataFrame.head(n): the first n rows, or all but the last -n rows *)
Definition head_n {A} (n : Z) (l : list A) : list A :=
  if 0 <=? n then take (Z.to_nat n) l
  else take (length l - Z.to_nat (- n))%nat l.

(* the rows of one group: df[df[group_col] == name] *)
Definition group_rows (df : DataFrame) (group_col : string) (name : Cell) : DataFrame :=
  select_rows (λ r, cell_eqb (cell r group_col) name) df.

(* the rows outside it: df[df[group_col] != name] *)
Definition rest_rows (df : DataFrame) (group_col : string) (name : Cell) : DataFrame :=
  select_rows (λ r, cell_neqb (cell r group_col) name) df.

(* the column that counts policies, and how *)
Definition policies_of (df g : DataFrame) : Res Z :=
  if has_column df "PolicyID" then nunique <$> getcol g "PolicyID"
  else count <$> getcol g "ClaimOccurred".

(* the aggregates of one group: policies, total_premium, total_claims,
   claims_count *)
Definition agg_group (df : DataFrame) (group_col : string) (name : Cell) : Res GroupRow :=
  let g := group_rows df group_col name in
  n ← policies_of df g;
  tp ← getcol g "TotalPremium" ≫= sum_cells;
  tc ← getcol g "TotalClaims" ≫= sum_cells;
  k ← getcol g "ClaimOccurred" ≫= sum_cells;
  mret (mkGroupRow name n tp tc k).

(* df.groupby(group_col).agg(...).reset_index(): a missing column is a
   KeyError whether or not there is a group; the segment column is one of the
   categorical columns, not one of those aggregated *)
Definition groupby_agg (df : DataFrame) (group_col : string) : Res (list GroupRow) :=
  keys ← getcol df group_col;
  _ ← getcol df (if has_column df "PolicyID" then "PolicyID" else "ClaimOccurred");
  _ ← getcol df "TotalPremium";
  _ ← getcol df "TotalClaims";
  _ ← getcol df "ClaimOccurred";
  mapM (agg_group df group_col) (groupby_keys keys).

(* if top_n: grp = grp.sort_values('policies', ascending=False).head(top_n) *)
Definition keep_top (top_n : option Z) (grp : list GroupRow) : list GroupRow :=
  match top_n with
  | None => grp
  | Some n => if n =? 0 then grp else head_n n (sort_desc g_policies grp)
  end.

(* the baselines of the frequency comparison *)
Definition rest_n (overall_policies : Z) (row : GroupRow) : Z :=
  overall_policies - g_policies row.
Definition rest_k (overall_claims : Q) (row : GroupRow) : Q :=
  (overall_claims - g_claims_count row)%Q.

(* the two severity samples *)
Definition s_group (df : DataFrame) (group_col : string) (name : Cell) : Res (list Cell) :=
  dropna <$> getcol (group_rows df group_col name) "ClaimSeverity".
Definition s_rest (df : DataFrame) (group_col : string) (name : Cell) : Res (list Cell) :=
  dropna <$> getcol (rest_rows df group_col name) "ClaimSeverity".

(* np.nan, np.nan *)
Definition nan_pair : float * float := (None, None).

Section Summarize.
Context `{SciPy}.

(* the severity comparison, gated on both sample sizes *)
Definition severity_test (sg sr : list Cell) : M (float * float) :=
  if (10 <=? Z.of_nat (length sg)) && (10 <=? Z.of_nat (length sr))
  then try_except (call_mannwhitneyu sg sr) (mret nan_pair)
  else mret nan_pair.

(* the body of the loop over grp.iterrows() *)
Definition summarize_row (df : DataFrame) (group_col : string)
    (overall_policies : Z) (overall_claims : Q) (row : GroupRow) : M SummaryRow :=
  let name := g_key row in
  let n := g_policies row in
  let k := g_claims_count row in
  let tp := g_total_premium row in
  let tc := g_total_claims row in
  loss_ratio ← lift (if Qeq_bool tp 0 then mret None else Some <$> qdiv tc tp);
  claim_freq ← lift (if n =? 0 then mret None else Some <$> qdiv k (inject_Z n));
  let rn := rest_n overall_policies row in
  let rk := rest_k overall_claims row in
  zp ← lift (if 0 <? rn
             then two_prop_ztest (Q2R k) (IZR n) (Q2R rk) (IZR rn)
             else mret (None, None));
  sg ← lift (s_group df group_col name);
  sr ← lift (s_rest df group_col name);
  us ← severity_test sg sr;
  mret (mkSummaryRow name n k claim_freq tp tc loss_ratio zp.1 zp.2 us.1 us.2).

(* pd.DataFrame(results).sort_values('policies', ascending=False); a frame
   built from no rows has no 'policies' column *)
Definition results_frame (results : list SummaryRow) : M (list SummaryRow) :=
  match results with
  | [] => lift (Raise (KeyError "policies"))
  | _ => mret (sort_desc policies results)
  end.

(* overall_premium is computed by the source and not used *)
Definition summarize_group (df : DataFrame) (group_col : string)
    (top_n : option Z) : M (list SummaryRow) :=
  grp ← lift (groupby_agg df group_col);
  let overall_policies := sumZ (map g_policies grp) in
  let overall_claims := sumQ (map g_claims_count grp) in
  let grp := keep_top top_n grp in
  results ← mapM (summarize_row df group_col overall_policies overall_claims) grp;
  results_frame results.
End Summarize.


(** ** stat_tests.py: chi2_test_frequency and kw_test_numeric *)

(* a float compared with a threshold; a comparison with NaN is false *)
Definition float_ltb (x : float) (t : Q) : bool :=
  match x with
  | Some q => negb (Qle_bool t q)
  | None => false
  end.

(* Series.value_counts(): each value present with its number of rows, most
   frequent first; missing values are not counted *)
Definition value_counts (l : list Cell) : list (Cell * Z) :=
  sort_desc snd
    (map (λ v, (v, Z.of_nat (length (List.filter (cell_eqb v) l)))) (unique (dropna l))).

(* Series.nlargest(n) *)
Definition nlargest (n : nat) (vc : list (Cell * Z)) : list (Cell * Z) :=
  take n (sort_desc snd vc).

Definition default_min_group_size : Z := 20.

(* the samples kw_test_numeric keeps, with their labels *)
Definition kw_samples (df : DataFrame) (group_col value_col : string)
    (min_group_size : Z) : Res (list (Cell * list Cell)) :=
  keys ← getcol df group_col;
  per_group ← mapM (λ name,
      vals ← dropna <$> getcol (group_rows df group_col name) value_col;
      mret (name, vals)) (groupby_keys keys);
  mret (List.filter (λ nv, min_group_size <=? Z.of_nat (length nv.2)) per_group).

Section Tests.
Context `{SciPy}.

Definition chi2_test_frequency (df : DataFrame) (group_col : string)
    : M (float * float * Crosstab) :=
  keys ← lift (getcol df group_col);
  occ ← lift (getcol df "ClaimOccurred");
  let ct := crosstab (fillna (Str "MISSING") keys) occ in
  r ← call_chi2_contingency ct;
  mret (r.1, r.2, ct).

(* the first two components are Python's None when the test does not apply *)
Definition kw_test_numeric (df : DataFrame) (group_col value_col : string)
    (min_group_size : Z) : M (option (float * float) * list Cell) :=
  kept ← lift (kw_samples df group_col value_col min_group_size);
  let groups := map snd kept in
  let labels := map fst kept in
  if Z.of_nat (length groups) <? 2 then mret (None, labels)
  else
    r ← call_kruskal groups;
    mret (Some r, labels).

Definition summary_overall (df : DataFrame) : M unit :=
  total_premium ← lift (getcol df "TotalPremium" ≫= sum_cells);
  total_claims ← lift (getcol df "TotalClaims" ≫= sum_cells);
  loss_ratio ← lift (if Qeq_bool total_premium 0 then mret None
                     else Some <$> qdiv total_claims total_premium);
  print [PText "Overall: TotalPremium, TotalClaims, LossRatio";
         PFloat (Some total_premium); PFloat (Some total_claims); PFloat loss_ratio].

(* print the statistic, then the verdict at the 0.05 level *)
Definition report (fmt reject keep : string) (stat p : float) : M unit :=
  _ ← print [PText fmt; PFloat stat; PFloat p];
  if float_ltb p (5 # 100) then print [PText reject] else print [PText keep].

Definition tests_province (df : DataFrame) : M unit :=
  if has_column df "Province" then
    _ ← print [PText "Test: Claim frequency across Provinces (Chi-square)"];
    r ← chi2_test_frequency df "Province";
    _ ← print [PText "Chi2=%.3f, p=%.4g"; PFloat r.1.1; PFloat r.1.2];
    _ ← print [PText "Contingency table (top rows):"];
    _ ← print [PTable r.2];
    _ ← (if float_ltb r.1.2 (5 # 100)
         then print [PText "RESULT: Reject H0 - claim frequency differs across provinces (p < 0.05)"]
         else print [PText "RESULT: Fail to reject H0 - no evidence of frequency differences across provinces"]);
    _ ← print [PText "Test: Claim severity across Provinces (Kruskal-Wallis)"];
    kw ← kw_test_numeric (select_rows (λ r, cell_eqb (cell r "ClaimOccurred") (Num 1)) df)
           "Province" "ClaimSeverity" default_min_group_size;
    match kw.1 with
    | None => print [PText "Not enough groups with sufficient claims for severity test"]
    | Some sp =>
        report "KW_stat=%.3f, p=%.4g"
          "RESULT: Reject H0 - claim severity differs across provinces (p < 0.05)"
          "RESULT: Fail to reject H0 - no evidence of severity differences across provinces"
          sp.1 sp.2
    end
  else print [PText "Province column not found - skipping province tests"].

(* the rows the postal code tests run on: those of the ten most frequent codes *)
Definition top_zips (df : DataFrame) : Res (list Cell) :=
  codes ← getcol df "PostalCode";
  mret (map fst (nlargest 10 (value_counts codes))).

Definition df_z (df : DataFrame) (zips : list Cell) : DataFrame :=
  select_rows (λ r, isin zips (cell r "PostalCode")) df.

Definition tests_postal_code (df : DataFrame) : M unit :=
  if has_column df "PostalCode" then
    zips ← lift (top_zips df);
    let dz := df_z df zips in
    _ ← print [PText "Top postal codes used for tests:"; PKeys zips];
    _ ← print [PText "Test: Claim frequency across top PostalCodes (Chi-square)"];
    r ← chi2_test_frequency dz "PostalCode";
    _ ← report "Chi2=%.3f, p=%.4g"
          "RESULT: Reject H0 - claim frequency differs across top postal codes (p < 0.05)"
          "RESULT: Fail to reject H0 - no evidence of frequency differences across top postal codes"
          r.1.1 r.1.2;
    _ ← print [PText "Test: Margin differences across top PostalCodes (Kruskal-Wallis)"];
    kw ← kw_test_numeric dz "PostalCode" "Margin" default_min_group_size;
    match kw.1 with
    | None => print [PText "Not enough data for margin test across postal codes"]
    | Some sp =>
        report "KW_stat=%.3f, p=%.4g"
          "RESULT: Reject H0 - margin differs across top postal codes (p < 0.05)"
          "RESULT: Fail to reject H0 - no evidence of margin differences across top postal codes"
          sp.1 sp.2
    end
  else print [PText "PostalCode column not found - skipping zip code tests"].

(* the severity samples of the two gender labels *)
Definition gender_sample (df : DataFrame) (label : string) : Res (list Cell) :=
  dropna <$> getcol (group_rows df "Gender" (Str label)) "ClaimSeverity".

(* the Mann-Whitney comparison of the gender tests; no try around the call *)
Definition gender_severity_test (male female : list Cell) : M unit :=
  if (10 <=? Z.of_nat (length male)) && (10 <=? Z.of_nat (length female)) then
    r ← call_mannwhitneyu male female;
    report "Mann-Whitney U stat=%.3f, p=%.4g"
      "RESULT: Reject H0 - claim severity differs between genders (p < 0.05)"
      "RESULT: Fail to reject H0 - no evidence of severity differences between genders"
      r.1 r.2
  else print [PText "Insufficient gender-labeled claims for Mann-Whitney test"].

Definition tests_gender (df : DataFrame) : M unit :=
  if has_column df "Gender" then
    _ ← print [PText "Test: Claim frequency between Genders (Chi-square)"];
    genders ← lift (fillna (Str "MISSING") <$> getcol df "Gender");
    if 2 <=? Z.of_nat (length (unique genders)) then
      r ← chi2_test_frequency df "Gender";
      _ ← report "Chi2=%.3f, p=%.4g"
            "RESULT: Reject H0 - claim frequency differs between genders (p < 0.05)"
            "RESULT: Fail to reject H0 - no evidence of frequency differences between genders"
            r.1.1 r.1.2;
      _ ← print [PText "Test: Claim severity between Genders (Mann-Whitney U)"];
      male ← lift (gender_sample df "Male");
      female ← lift (gender_sample df "Female");
      gender_severity_test male female
    else print [PText "Not enough gender categories for chi-square test"]
  else print [PText "Gender column not found - skipping gender tests"].

Definition run_tests (df : DataFrame) : M unit :=
  _ ← print [PText "--- Overall Summary ---"];
  _ ← summary_overall df;
  _ ← tests_province df;
  _ ← tests_postal_code df;
  tests_gender df.
End Tests.


(** ** The metric normalizer: stat_tests.prepare and results_tables.load_data *)

(* str.replace(',', '') *)
Fixpoint remove_commas (s : string) : string :=
  match s with
  | EmptyString => EmptyString
  | String a s' =>
      if Ascii.eqb a ","%char then remove_commas s' else String a (remove_commas s')
  end.

(* str.isspace() on one character: a string here is a list of characters with
   codes below 256, and these are the ones Python strips: tab to carriage
   return, the four separators 28..31, the space, next line and the
   no-break space *)
Definition isspace (a : ascii) : bool :=
  let n := nat_of_ascii a in
  ((9 <=? n) && (n <=? 13) || (28 <=? n) && (n <=? 32) || (n =? 133) || (n =? 160))%nat.
Arguments isspace : simpl never.

Fixpoint lstrip (s : string) : string :=
  match s with
  | EmptyString => EmptyString
  | String a s' => if isspace a then lstrip s' else s
  end.

(* str.strip() *)
Definition strip (s : string) : string :=
  String.rev (lstrip (String.rev (lstrip s))).

(* (s.fillna(0) > 0).astype(int) on one cell *)
Definition claim_occurred (c : Cell) : Res Cell :=
  x ← to_float c;
  mret (Num (if Qle_bool (default 0%Q x) 0 then 0 else 1)).

(* Series.where(mask): the value where the mask holds, NaN elsewhere *)
Definition where_ (values : list Cell) (mask : list bool) : list Cell :=
  zip_with (λ v (b : bool), if b then v else NaN) values mask.

(* a - b on two cells; NaN on either side gives NaN *)
Definition sub_cell (a b : Cell) : Res Cell :=
  x ← to_float a;
  y ← to_float b;
  mret (match x, y with Some p, Some q => Num (p - q) | _, _ => NaN end).

Definition sub_series (a b : list Cell) : Res (list Cell) :=
  mapM (λ p, sub_cell p.1 p.2) (zip a b).

(* frames are objects: a reference names a frame in the heap *)
Definition loc : Type := positive.

Definition Py (A : Type) : Type :=
  gmap loc DataFrame → Res A * gmap loc DataFrame.

#[global] Instance Py_ret : MRet Py := λ A a h, (Ok a, h).
#[global] Instance Py_bind : MBind Py := λ A B f m h,
  match m h with
  | (Ok a, h') => f a h'
  | (Raise e, h') => (Raise e, h')
  end.

Definition py_lift {A} (r : Res A) : Py A := λ h, (r, h).

Definition deref (l : loc) : Py DataFrame := λ h,
  match h !! l with
  | Some df => (Ok df, h)
  | None => (Raise (LibraryError "no such frame"), h)
  end.

Definition assign (l : loc) (df : DataFrame) : Py unit := λ h,
  (Ok tt, <[l := df]> h).

(* a new frame object *)
Definition alloc (df : DataFrame) : Py loc := λ h,
  let l := fresh (dom h) in (Ok l, <[l := df]> h).

(* c in df.columns *)
Definition py_has_column (l : loc) (c : string) : Py bool :=
  df ← deref l; mret (has_column df c).

(* df[c] *)
Definition py_getcol (l : loc) (c : string) : Py (list Cell) :=
  df ← deref l; py_lift (getcol df c).

(* df[c] = values, in place *)
Definition py_setcol (l : loc) (c : string) (values : list Cell) : Py unit :=
  df ← deref l; assign l (setcol df c values).

(* df[c] = scalar, in place *)
Definition py_setcol_scalar (l : loc) (c : string) (v : Cell) : Py unit :=
  df ← deref l; assign l (setcol_scalar df c v).

(* df.columns = [c.strip() for c in df.columns] *)
Definition strip_columns (df : DataFrame) : DataFrame :=
  mkDF (map strip (columns df)) (map (kmap strip) (rows df)).

Definition numeric_fields : list string :=
  ["TotalPremium"; "TotalClaims"; "CustomValueEstimate"].

Definition derived_fields : list string :=
  ["ClaimOccurred"; "ClaimSeverity"; "Margin"].

(* a file path with the suffix pathlib reports for it *)
Record Path : Type := mkPath {
  path_text : string;
  suffix : string
}.

Section Normalizer.
Context `{Pandas}.

(* pd.to_numeric(s.astype(str).str.replace(',', '').str.strip(), errors='coerce')
   on one cell; a number printed by astype(str) parses back to itself *)
Definition coerce_numeric (c : Cell) : Cell :=
  match c with
  | Str s =>
      match parse_number (strip (remove_commas s)) with
      | Some q => Num q
      | None => NaN
      end
  | Num q => Num q
  | NaN => NaN
  end.

(* for c in [...]: if c in df.columns: df[c] = pd.to_numeric(...) *)
Definition coerce_fields (df : loc) : Py unit :=
  _ ← mapM (λ c,
        present ← py_has_column df c;
        if (present : bool) then
          s ← py_getcol df c;
          py_setcol df c (map coerce_numeric s)
        else mret tt) numeric_fields;
  mret tt.

(* df['ClaimOccurred'] = (df['TotalClaims'].fillna(0) > 0).astype(int) *)
Definition set_claim_occurred (df : loc) : Py unit :=
  claims ← py_getcol df "TotalClaims";
  occ ← py_lift (mapM claim_occurred claims);
  py_setcol df "ClaimOccurred" occ.

(* df['ClaimSeverity'] = df['TotalClaims'].where(df['ClaimOccurred'] == 1) *)
Definition set_claim_severity (df : loc) : Py unit :=
  claims ← py_getcol df "TotalClaims";
  occ ← py_getcol df "ClaimOccurred";
  py_setcol df "ClaimSeverity" (where_ claims (map (λ o, cell_eqb o (Num 1)) occ)).

(* df['Margin'] = df['TotalPremium'] - df['TotalClaims'] *)
Definition set_margin (df : loc) : Py unit :=
  premium ← py_getcol df "TotalPremium";
  claims ← py_getcol df "TotalClaims";
  margin ← py_lift (sub_series premium claims);
  py_setcol df "Margin" margin.

(* stat_tests.prepare(df): works on the frame it is handed and returns it *)
Definition prepare (df : loc) : Py loc :=
  _ ← coerce_fields df;
  has_claims ← py_has_column df "TotalClaims";
  _ ← (if (has_claims : bool) then set_claim_occurred df
       else py_setcol_scalar df "ClaimOccurred" (Num 0));
  _ ← set_claim_severity df;
  has_premium ← py_has_column df "TotalPremium";
  _ ← (if (has_premium : bool) && has_claims then set_margin df
       else py_setcol_scalar df "Margin" NaN);
  mret df.

(* results_tables.load_data(p): reads the file into a frame of its own *)
Definition load_data (p : Path) : Py loc :=
  let sep := if String.eqb (suffix p) ".txt" then "|" else "," in
  frame ← py_lift (read_csv (path_text p) sep);
  df ← alloc frame;
  frame ← deref df;
  _ ← assign df (strip_columns frame);
  _ ← coerce_fields df;
  _ ← set_claim_occurred df;
  _ ← set_margin df;
  _ ← set_claim_severity df;
  mret df.
End Normalizer.


(** * Vocabulary of the properties *)

Section Vocabulary.
Context `{SciPy}.

(** ** The two-proportion z-test over the reals *)

(* the pooled proportion and the variance under the square root *)
Definition p_pool (k1 n1 k2 n2 : R) : R :=
  if truthy (n1 + n2) then ((k1 + k2) / (n1 + n2))%R else 0%R.

Definition pooled_variance (k1 n1 k2 n2 : R) : R :=
  (p_pool k1 n1 k2 n2 * (1 - p_pool k1 n1 k2 n2) * (1 / n1 + 1 / n2))%R.

(* the standard error where it is computed: NaN when a sample is empty or the
   variance is negative *)
Definition standard_error (k1 n1 k2 n2 : R) : rfloat :=
  if truthy n1 && truthy n2 then np_sqrt (pooled_variance k1 n1 k2 n2) else None.

(* the pair the test reports when it does not apply *)
Definition inapplicable : rfloat * rfloat := (None, None).

(* the result with the sign of z flipped *)
Definition negate_z (r : rfloat * rfloat) : rfloat * rfloat := (Ropp <$> r.1, r.2).

(* the result of the test, every division carried out *)
Definition ztest_value (k1 n1 k2 n2 : R) : rfloat * rfloat :=
  match standard_error k1 n1 k2 n2 with
  | None => inapplicable
  | Some se =>
      if Req_dec_T se 0 then inapplicable
      else
        let z := ((k1 / n1 - k2 / n2) / se)%R in
        (Some z, Some (2 * norm_sf (Rabs z))%R)
  end.

(** ** Keys, sums and groups *)

(* the number a cell adds to a sum *)
Definition cell_value (c : Cell) : Q :=
  match c with Num q => q | _ => 0%Q end.

(* how many of the keys [ks] equal [c] *)
Definition nmatch (c : Cell) (ks : list Cell) : nat :=
  length (List.filter (cell_eqb c) ks).

(* the numeric reading of one column of a row *)
Definition col_value (col : string) (r : gmap string Cell) : Q :=
  cell_value (cell r col).

(* df[col].sum() *)
Definition column_total (df : DataFrame) (col : string) : Res Q :=
  getcol df col ≫= sum_cells.


(* the number of groups groupby forms *)
Definition n_groups (df : DataFrame) (group_col : string) : nat :=
  length (groupby_keys (map (λ r, cell r group_col) (rows df))).

(* the cap, if any, is at least the number of groups *)
Definition cap_keeps_all (df : DataFrame) (group_col : string) (top_n : option Z) : Prop :=
  match top_n with
  | None => True
  | Some n => n = 0 ∨ Z.of_nat (n_groups df group_col) ≤ n
  end.

(** ** The rows of summarize_group *)

(* the value of the loss_ratio cell *)
Definition loss_ratio_of (tc tp : Q) : float :=
  if Qeq_bool tp 0 then None else Some (tc / tp)%Q.

(* the value of the claim_freq cell *)
Definition claim_freq_of (k : Q) (n : Z) : float :=
  if n =? 0 then None else Some (k / inject_Z n)%Q.

(* the frequency comparison of one group with the rest *)
Definition freq_test (overall_policies : Z) (overall_claims : Q) (row : GroupRow)
    : rfloat * rfloat :=
  if 0 <? rest_n overall_policies row
  then ztest_value (Q2R (g_claims_count row)) (IZR (g_policies row))
         (Q2R (rest_k overall_claims row)) (IZR (rest_n overall_policies row))
  else inapplicable.

(* the row the loop body builds, given the result of the severity test *)
Definition summary_row (op : Z) (oc : Q) (row : GroupRow) (us : float * float)
    : SummaryRow :=
  mkSummaryRow (g_key row) (g_policies row) (g_claims_count row)
    (claim_freq_of (g_claims_count row) (g_policies row))
    (g_total_premium row) (g_total_claims row)
    (loss_ratio_of (g_total_claims row) (g_total_premium row))
    (freq_test op oc row).1 (freq_test op oc row).2 us.1 us.2.

(* the loop body with its guarded arithmetic carried out *)
Definition summarize_row_value (df : DataFrame) (group_col : string)
    (op : Z) (oc : Q) (row : GroupRow) : M SummaryRow :=
  match s_group df group_col (g_key row), s_rest df group_col (g_key row) with
  | Ok sg, Ok sr =>
      (summary_row op oc row <$> (severity_test sg sr).1, (severity_test sg sr).2)
  | Raise e, _ => (Raise e, [])
  | Ok _, Raise e => (Raise e, [])
  end.

(* summarize_group with the loop body carried out, for evaluating it *)
Definition summarize_group_value (df : DataFrame) (group_col : string)
    (top_n : option Z) : M (list SummaryRow) :=
  grp ← lift (groupby_agg df group_col);
  results ← mapM (summarize_row_value df group_col (sumZ (map g_policies grp))
                    (sumQ (map g_claims_count grp))) (keep_top top_n grp);
  results_frame results.

(* what a successful call returned, for stating facts about it *)
Definition rows_of (m : M (list SummaryRow)) : list SummaryRow :=
  match m.1 with Ok out => out | Raise _ => [] end.



(* ClaimOccurred is the 0/1 indicator the normalizer derives; the frame that
   prepare returns has it so *)
Definition indicator (df : DataFrame) : Prop :=
  Forall (λ r, cell r "ClaimOccurred" = Num 0 ∨ cell r "ClaimOccurred" = Num 1) (rows df).

(* a float that is a number between 0 and 1 *)
Definition in_unit_interval (x : float) : Prop :=
  ∃ f, x = Some f ∧ (0 <= f)%Q ∧ (f <= 1)%Q.

(** ** The events of the tests *)

(* a property of every event a computation logs *)
Definition logs {A} (P : Event → Prop) (m : M A) : Prop := Forall P m.2.

(* a Mann-Whitney call logged by summarize_group: both samples have ten
   values or more, and they are one group's severities and its complement's *)
Definition gated_on (df : DataFrame) (group_col : string) (ev : Event) : Prop :=
  match ev with
  | CallMannWhitneyU x y =>
      (10 ≤ length x)%nat ∧ (10 ≤ length y)%nat
      ∧ ∃ name, s_group df group_col name = Ok x ∧ s_rest df group_col name = Ok y
  | _ => True
  end.

(* a Mann-Whitney call logged by run_tests *)
Definition gender_gated (df : DataFrame) (ev : Event) : Prop :=
  match ev with
  | CallMannWhitneyU x y =>
      (10 ≤ length x)%nat ∧ (10 ≤ length y)%nat
      ∧ gender_sample df "Male" = Ok x ∧ gender_sample df "Female" = Ok y
  | _ => True
  end.

(* the severity cells of an emitted row: NaN and no call when one of the two
   samples is short; otherwise the call is in the log and the cells hold what
   it returned, NaN if it raised *)
Definition severity_cells_ok (df : DataFrame) (group_col : string)
    (log : list Event) (r : SummaryRow) : Prop :=
  ∃ sg sr,
    s_group df group_col (segment_value r) = Ok sg
    ∧ s_rest df group_col (segment_value r) = Ok sr
    ∧ ((length sg < 10 ∨ length sr < 10)%nat →
       mw_stat_severity_vs_rest r = None ∧ p_severity_vs_rest r = None
       ∧ CallMannWhitneyU sg sr ∉ log)
    ∧ ((10 ≤ length sg ∧ 10 ≤ length sr)%nat →
       CallMannWhitneyU sg sr ∈ log
       ∧ (mw_stat_severity_vs_rest r, p_severity_vs_rest r)
         = match mannwhitneyu sg sr with Ok us => us | Raise _ => nan_pair end).




(* the table chi2_test_frequency builds from a frame: every row of the frame,
   a missing segment value counted under "MISSING" *)
Definition full_table (df : DataFrame) (group_col : string) : Crosstab :=
  crosstab (fillna (Str "MISSING") (map (λ r, cell r group_col) (rows df)))
           (map (λ r, cell r "ClaimOccurred") (rows df)).

(* the number of records a table counts *)
Definition table_total (ct : Crosstab) : Z := sumZ (map sumZ (ct_counts ct)).



(** ** Frames in the heap *)

(* the columns the normalizer writes *)
Definition touched : list string := numeric_fields ++ derived_fields.

(* [df'] has the rows of [df], and outside the columns [cs] the same columns
   with the same cells *)
Definition same_outside (cs : list string) (df df' : DataFrame) : Prop :=
  length (rows df') = length (rows df)
  ∧ (∀ c, c ∉ cs → has_column df' c = has_column df c)
  ∧ (∀ c, c ∉ cs → map (λ r, r !! c) (rows df') = map (λ r, r !! c) (rows df)).

(* the heap differs from [h0] at most in the frame at [l], which satisfies [R] *)
Definition only_frame (l : loc) (R : DataFrame → Prop) (h0 h : gmap loc DataFrame)
    : Prop :=
  (∀ l', l' ≠ l → h !! l' = h0 !! l') ∧ ∃ df, h !! l = Some df ∧ R df.

(* [m] keeps the heap so, and a value it returns satisfies [Q] *)
Definition keeps (l : loc) (R : DataFrame → Prop) (h0 : gmap loc DataFrame)
    {A} (m : Py A) (Q : A → Prop) : Prop :=
  ∀ h, only_frame l R h0 h → only_frame l R h0 (m h).2 ∧ ∀ a, (m h).1 = Ok a → Q a.

End Vocabulary.


(** * Worked inputs *)

(* scipy as seen by the worked inputs: every statistic comes back NaN *)
Definition scipy_nan : SciPy := {|
  norm_sf := λ _, 0%R;
  mannwhitneyu := λ _ _, Ok nan_pair;
  kruskal := λ _, Ok nan_pair;
  chi2_contingency := λ _, Ok nan_pair
|}.

(* a parser for unsigned whole numbers *)
Fixpoint digits_value (acc : Z) (s : string) : option Z :=
  match s with
  | EmptyString => Some acc
  | String a s' =>
      let d := Z.of_nat (nat_of_ascii a) - 48 in
      if (0 <=? d) && (d <=? 9) then digits_value (10 * acc + d) s' else None
  end.

(* the number grammar of the worked inputs *)
Definition parse_digits (s : string) : option Q :=
  match s with
  | EmptyString => None
  | _ => inject_Z <$> digits_value 0 s
  end.

(* pandas as seen by the worked inputs: one file *)
Definition pandas_with (path : string) (frame : DataFrame) : Pandas := {|
  parse_number := parse_digits;
  read_csv := λ p _, if String.eqb p path then Ok frame else Raise (LibraryError "no such file")
|}.

(* a raw row: attributes, then premium and claims as the text of the file *)
Definition raw_row (attrs : list (string * Cell)) (premium claims : string)
    : gmap string Cell :=
  list_to_map (attrs ++ [("TotalPremium", Str premium); ("TotalClaims", Str claims)]).

(* the frame prepare leaves behind when handed [raw] *)
Definition normalized (raw : DataFrame) : DataFrame :=
  default raw
    ((prepare (H := pandas_with "" raw) 1%positive {[1%positive := raw]}).2 !! 1%positive).

(* rows of two provinces and one row with the province missing; no PolicyID *)
Definition raw_provinces : DataFrame :=
  mkDF ["Province"; "TotalPremium"; "TotalClaims"]
    [ raw_row [("Province", Str "A")] "100" "0";
      raw_row [("Province", Str "A")] "100" "50";
      raw_row [("Province", Str "A")] "100" "0";
      raw_row [("Province", Str "B")] "100" "0";
      raw_row [("Province", Str "B")] "100" "0";
      raw_row [("Province", NaN)] "100" "70" ].

(* the same rows after prepare *)
Definition provinces : DataFrame := normalized raw_provinces.

(* the same policy on two rows of a province, both with a claim *)
Definition repeated_policy : DataFrame :=
  normalized (mkDF ["Province"; "PolicyID"; "TotalPremium"; "TotalClaims"]
    [ raw_row [("Province", Str "A"); ("PolicyID", Num 1)] "100" "50";
      raw_row [("Province", Str "A"); ("PolicyID", Num 1)] "100" "60";
      raw_row [("Province", Str "B"); ("PolicyID", Num 2)] "100" "0" ]).

(* two rows for each of the postal codes 1..10, one row for the code 11 *)
Definition postal_codes : DataFrame :=
  normalized (mkDF ["PostalCode"; "TotalPremium"; "TotalClaims"]
    (flat_map (λ code, [ raw_row [("PostalCode", Num (inject_Z code))] "100" "0";
                         raw_row [("PostalCode", Num (inject_Z code))] "100" "50" ])
       [1; 2; 3; 4; 5; 6; 7; 8; 9; 10]
     ++ [ raw_row [("PostalCode", Num 11)] "100" "0" ])).

(* two rows of province A, one with a claim of 50, and two of province B *)
Definition scenario : DataFrame :=
  normalized (mkDF ["Province"; "TotalPremium"; "TotalClaims"]
    [ raw_row [("Province", Str "A")] "100" "0";
      raw_row [("Province", Str "A")] "100" "50";
      raw_row [("Province", Str "B")] "100" "0";
      raw_row [("Province", Str "B")] "100" "0" ]).


(** * More vocabulary *)

(* a cell that holds text *)
Definition is_text (c : Cell) : bool :=
  match c with Str _ => true | _ => false end.

(* the column is there and none of its cells is text *)
Definition numeric_column (df : DataFrame) (c : string) : bool :=
  has_column df c && forallb (λ r, negb (is_text (cell r c))) (rows df).

(* sort_values(key, ascending=False) leaves the keys in descending order *)
Definition descending {A} (key : A → Z) (l : list A) : Prop :=
  StronglySorted (λ a b, key b ≤ key a) l.

(* the columns summarize_group aggregates; the segment column is another one *)
Definition aggregated : list string :=
  ["PolicyID"; "TotalPremium"; "TotalClaims"; "ClaimOccurred"].


(** ** The frame the normalizer leaves *)

Section NormalizerVocabulary.
Context `{Pandas}.

(* df[c] = f(row), row by row *)
Definition setcol_by (df : DataFrame) (c : string) (f : gmap string Cell → Cell)
    : DataFrame :=
  setcol df c (map f (rows df)).

(* one round of the coercion loop *)
Definition coerce_column (df : DataFrame) (c : string) : DataFrame :=
  if has_column df c then setcol_by df c (λ r, coerce_numeric (cell r c)) else df.

(* the amounts of a row after the coercion loop *)
Definition coerce_row (df : DataFrame) (r : gmap string Cell) : gmap string Cell :=
  foldl (λ r c, if has_column df c then <[c := coerce_numeric (cell r c)]> r else r)
    r numeric_fields.

(* no cell of the column is text *)
Definition no_text (df : DataFrame) (c : string) : Prop :=
  ∀ r, r ∈ rows df → is_text (cell r c) = false.

(* a claim amount above zero *)
Definition has_claim (c : Cell) : bool :=
  match c with Num q => negb (Qle_bool q 0) | _ => false end.

(* the three derived cells of a row *)
Definition occurred_of (r : gmap string Cell) : Cell :=
  Num (if has_claim (cell r "TotalClaims") then 1 else 0).

Definition severity_of (r : gmap string Cell) : Cell :=
  if cell_eqb (cell r "ClaimOccurred") (Num 1) then cell r "TotalClaims" else NaN.

Definition difference (a b : Cell) : Cell :=
  match a, b with Num p, Num q => Num (p - q) | _, _ => NaN end.

Definition margin_of (r : gmap string Cell) : Cell :=
  difference (cell r "TotalPremium") (cell r "TotalClaims").

(* the derived cells written into a row, in the order prepare writes them *)
Definition derive_row (premium : bool) (r : gmap string Cell) : gmap string Cell :=
  let r1 := <["ClaimOccurred" := occurred_of r]> r in
  let r2 := <["ClaimSeverity" := severity_of r1]> r1 in
  <["Margin" := if premium then margin_of r2 else NaN]> r2.

(* the frame prepare leaves in place of [df], when TotalClaims is a column *)
Definition prepared (df : DataFrame) : DataFrame :=
  let d1 := foldl coerce_column df numeric_fields in
  let d2 := setcol_by d1 "ClaimOccurred" occurred_of in
  let d3 := setcol_by d2 "ClaimSeverity" severity_of in
  setcol_by d3 "Margin" (if has_column df "TotalPremium" then margin_of else λ _, NaN).

(* the frame load_data builds from the frame it read, when TotalClaims and
   TotalPremium are columns *)
Definition loaded (frame : DataFrame) : DataFrame :=
  let d1 := foldl coerce_column (strip_columns frame) numeric_fields in
  let d2 := setcol_by d1 "ClaimOccurred" occurred_of in
  let d3 := setcol_by d2 "Margin" margin_of in
  setcol_by d3 "ClaimSeverity" severity_of.

(* the separator the loaders pass to read_csv *)
Definition separator (p : Path) : string :=
  if String.eqb (suffix p) ".txt" then "|" else ",".

(* what the normalizer makes of a row [r]: amounts read as numbers, the
   claim indicator, the severity and the margin *)
Definition derived_from (premium : bool) (r r' : gmap string Cell) : Prop :=
  let claims := coerce_numeric (cell r "TotalClaims") in
  cell r' "TotalClaims" = claims
  ∧ (premium = true → cell r' "TotalPremium" = coerce_numeric (cell r "TotalPremium"))
  ∧ cell r' "ClaimOccurred" = Num (if has_claim claims then 1 else 0)
  ∧ cell r' "ClaimSeverity" = (if has_claim claims then claims else NaN)
  ∧ cell r' "Margin"
    = (if premium then difference (coerce_numeric (cell r "TotalPremium")) claims
       else NaN).
End NormalizerVocabulary.


(** ** The tests of run_tests and their columns *)

(* the category a row is tabulated under *)
Definition category (group_col : string) (r : gmap string Cell) : Cell :=
  if isna (cell r group_col) then Str "MISSING" else cell r group_col.

(* the number of values the Gender column takes, a missing one counted once *)
Definition gender_categories (df : DataFrame) : nat :=
  length (unique (fillna (Str "MISSING") (map (λ r, cell r "Gender") (rows df)))).

(* a library call of run_tests belongs to a segment column of the frame *)
Definition for_present_column (df : DataFrame) (ev : Event) : Prop :=
  match ev with
  | CallChi2Contingency ct =>
      (has_column df "Province" = true ∧ ct = full_table df "Province")
      ∨ (has_column df "PostalCode" = true
         ∧ ∃ zips, top_zips df = Ok zips ∧ ct = full_table (df_z df zips) "PostalCode")
      ∨ (has_column df "Gender" = true ∧ (2 ≤ gender_categories df)%nat
         ∧ ct = full_table df "Gender")
  | CallKruskal _ =>
      has_column df "Province" = true ∨ has_column df "PostalCode" = true
  | CallMannWhitneyU _ _ =>
      has_column df "Gender" = true ∧ (2 ≤ gender_categories df)%nat
  | Print _ => True
  end.

(* a line printed, as opposed to a call into scipy *)
Definition is_print (ev : Event) : Prop :=
  match ev with Print _ => True | _ => False end.

(* the frequency comparison of an emitted row, from the totals over the
   groups [grp]: the test on the row's counts against the rest, NaN when the
   rest has no policy *)
Definition frequency_cells `{SciPy} (grp : list GroupRow) (r : SummaryRow) : Prop :=
  let rn := sumZ (map g_policies grp) - policies r in
  let rk := (sumQ (map g_claims_count grp) - claims_count r)%Q in
  if 0 <? rn
  then two_prop_ztest (Q2R (claims_count r)) (IZR (policies r)) (Q2R rk) (IZR rn)
       = Ok (z_freq_vs_rest r, p_freq_vs_rest r)
  else z_freq_vs_rest r = None ∧ p_freq_vs_rest r = None.


(** * The two scripts from end to end *)

(** ** Files *)

(* the file system and the pandas calls that touch it, outside the repository *)
Class Storage : Type := {
  (* Path.exists() *)
  path_exists : string → bool;
  (* Path('data').glob('*.csv'), in the order the directory yields the files *)
  glob_data_csv : list Path;
  (* pd.read_csv(path, sep=sep, low_memory=False), without parse_dates *)
  read_csv_plain : string → string → Res DataFrame;
  (* Path.mkdir(parents=True, exist_ok=True) *)
  mkdir : string → Res unit;
  (* DataFrame.to_csv(path, index=False) on a summary table *)
  to_csv : string → list SummaryRow → Res unit
}.

(* what a script does to the outside: the events of the reporting code, and
   the directories and files it creates *)
Inductive Effect : Type :=
  | Said (ev : Event)
  | MadeDir (path : string)
  | Wrote (path : string) (table : list SummaryRow).

Definition IO (A : Type) : Type := (Res A * list Effect)%type.

#[global] Instance IO_ret : MRet IO := λ A a, (Ok a, []).
#[global] Instance IO_bind : MBind IO := λ A B f m,
  match m with
  | (Ok a, log) => let '(r, log') := f a in (r, log ++ log')
  | (Raise e, log) => (Raise e, log)
  end.

(* the reporting code run inside a script *)
Definition said {A} (m : M A) : IO A := (m.1, map Said m.2).

(* a result or an exception, no effect *)
Definition io_lift {A} (r : Res A) : IO A := (r, []).

(* for p in candidates: if p.exists(): return p *)
Definition first_existing `{Storage} (candidates : list Path) : option Path :=
  List.find (λ p, path_exists (path_text p)) candidates.

(* the frame a heap computation leaves, run in a heap of its own *)
Definition frame_of (m : Py loc) : Res DataFrame :=
  let '(r, h) := m ∅ in
  l ← r;
  match h !! l with
  | Some df => Ok df
  | None => Raise (LibraryError "no such frame")
  end.

(** ** results_tables.py: find_input, run_all, main *)

Module ResultsTables.
Section Script.
Context `{SciPy} `{Pandas} `{Storage}.

Definition candidates : list Path :=
  [ mkPath "../data/processed_sample_from_data_quality.csv" ".csv";
    mkPath "../data/processed_sample_from_notebook.csv" ".csv";
    mkPath "../data/MachineLearningRating_v3.txt" ".txt" ].

Definition find_input : option Path := first_existing candidates.

Definition outdir : string := "outputs/results".

(* one block of run_all:
     if col in df.columns:
         t = summarize_group(df, col, top_n); t.to_csv(outdir / file); print('Wrote', ...) *)
Definition write_summary (df : DataFrame) (col : string) (top_n : option Z)
    (file : string) : IO unit :=
  if has_column df col then
    table ← said (summarize_group df col top_n);
    _ ← io_lift (to_csv (outdir +:+ "/" +:+ file) table);
    _ ← ((Ok tt, [Wrote (outdir +:+ "/" +:+ file) table]) : IO unit);
    said (print [PText "Wrote"; PText (outdir +:+ "/" +:+ file)])
  else mret tt.

Definition run_all (df : DataFrame) : IO unit :=
  _ ← io_lift (mkdir outdir);
  _ ← ((Ok tt, [MadeDir outdir]) : IO unit);
  _ ← write_summary df "Province" None "province_summary.csv";
  _ ← write_summary df "PostalCode" (Some 10) "postalcode_top10_summary.csv";
  _ ← write_summary df "make" (Some 20) "make_summary_top20.csv";
  write_summary df "Model" (Some 20) "model_summary_top20.csv".

Definition main : IO unit :=
  match find_input with
  | None => said (print [PText "No input found; run data pipeline first"])
  | Some p =>
      _ ← said (print [PText "Loading"; PText (path_text p)]);
      df ← io_lift (frame_of (load_data p));
      _ ← said (print [PText "Running aggregations and tests..."]);
      run_all df
  end.
End Script.
End ResultsTables.

(** ** stat_tests.py: find_input, load_data, main *)

Module StatTests.
Section Script.
Context `{SciPy} `{Pandas} `{Storage}.

Definition candidates : list Path :=
  [ mkPath "data/processed_sample_from_notebook.csv" ".csv";
    mkPath "data/processed_sample_from_data_quality.csv" ".csv";
    mkPath "data/MachineLearningRating_v3.txt" ".txt" ].

(* the candidates in order, then the first csv file under data/ *)
Definition find_input : option Path :=
  match first_existing candidates with
  | Some p => Some p
  | None => head glob_data_csv
  end.

(* try: read_csv(..., parse_dates=['TransactionMonth']) / except Exception:
   read_csv(...) without it; then the column names are stripped *)
Definition load_data (p : Path) : Py loc :=
  let sep := if String.eqb (suffix p) ".txt" then "|" else "," in
  frame ← py_lift (match read_csv (path_text p) sep with
                   | Ok frame => Ok frame
                   | Raise _ => read_csv_plain (path_text p) sep
                   end);
  df ← alloc frame;
  frame ← deref df;
  _ ← assign df (strip_columns frame);
  mret df.

Definition main : IO unit :=
  match find_input with
  | None =>
      said (print [PText "No input data found under data/ - please run data pipeline first"])
  | Some p =>
      _ ← said (print [PText "Loading"; PText (path_text p)]);
      df ← io_lift (frame_of (df ← load_data p; prepare df));
      said (run_tests df)
  end.
End Script.
End StatTests.

(** ** Vocabulary of the scripts *)

(* the tables [run_all] is to write: column, cap and file name, in order *)
Definition summary_plan : list (string * option Z * string) :=
  [ ("Province", None, "province_summary.csv");
    ("PostalCode", Some 10, "postalcode_top10_summary.csv");
    ("make", Some 20, "make_summary_top20.csv");
    ("Model", Some 20, "model_summary_top20.csv") ].

(* the files among the effects, in the order they were written *)
Definition written (log : list Effect) : list (string * list SummaryRow) :=
  omap (λ e, match e with Wrote path table => Some (path, table) | _ => None end) log.

(* the files [run_all] writes when nothing fails: one per planned column the
   frame has, holding the table summarize_group returns for it *)
Definition planned_files `{SciPy} (df : DataFrame) : list (string * list SummaryRow) :=
  map (λ e, (ResultsTables.outdir +:+ "/" +:+ e.2,
             rows_of (summarize_group df e.1.1 e.1.2)))
    (List.filter (λ e, has_column df e.1.1) summary_plan).

(* the frame stat_tests.load_data reads: with the dates parsed, or, when that
   raises, without *)
Definition read_with_fallback `{Pandas} `{Storage} (p : Path) : Res DataFrame :=
  match read_csv (path_text p) (separator p) with
  | Ok frame => Ok frame
  | Raise _ => read_csv_plain (path_text p) (separator p)
  end.

(* an effect on the file system *)
Definition touches_files (e : Effect) : Prop :=
  match e with Said _ => False | _ => True end.

(* an effect that is a call into scipy *)
Definition calls_scipy (e : Effect) : Prop :=
  match e with
  | Said (Print _) => False
  | Said _ => True
  | _ => False
  end.


(** ** Cleaned text *)

(* the string does not begin with white space *)
Definition starts_clean (s : string) : Prop :=
  match s with
  | EmptyString => True
  | String a _ => isspace a = false
  end.

(* neither end of the string is white space *)
Definition trimmed (s : string) : Prop :=
  starts_clean s ∧ starts_clean (String.rev s).

(* the string holds no comma *)
Fixpoint comma_free (s : string) : bool :=
  match s with
  | EmptyString => true
  | String a s' => negb (Ascii.eqb a ","%char) && comma_free s'
  end.


(** ** More worked inputs *)

(* two rows of one province *)
Definition one_province : DataFrame :=
  normalized (mkDF ["Province"; "TotalPremium"; "TotalClaims"]
    [ raw_row [("Province", Str "A")] "100" "0";
      raw_row [("Province", Str "A")] "100" "50" ]).

(* a raw frame without the claim amounts *)
Definition no_claims_column : DataFrame :=
  mkDF ["Province"; "TotalPremium"]
    [ list_to_map [("Province", Str "A"); ("TotalPremium", Str "100")] ].

(* a raw frame without the premiums *)
Definition no_premium_column : DataFrame :=
  mkDF ["Province"; "TotalClaims"]
    [ list_to_map [("Province", Str "A"); ("TotalClaims", Str "50")] ].

(* the normalized columns and no row *)
Definition no_rows : DataFrame :=
  mkDF ["Province"; "TotalPremium"; "TotalClaims"; "ClaimOccurred"; "ClaimSeverity";
        "Margin"] [].

(* the file system as seen by the worked inputs: the listed files exist,
   nothing matches the glob, the plain read finds no file, and making a
   directory or writing a table succeeds *)
Definition storage_with (files : list string) : Storage := {|
  path_exists := λ p, bool_decide (p ∈ files);
  glob_data_csv := [];
  read_csv_plain := λ _ _, Raise (LibraryError "no such file");
  mkdir := λ _, Ok tt;
  to_csv := λ _ _, Ok tt
|}.

(* scipy with every routine raising *)
Definition scipy_failing : SciPy := {|
  norm_sf := λ _, 0%R;
  mannwhitneyu := λ _ _, Raise (LibraryError "mannwhitneyu");
  kruskal := λ _, Raise (LibraryError "kruskal");
  chi2_contingency := λ _, Raise (LibraryError "chi2_contingency")
|}.


(** * Vocabulary of the totals, the ratios and the chi-square statistic *)

(** ** Sums in float64 *)

(* pandas holds the amounts as float64 and adds them with rounding, where
   [sum_cells] adds the same numbers exactly.  The two sums agree when no
   addition rounds, as with whole numbers whose magnitudes add up to less
   than 2^53: every partial sum, in whatever order it is formed, is then a
   whole number that float64 holds. *)


(* the magnitude a cell adds to a sum *)
Definition magnitude (c : Cell) : Q := Qabs (cell_value c).




(* the float64 nearest to a rational with numerator and denominator below 2^53 *)
Definition float64_of_Z (z : Z) : PrimFloat.float :=
  match z with
  | Zneg p => PrimFloat.opp (PrimFloat.of_uint63 (Uint63.of_Z (Zpos p)))
  | _ => PrimFloat.of_uint63 (Uint63.of_Z z)
  end.

Definition float64_of_Q (q : Q) : PrimFloat.float :=
  PrimFloat.div (float64_of_Z (Qnum q)) (float64_of_Z (Zpos (Qden q))).

(* Series.sum() as float64 adds: one cell after the other, each addition
   rounded, missing values skipped *)
Definition float64_sum (cells : list Cell) : PrimFloat.float :=
  fold_left (λ acc c,
      match c with
      | Num q => PrimFloat.add acc (float64_of_Q q)
      | _ => acc
      end) cells PrimFloat.zero.

(* the float64 total of a column over the rows of each group, the groups'
   totals then added up *)
Definition float64_group_totals (df : DataFrame) (group_col col : string)
    : list PrimFloat.float :=
  map (λ name, float64_sum (map (λ r, cell r col) (rows (group_rows df group_col name))))
    (groupby_keys (map (λ r, cell r group_col) (rows df))).

Definition float64_emitted_total (df : DataFrame) (group_col col : string)
    : PrimFloat.float :=
  fold_left PrimFloat.add (float64_group_totals df group_col col) PrimFloat.zero.

(** ** Records and the groups that count them *)



(** ** The two ratios of an emitted row *)

(* a float that, when it is a number, lies between 0 and 1 *)
Definition within_unit (x : float) : Prop :=
  ∀ f, x = Some f → (0 <= f)%Q ∧ (f <= 1)%Q.

(* no cell is missing and no two are equal *)
Fixpoint distinct_present (l : list Cell) : bool :=
  match l with
  | [] => true
  | c :: l' => notna c && negb (existsb (cell_eqb c) l') && distinct_present l'
  end.

(* the policies of the rows of a group that have a claim *)
Definition claim_policies (df : DataFrame) (group_col : string) (name : Cell)
    : list Cell :=
  map (λ r, cell r "PolicyID")
    (List.filter (λ r, cell_eqb (cell r "ClaimOccurred") (Num 1))
       (rows (group_rows df group_col name))).

(* what holds of the two ratios of an emitted row: claim_freq is
   claims_count / policies, NaN exactly when policies is 0, and never
   negative; it is at most 1 when policies counts rows, and when it counts
   distinct PolicyID values and the rows of the group with a claim are of
   distinct policies; loss_ratio is total_claims / total_premium, NaN exactly
   when the premium is 0 *)
Definition ratios_hold (df : DataFrame) (group_col : string) (r : SummaryRow) : Prop :=
  claim_freq r = claim_freq_of (claims_count r) (policies r)
  ∧ loss_ratio r = loss_ratio_of (total_claims r) (total_premium r)
  ∧ (loss_ratio r = None ↔ (total_premium r == 0)%Q)
  ∧ (claim_freq r = None ↔ policies r = 0)
  ∧ (indicator df → ∀ f, claim_freq r = Some f → (0 <= f)%Q)
  ∧ (indicator df → has_column df "PolicyID" = false →
       in_unit_interval (claim_freq r))
  ∧ (indicator df → has_column df "PolicyID" = true →
       distinct_present (claim_policies df group_col (segment_value r)) = true →
       within_unit (claim_freq r)).

(* the rows of [repeated_policy] in a file without the PolicyID column *)
Definition repeated_rows : DataFrame :=
  normalized (mkDF ["Province"; "TotalPremium"; "TotalClaims"]
    [ raw_row [("Province", Str "A")] "100" "50";
      raw_row [("Province", Str "A")] "100" "60";
      raw_row [("Province", Str "B")] "100" "0" ]).

(* two policies of a province, each with a claim on one row *)
Definition two_policies : DataFrame :=
  normalized (mkDF ["Province"; "PolicyID"; "TotalPremium"; "TotalClaims"]
    [ raw_row [("Province", Str "A"); ("PolicyID", Num 1)] "100" "50";
      raw_row [("Province", Str "A"); ("PolicyID", Num 1)] "100" "0";
      raw_row [("Province", Str "A"); ("PolicyID", Num 2)] "100" "60";
      raw_row [("Province", Str "B"); ("PolicyID", Num 3)] "0" "0" ]).

(** ** The chi-square statistic of a table *)

(* What scipy.stats.chi2_contingency documents of the call the code makes,
   with the default arguments: the expected frequency of an entry is its row
   total times its column total over the total; the degrees of freedom are
   (rows - 1)(columns - 1); the statistic is Pearson's, the sum of
   (observed - expected)^2 / expected, with Yates' continuity correction when
   there is one degree of freedom, and 0 when there is none; the p-value is
   the chi-square survival function at the statistic. *)

Definition row_totals (ct : Crosstab) : list Z := map sumZ (ct_counts ct).

Definition column_totals (ct : Crosstab) : list Z :=
  map (λ j, sumZ (map (λ row, nth j row 0) (ct_counts ct)))
    (seq 0 (length (ct_columns ct))).

(* every observed count with its expected frequency *)
Definition observed_expected (ct : Crosstab) : list (Q * Q) :=
  concat (map (λ row,
      zip_with (λ o c,
        (inject_Z o, inject_Z (sumZ row) * inject_Z c / inject_Z (table_total ct))%Q)
        row (column_totals ct))
    (ct_counts ct)).

Definition degrees_of_freedom (ct : Crosstab) : Z :=
  (Z.of_nat (length (ct_index ct)) - 1) * (Z.of_nat (length (ct_columns ct)) - 1).

(* (observed - expected)^2 / expected *)
Definition pearson_term (oe : Q * Q) : Q := ((oe.1 - oe.2) ^ 2 / oe.2)%Q.

Definition pearson_statistic (ct : Crosstab) : Q :=
  sumQ (map pearson_term (observed_expected ct)).

(* Yates' correction: the observed count moved towards the expected
   frequency by a half, and no further than to it *)
Definition yates (oe : Q * Q) : Q * Q :=
  let diff := (oe.2 - oe.1)%Q in
  let magnitude := if Qle_bool (1 # 2) (Qabs diff) then (1 # 2)%Q else Qabs diff in
  ((oe.1 + magnitude * inject_Z (Z.sgn (Qnum diff)))%Q, oe.2).

Definition yates_statistic (ct : Crosstab) : Q :=
  sumQ (map (λ oe, pearson_term (yates oe)) (observed_expected ct)).

(* the statistic chi2_contingency returns *)
Definition chi2_statistic (ct : Crosstab) : Q :=
  match degrees_of_freedom ct with
  | 0 => 0%Q
  | 1 => yates_statistic ct
  | _ => pearson_statistic ct
  end.

(* the p-value it returns, [sf dof x] being the survival function of the
   chi-square distribution with [dof] degrees of freedom *)
Definition chi2_p_value (sf : Z → Q → float) (ct : Crosstab) : float :=
  if degrees_of_freedom ct =? 0 then Some 1%Q
  else sf (degrees_of_freedom ct) (chi2_statistic ct).

(* the call as a whole: an empty table and a zero expected frequency are
   refused *)
Definition chi2_reference (sf : Z → Q → float) (ct : Crosstab) : Res (float * float) :=
  match observed_expected ct with
  | [] => Raise (LibraryError "No data; `observed` has size 0.")
  | oes =>
      if existsb (λ oe, Qeq_bool oe.2 0) oes
      then Raise (LibraryError "The internally computed table of expected frequencies has a zero element.")
      else Ok (Some (chi2_statistic ct), chi2_p_value sf ct)
  end.



(* scipy as documented for the chi-square test, [sf] for the survival
   function; the other statistics come back NaN *)
Definition scipy_documented (sf : Z → Q → float) : SciPy := {|
  norm_sf := λ _, 0%R;
  mannwhitneyu := λ _ _, Ok nan_pair;
  kruskal := λ _, Ok nan_pair;
  chi2_contingency := chi2_reference sf
|}.

(* a survival function that is never evaluated to a number *)
Definition sf_nan : Z → Q → float := λ _ _, None.


(** * Properties *)

(** ** The two-proportion z-test *)

Section ZTestFacts.
Context `{SciPy}.
Local Open Scope R_scope.

Lemma truthy_true x : truthy x = true ↔ x ≠ 0.
Proof. unfold truthy. destruct (Req_dec_T x 0); split; intros; congruence. Qed.

Lemma truthy_false x : truthy x = false ↔ x = 0.
Proof. unfold truthy. destruct (Req_dec_T x 0); split; intros; congruence. Qed.

Lemma rdiv_truthy a b : truthy b = true → rdiv a b = Ok (a / b).
Proof. unfold rdiv. by intros ->. Qed.

(* the test never raises: every division is guarded *)
Lemma two_prop_ztest_value k1 n1 k2 n2 :
  two_prop_ztest k1 n1 k2 n2 = Ok (ztest_value k1 n1 k2 n2).
Proof.
  unfold two_prop_ztest, ztest_value, standard_error, pooled_variance, p_pool.
  destruct (truthy n1) eqn:H1, (truthy n2) eqn:H2, (truthy (n1 + n2)) eqn:H12;
    repeat match goal with
    | |- context [rdiv ?a ?b] => rewrite (rdiv_truthy a b) by done
    end; simpl; try done;
    match goal with
    | |- context [np_sqrt ?x] => destruct (np_sqrt x) as [se|]; [|done]
    end;
    destruct (Req_dec_T se 0) as [|Hse]; try done;
    rewrite rdiv_truthy by (by apply truthy_true); done.
Qed.

Lemma p_pool_swap k1 n1 k2 n2 : p_pool k2 n2 k1 n1 = p_pool k1 n1 k2 n2.
Proof. unfold p_pool. by rewrite (Rplus_comm n2 n1), (Rplus_comm k2 k1). Qed.

Lemma pooled_variance_swap k1 n1 k2 n2 :
  pooled_variance k2 n2 k1 n1 = pooled_variance k1 n1 k2 n2.
Proof.
  unfold pooled_variance. rewrite p_pool_swap.
  by rewrite (Rplus_comm (1 / n2)).
Qed.

Lemma standard_error_swap k1 n1 k2 n2 :
  standard_error k2 n2 k1 n1 = standard_error k1 n1 k2 n2.
Proof.
  unfold standard_error.
  by rewrite pooled_variance_swap, (andb_comm (truthy n2)).
Qed.

Lemma ztest_value_swap k1 n1 k2 n2 :
  ztest_value k2 n2 k1 n1 = negate_z (ztest_value k1 n1 k2 n2).
Proof.
  unfold ztest_value, negate_z. rewrite standard_error_swap.
  destruct (standard_error k1 n1 k2 n2) as [se|]; [|done].
  destruct (Req_dec_T se 0) as [|Hse]; [done|]. simpl.
  replace ((k2 / n2 - k1 / n1) / se) with (- ((k1 / n1 - k2 / n2) / se))
    by (unfold Rdiv; ring).
  by rewrite Rabs_Ropp.
Qed.

Lemma np_sqrt_None x : np_sqrt x = None ↔ x < 0.
Proof. unfold np_sqrt. destruct (Rlt_dec x 0); split; intros; done. Qed.

Lemma np_sqrt_zero x : np_sqrt x = Some 0 ↔ x = 0.
Proof.
  unfold np_sqrt. destruct (Rlt_dec x 0) as [Hx|Hx]; split; intros Hs; try done.
  - lra.
  - injection Hs as Hs. apply sqrt_eq_0 in Hs; lra.
  - subst. by rewrite sqrt_0.
Qed.

Lemma standard_error_degenerate k1 n1 k2 n2 :
  standard_error k1 n1 k2 n2 = Some 0 ∨ standard_error k1 n1 k2 n2 = None
  ↔ n1 = 0 ∨ n2 = 0 ∨ pooled_variance k1 n1 k2 n2 <= 0.
Proof.
  unfold standard_error.
  destruct (truthy n1) eqn:H1; destruct (truthy n2) eqn:H2; simpl;
    rewrite ?truthy_true, ?truthy_false in *;
    rewrite ?np_sqrt_None, ?np_sqrt_zero; intuition (try lra; try done).
Qed.

Lemma ztest_value_inapplicable k1 n1 k2 n2 :
  ztest_value k1 n1 k2 n2 = inapplicable
  ↔ standard_error k1 n1 k2 n2 = Some 0 ∨ standard_error k1 n1 k2 n2 = None.
Proof.
  unfold ztest_value.
  destruct (standard_error k1 n1 k2 n2) as [se|]; [|by intuition].
  destruct (Req_dec_T se 0) as [->|Hse]; [by intuition|].
  split; [done|]. intros [[=]|[=]]. done.
Qed.

(** C3. Swapping the two samples leaves the p-value as it is and flips the
    sign of z; where the test does not apply, it does not apply after the
    swap either. *)
Theorem two_prop_ztest_swap k1 n1 k2 n2 :
  two_prop_ztest k2 n2 k1 n1 = negate_z <$> two_prop_ztest k1 n1 k2 n2.
Proof. by rewrite !two_prop_ztest_value, ztest_value_swap. Qed.

(** C4. The test never raises.  It reports the inapplicable pair exactly when
    a sample size is 0 or the standard error is 0 or NaN, which is exactly when
    a sample size is 0 or the pooled variance is not positive (a pooled
    proportion of 0 or 1 among the cases); otherwise it reports
    z = (k1/n1 - k2/n2) / se and the p-value 2 * sf(|z|). *)
Theorem two_prop_ztest_inapplicable_iff k1 n1 k2 n2 :
  ∃ r, two_prop_ztest k1 n1 k2 n2 = Ok r
    ∧ (r = inapplicable ↔
         n1 = 0 ∨ n2 = 0 ∨ standard_error k1 n1 k2 n2 = Some 0
         ∨ standard_error k1 n1 k2 n2 = None)
    ∧ (r = inapplicable ↔ n1 = 0 ∨ n2 = 0 ∨ pooled_variance k1 n1 k2 n2 <= 0)
    ∧ (p_pool k1 n1 k2 n2 = 0 ∨ p_pool k1 n1 k2 n2 = 1 → r = inapplicable)
    ∧ (r = inapplicable
       ∨ ∃ se, standard_error k1 n1 k2 n2 = Some se ∧ se ≠ 0
           ∧ se * se = pooled_variance k1 n1 k2 n2
           ∧ r = (Some ((k1 / n1 - k2 / n2) / se),
                  Some (2 * norm_sf (Rabs ((k1 / n1 - k2 / n2) / se))))).
Proof.
  exists (ztest_value k1 n1 k2 n2). split; [apply two_prop_ztest_value|].
  assert (ztest_value k1 n1 k2 n2 = inapplicable
          ↔ n1 = 0 ∨ n2 = 0 ∨ pooled_variance k1 n1 k2 n2 <= 0) as Hiff
    by (rewrite ztest_value_inapplicable; apply standard_error_degenerate).
  split; [|split; [done|split]].
  - rewrite Hiff. split.
    + intros Hd. apply standard_error_degenerate in Hd. tauto.
    + intros [Hn|[Hn|Hse]]; [by left|by right; left|].
      by apply standard_error_degenerate.
  - intros Hp. apply Hiff. do 2 right. unfold pooled_variance.
    destruct Hp as [-> | ->]; lra.
  - unfold ztest_value.
    destruct (standard_error k1 n1 k2 n2) as [se|] eqn:Hse; [|by left].
    destruct (Req_dec_T se 0) as [|Hne]; [by left|]. right.
    exists se. split_and!; try done.
    unfold standard_error in Hse.
    destruct (truthy n1 && truthy n2); [|done].
    unfold np_sqrt in Hse.
    destruct (Rlt_dec (pooled_variance k1 n1 k2 n2) 0) as [|Hge]; [done|].
    injection Hse as <-. apply sqrt_sqrt. lra.
Qed.
End ZTestFacts.


(** ** Cells, keys and counting *)

Lemma cell_eqb_sym a b : cell_eqb a b = cell_eqb b a.
Proof.
  destruct a as [s|p|], b as [t|q|]; simpl; try done.
  - apply String.eqb_sym.
  - apply eq_true_iff_eq. rewrite !Qeq_bool_iff. split; intros Hq; by symmetry.
Qed.

Lemma cell_eqb_refl a : notna a = true → cell_eqb a a = true.
Proof.
  destruct a as [s|p|]; simpl; try done; intros _.
  - apply String.eqb_refl.
  - by apply Qeq_bool_iff.
Qed.

Lemma cell_eqb_trans a b c :
  cell_eqb a b = true → cell_eqb b c = true → cell_eqb a c = true.
Proof.
  destruct a as [s|p|], b as [t|q|], c as [u|r|]; simpl; try done.
  - rewrite !String.eqb_eq. congruence.
  - rewrite !Qeq_bool_iff. intros -> ->. done.
Qed.

Lemma cell_eqb_notna a b : cell_eqb a b = true → notna a = true ∧ notna b = true.
Proof. destruct a, b; simpl; try done. Qed.

Lemma cell_eqb_congr_l a b c :
  cell_eqb a b = true → cell_eqb a c = cell_eqb b c.
Proof.
  intros Hab. destruct (cell_eqb b c) eqn:Hbc.
  - by eapply cell_eqb_trans.
  - destruct (cell_eqb a c) eqn:Hac; [|done].
    rewrite <- Hbc. symmetry. eapply cell_eqb_trans; [|done].
    by rewrite cell_eqb_sym.
Qed.

Lemma filter_length_le {A} (p : A → bool) l : (length (List.filter p l) ≤ length l)%nat.
Proof. induction l as [|x l IH]; simpl; [lia|]. destruct (p x); simpl; lia. Qed.

Lemma filter_filter_comm {A} (p q : A → bool) l :
  List.filter p (List.filter q l) = List.filter q (List.filter p l).
Proof.
  induction l as [|x l IH]; simpl; [done|].
  destruct (p x) eqn:Hp, (q x) eqn:Hq; simpl; rewrite ?Hp, ?Hq, IH; done.
Qed.

Lemma filter_Permutation_bool {A} (p : A → bool) l l' :
  l ≡ₚ l' → List.filter p l ≡ₚ List.filter p l'.
Proof.
  induction 1 as [|x l l' _ IH|x y l|l l' l'' _ IH1 _ IH2]; simpl.
  - done.
  - destruct (p x); by rewrite IH.
  - destruct (p x), (p y); try done. apply perm_swap.
  - by rewrite IH1.
Qed.

Lemma nmatch_Permutation c ks ks' : ks ≡ₚ ks' → nmatch c ks = nmatch c ks'.
Proof. intros Hp. unfold nmatch. by rewrite (filter_Permutation_bool _ _ _ Hp). Qed.

Lemma nmatch_filter_other c a l :
  cell_eqb c a = false →
  nmatch c (List.filter (λ d, cell_neqb d a) l) = nmatch c l.
Proof.
  intros Hca. unfold nmatch. rewrite filter_filter_comm.
  f_equal. induction l as [|d l IH]; simpl; [done|].
  destruct (cell_eqb c d) eqn:Hcd; simpl; [|done].
  unfold cell_neqb at 1. rewrite <- (cell_eqb_congr_l c d a Hcd), Hca.
  simpl. by f_equal.
Qed.

Lemma nmatch_filter_same c a l :
  cell_eqb c a = true →
  nmatch c (List.filter (λ d, cell_neqb d a) l) = 0%nat.
Proof.
  intros Hca. unfold nmatch. rewrite filter_filter_comm.
  induction l as [|d l IH]; simpl; [done|].
  destruct (cell_eqb c d) eqn:Hcd; simpl; [|done].
  unfold cell_neqb at 1. rewrite <- (cell_eqb_congr_l c d a Hcd), Hca.
  done.
Qed.

(* a value present in a column is listed once among its distinct values *)
Lemma nmatch_unique c l :
  nmatch c (unique l) = if existsb (cell_eqb c) l then 1%nat else 0%nat.
Proof.
  induction l as [|a l IH]; simpl; [done|].
  unfold nmatch in *. simpl.
  destruct (cell_eqb c a) eqn:Hca; simpl.
  - f_equal. by apply nmatch_filter_same.
  - rewrite <- IH. by apply nmatch_filter_other.
Qed.

Lemma existsb_dropna c l :
  existsb (cell_eqb c) (dropna l) = existsb (cell_eqb c) l.
Proof.
  induction l as [|a l IH]; simpl; [done|].
  destruct a; simpl; rewrite ?IH; try done.
  by destruct c.
Qed.

Lemma sort_keys_Permutation l : sort_keys l ≡ₚ l.
Proof. apply merge_sort_Permutation. Qed.

Lemma nmatch_groupby_keys c l :
  nmatch c (groupby_keys l) = if existsb (cell_eqb c) l then 1%nat else 0%nat.
Proof.
  unfold groupby_keys.
  by rewrite (nmatch_Permutation _ _ _ (sort_keys_Permutation _)), nmatch_unique,
    existsb_dropna.
Qed.

Lemma existsb_self c l : c ∈ l → notna c = true → existsb (cell_eqb c) l = true.
Proof.
  intros Hin Hc. apply existsb_exists. exists c. split.
  - by apply list_elem_of_In.
  - by apply cell_eqb_refl.
Qed.


(** ** Sums *)

Lemma sumQ_app l l' : (sumQ (l ++ l') == sumQ l + sumQ l')%Q.
Proof.
  induction l as [|x l IH]; simpl.
  - by rewrite Qplus_0_l.
  - rewrite IH. by rewrite Qplus_assoc.
Qed.


Lemma sumQ_map_add {A} (f g : A → Q) l :
  (sumQ (map (λ x, f x + g x) l) == sumQ (map f l) + sumQ (map g l))%Q.
Proof.
  induction l as [|x l IH]; simpl; [done|]. rewrite IH. ring.
Qed.

Lemma sumQ_map_ext {A} (f g : A → Q) l :
  (∀ x, x ∈ l → (f x == g x)%Q) → (sumQ (map f l) == sumQ (map g l))%Q.
Proof.
  induction l as [|x l IH]; simpl; intros Hfg; [done|].
  rewrite (Hfg x) by left. rewrite IH; [done|].
  intros y Hy. apply Hfg. by right.
Qed.

Lemma sumQ_map_zero {A} (l : list A) : (sumQ (map (λ _, 0) l) == 0)%Q.
Proof. induction l as [|x l IH]; simpl; [done|]. rewrite IH. ring. Qed.

Lemma sumQ_filter {A} (p : A → bool) (f : A → Q) l :
  (sumQ (map f (List.filter p l)) == sumQ (map (λ x, if p x then f x else 0) l))%Q.
Proof.
  induction l as [|x l IH]; simpl; [done|].
  destruct (p x); simpl; rewrite IH; ring.
Qed.

Lemma sumQ_filter_split {A} (p : A → bool) (f : A → Q) l :
  (sumQ (map f (List.filter p l)) + sumQ (map f (List.filter (λ x, negb (p x)) l))
   == sumQ (map f l))%Q.
Proof.
  induction l as [|x l IH]; simpl; [done|].
  destruct (p x); simpl; rewrite <- IH; ring.
Qed.

(* summing group by group counts every row once per key that equals its own *)
Lemma sumQ_by_key {A} (key : A → Cell) (f : A → Q) l ks :
  (sumQ (map (λ k, sumQ (map f (List.filter (λ x, cell_eqb (key x) k) l))) ks)
   == sumQ (map (λ x, inject_Z (Z.of_nat (nmatch (key x) ks)) * f x) l))%Q.
Proof.
  induction ks as [|k ks IH]; simpl.
  - symmetry. rewrite <- (sumQ_map_zero l). apply sumQ_map_ext.
    intros x _. unfold nmatch. simpl. ring.
  - rewrite IH, sumQ_filter, <- sumQ_map_add.
    apply sumQ_map_ext. intros x _. unfold nmatch. simpl.
    destruct (cell_eqb (key x) k); simpl length; [|ring].
    rewrite Nat2Z.inj_succ, <- Z.add_1_l, inject_Z_plus. ring.
Qed.

(* the groups of groupby partition the rows whose key is present *)
Lemma sumQ_groupby {A} (key : A → Cell) (f : A → Q) l :
  (sumQ (map (λ k, sumQ (map f (List.filter (λ x, cell_eqb (key x) k) l)))
          (groupby_keys (map key l)))
   == sumQ (map f (List.filter (λ x, notna (key x)) l)))%Q.
Proof.
  rewrite sumQ_by_key, sumQ_filter. apply sumQ_map_ext.
  intros x Hx. rewrite nmatch_groupby_keys.
  destruct (notna (key x)) eqn:Hk.
  - rewrite existsb_self; [simpl; ring| |done].
    apply list_elem_of_fmap. by exists x.
  - replace (existsb _ _) with false; [simpl; ring|].
    symmetry. apply not_true_is_false. intros Hex.
    apply existsb_exists in Hex as (d & _ & Hd).
    apply cell_eqb_notna in Hd as [Hd _]. congruence.
Qed.

Lemma sum_cells_value l s : sum_cells l = Ok s → (s == sumQ (map cell_value l))%Q.
Proof.
  revert s. induction l as [|c l IH]; simpl; intros s Hs.
  - by injection Hs as <-.
  - destruct c as [t|q|]; simpl in Hs; [done| |];
      destruct (sum_cells l) as [s'|] eqn:Hl; simpl in Hs; try done;
      injection Hs as <-; rewrite (IH s' eq_refl); simpl; ring.
Qed.



(** ** The monads *)

Lemma Res_bind_Ok {A B} (m : Res A) (f : A → Res B) b :
  m ≫= f = Ok b ↔ ∃ a, m = Ok a ∧ f a = Ok b.
Proof.
  destruct m as [a|e]; simpl; split.
  - intros Hf. by exists a.
  - by intros (a' & [= ->] & Hf).
  - done.
  - by intros (a' & [=] & _).
Qed.

Lemma Res_fmap_Ok {A B} (m : Res A) (f : A → B) b :
  f <$> m = Ok b ↔ ∃ a, m = Ok a ∧ b = f a.
Proof.
  destruct m as [a|e]; simpl; split.
  - intros [= <-]. by exists a.
  - by intros (a' & [= ->] & ->).
  - done.
  - by intros (a' & [=] & _).
Qed.

Lemma mapM_Res_Ok {A B} (f : A → Res B) l ys :
  mapM f l = Ok ys ↔ Forall2 (λ x y, f x = Ok y) l ys.
Proof.
  revert ys. induction l as [|x l IH]; intros ys; simpl.
  - split; [intros [= <-]; constructor|by inversion 1].
  - split.
    + intros Hm. apply Res_bind_Ok in Hm as (y & Hy & Hm).
      apply Res_bind_Ok in Hm as (k & Hk & [= <-]).
      constructor; [done|]. by apply IH.
    + inversion 1 as [|? y ? k Hy Hk]; subst.
      apply IH in Hk. by rewrite Hy, Hk.
Qed.

Lemma M_bind_Ok {A B} (m : M A) (f : A → M B) b log :
  m ≫= f = (Ok b, log) ↔
  ∃ a l1 l2, m = (Ok a, l1) ∧ f a = (Ok b, l2) ∧ log = l1 ++ l2.
Proof.
  destruct m as [[a|e] l1]; simpl; split.
  - destruct (f a) as [r l2] eqn:Hf. intros [= -> <-]. by exists a, l1, l2.
  - intros (a' & l1' & l2 & [= -> ->] & -> & ->). done.
  - done.
  - by intros (a' & l1' & l2 & [=] & _).
Qed.

Lemma M_lift_bind {A B} (r : Res A) (f : A → M B) :
  lift r ≫= f = match r with Ok a => f a | Raise e => (Raise e, []) end.
Proof. destruct r as [a|e]; simpl; [|done]. by destruct (f a). Qed.

Lemma M_bind_log {A B} (m : M A) (f : A → M B) :
  ∃ l2, (m ≫= f).2 = m.2 ++ l2
        ∧ (l2 = [] ∨ ∃ a, m.1 = Ok a ∧ l2 = (f a).2).
Proof.
  destruct m as [[a|e] l1]; simpl.
  - destruct (f a) as [r l2] eqn:Hf. exists l2. split; [done|].
    right. exists a. by rewrite Hf.
  - exists []. by rewrite app_nil_r; auto.
Qed.

Lemma logs_ret {A} P (a : A) : logs P (mret a : M A).
Proof. constructor. Qed.

Lemma logs_lift {A} P (r : Res A) : logs P (lift r).
Proof. constructor. Qed.

Lemma logs_bind {A B} P (m : M A) (f : A → M B) :
  logs P m → (∀ a, m.1 = Ok a → logs P (f a)) → logs P (m ≫= f).
Proof.
  unfold logs. intros Hm Hf.
  destruct (M_bind_log m f) as (l2 & -> & [->|(a & Ha & ->)]).
  - by rewrite app_nil_r.
  - apply Forall_app. split; [done|]. by apply Hf.
Qed.

Lemma logs_mapM {A B} P (f : A → M B) l :
  (∀ x, x ∈ l → logs P (f x)) → logs P (mapM f l).
Proof.
  induction l as [|x l IH]; intros Hf; simpl.
  - apply logs_ret.
  - apply logs_bind; [apply Hf; left|]. intros y _.
    apply logs_bind; [apply IH; intros; apply Hf; by right|].
    intros k _. apply logs_ret.
Qed.

Lemma logs_print P items : P (Print items) → logs P (print items).
Proof. intros HP. by constructor. Qed.

(* a successful mapM ran every element, and logged what each logged *)
Lemma mapM_M_Ok {A B} (f : A → M B) l ys log :
  mapM f l = (Ok ys, log) →
  Forall2 (λ x y, ∃ lg, f x = (Ok y, lg) ∧ lg ⊆ log) l ys.
Proof.
  revert ys log. induction l as [|x l IH]; intros ys log; simpl.
  - intros [= <- <-]. constructor.
  - intros Hm. apply M_bind_Ok in Hm as (y & l1 & l2 & Hy & Hm & ->).
    apply M_bind_Ok in Hm as (k & l3 & l4 & Hk & [= <- <-] & ->).
    constructor; [exists l1; split; [done|set_solver]|].
    eapply Forall2_impl; [by eapply IH|]. simpl.
    intros x' y' (lg & Hx' & Hlg). exists lg. split; [done|set_solver].
Qed.

Lemma mapM_M_total {A B} (f : A → M B) l :
  (∀ x, x ∈ l → ∃ y lg, f x = (Ok y, lg)) →
  ∃ ys log, mapM f l = (Ok ys, log).
Proof.
  induction l as [|x l IH]; intros Hf; simpl.
  - by eexists _, _.
  - destruct (Hf x) as (y & lg & Hy); [left|].
    destruct IH as (ys & log & Hys); [intros; apply Hf; by right|].
    rewrite Hy. simpl. rewrite Hys. simpl. by eexists _, _.
Qed.


(** ** The grouping step *)

Lemma getcol_Ok df c l :
  getcol df c = Ok l ↔ has_column df c = true ∧ l = map (λ r, cell r c) (rows df).
Proof.
  unfold getcol. destruct (has_column df c); split; try done.
  - intros [= <-]. done.
  - intros [_ ->]. done.
  - by intros [? _].
Qed.

Lemma getcol_select p df c : 
  getcol (select_rows p df) c =
  if has_column df c then Ok (map (λ r, cell r c) (List.filter p (rows df)))
  else Raise (KeyError c).
Proof. done. Qed.

Lemma column_total_select p df col s :
  column_total (select_rows p df) col = Ok s →
  (s == sumQ (map (col_value col) (List.filter p (rows df))))%Q.
Proof.
  unfold column_total. rewrite getcol_select.
  destruct (has_column df col); [|done]. simpl. intros Hs.
  apply sum_cells_value in Hs. by rewrite map_map in Hs.
Qed.



Lemma agg_group_inv df group_col name row :
  agg_group df group_col name = Ok row →
  g_key row = name
  ∧ policies_of df (group_rows df group_col name) = Ok (g_policies row)
  ∧ column_total (group_rows df group_col name) "TotalPremium" = Ok (g_total_premium row)
  ∧ column_total (group_rows df group_col name) "TotalClaims" = Ok (g_total_claims row)
  ∧ column_total (group_rows df group_col name) "ClaimOccurred" = Ok (g_claims_count row).
Proof.
  unfold agg_group. intros Ha.
  apply Res_bind_Ok in Ha as (n & Hn & Ha).
  apply Res_bind_Ok in Ha as (tp & Htp & Ha).
  apply Res_bind_Ok in Ha as (tc & Htc & Ha).
  apply Res_bind_Ok in Ha as (k & Hk & [= <-]).
  done.
Qed.

Lemma groupby_agg_inv df group_col grp :
  groupby_agg df group_col = Ok grp →
  has_column df group_col = true
  ∧ Forall2 (λ name row, agg_group df group_col name = Ok row)
      (groupby_keys (map (λ r, cell r group_col) (rows df))) grp.
Proof.
  unfold groupby_agg. intros Hg.
  apply Res_bind_Ok in Hg as (keys & Hkeys & Hg).
  apply Res_bind_Ok in Hg as (? & _ & Hg).
  apply Res_bind_Ok in Hg as (? & _ & Hg).
  apply Res_bind_Ok in Hg as (? & _ & Hg).
  apply Res_bind_Ok in Hg as (? & _ & Hg).
  apply getcol_Ok in Hkeys as [Hc ->].
  split; [done|]. by apply mapM_Res_Ok.
Qed.

Lemma Forall2_sumQ {A B} (f : A → Q) (g : B → Q) l l' :
  Forall2 (λ x y, (f x == g y)%Q) l l' → (sumQ (map f l) == sumQ (map g l'))%Q.
Proof. induction 1 as [|x y l l' Hxy _ IH]; simpl; [done|]. by rewrite Hxy, IH. Qed.

(* the per-group sums of a column add up to its sum over the rows whose key
   is present *)
Lemma groups_total df group_col grp (proj : GroupRow → Q) col :
  groupby_agg df group_col = Ok grp →
  (∀ name row, agg_group df group_col name = Ok row →
     column_total (group_rows df group_col name) col = Ok (proj row)) →
  (sumQ (map proj grp)
   == sumQ (map (col_value col)
        (List.filter (λ r, notna (cell r group_col)) (rows df))))%Q.
Proof.
  intros Hg Hproj. apply groupby_agg_inv in Hg as [_ Hg].
  rewrite <- (sumQ_groupby (λ r, cell r group_col) (col_value col) (rows df)).
  symmetry. apply Forall2_sumQ.
  eapply Forall2_impl; [exact Hg|]. simpl. intros name row Ha.
  apply Hproj in Ha. apply column_total_select in Ha. by rewrite Ha.
Qed.

Lemma groupby_agg_length df group_col grp :
  groupby_agg df group_col = Ok grp →
  length grp = length (groupby_keys (map (λ r, cell r group_col) (rows df))).
Proof. intros Hg. apply groupby_agg_inv in Hg as [_ Hg]. symmetry. by eapply Forall2_length. Qed.

Lemma insert_desc_Permutation {A} (key : A → Z) x l : insert_desc key x l ≡ₚ x :: l.
Proof.
  induction l as [|y l IH]; simpl; [done|].
  destruct (key x <? key y); [|done].
  rewrite IH. apply perm_swap.
Qed.

Lemma sort_desc_Permutation {A} (key : A → Z) l : sort_desc key l ≡ₚ l.
Proof.
  induction l as [|x l IH]; simpl; [done|].
  by rewrite insert_desc_Permutation, IH.
Qed.

Lemma head_n_sublist {A} n (l : list A) : head_n n l `sublist_of` l.
Proof. unfold head_n. destruct (0 <=? n); apply sublist_take. Qed.

Lemma keep_top_subseteq top_n grp : keep_top top_n grp ⊆ grp.
Proof.
  destruct top_n as [n|]; simpl; [|done].
  destruct (n =? 0); [done|].
  intros g Hg. apply (sublist_subseteq _ _ (head_n_sublist _ _)) in Hg.
  by rewrite sort_desc_Permutation in Hg.
Qed.

Lemma keep_top_all df group_col top_n grp :
  groupby_agg df group_col = Ok grp →
  cap_keeps_all df group_col top_n →
  keep_top top_n grp ≡ₚ grp.
Proof.
  intros Hg Hcap. apply groupby_agg_length in Hg.
  destruct top_n as [n|]; simpl in *; [|done].
  destruct (n =? 0) eqn:Hn; [done|].
  destruct Hcap as [->|Hle]; [done|].
  unfold head_n, n_groups in *.
  destruct (0 <=? n) eqn:H0; [|lia].
  rewrite take_ge; [apply sort_desc_Permutation|].
  rewrite (Permutation_length (sort_desc_Permutation _ _)). lia.
Qed.


(** ** The loop body *)


Section SummarizeFacts.
Context `{SciPy}.

Lemma qdiv_guarded a b : Qeq_bool b 0 = false → qdiv a b = Ok (a / b)%Q.
Proof. unfold qdiv. by intros ->. Qed.

Lemma loss_ratio_never_raises tc tp :
  (if Qeq_bool tp 0 then mret None else Some <$> qdiv tc tp) = Ok (loss_ratio_of tc tp).
Proof.
  unfold loss_ratio_of. destruct (Qeq_bool tp 0) eqn:Htp; [done|].
  by rewrite qdiv_guarded.
Qed.

Lemma claim_freq_never_raises k n :
  (if n =? 0 then mret None else Some <$> qdiv k (inject_Z n)) = Ok (claim_freq_of k n).
Proof.
  unfold claim_freq_of. destruct (n =? 0) eqn:Hn; [done|].
  rewrite qdiv_guarded; [done|].
  apply not_true_is_false. rewrite Qeq_bool_iff. unfold Qeq. simpl. lia.
Qed.

Lemma freq_test_never_raises op oc row :
  (if 0 <? rest_n op row
   then two_prop_ztest (Q2R (g_claims_count row)) (IZR (g_policies row))
          (Q2R (rest_k oc row)) (IZR (rest_n op row))
   else mret (None, None)) = Ok (freq_test op oc row).
Proof.
  unfold freq_test. destruct (0 <? rest_n op row); [|done].
  apply two_prop_ztest_value.
Qed.

Lemma severity_test_Ok sg sr : ∃ us, (severity_test sg sr).1 = Ok us.
Proof.
  unfold severity_test.
  destruct (_ && _); [|by eexists].
  unfold call_mannwhitneyu, try_except. simpl.
  destruct (mannwhitneyu sg sr); simpl; by eexists.
Qed.

Lemma summarize_row_eq df group_col op oc row :
  summarize_row df group_col op oc row = summarize_row_value df group_col op oc row.
Proof.
  unfold summarize_row, summarize_row_value.
  rewrite loss_ratio_never_raises, claim_freq_never_raises, freq_test_never_raises.
  rewrite !M_lift_bind.
  destruct (s_group df group_col (g_key row)) as [sg|e]; [|done].
  rewrite M_lift_bind.
  destruct (s_rest df group_col (g_key row)) as [sr|e]; [|done].
  destruct (severity_test_Ok sg sr) as [us Hus].
  destruct (severity_test sg sr) as [r lg]. simpl in *. subst r.
  simpl. by rewrite app_nil_r.
Qed.

Lemma severity_samples_defined df group_col name :
  has_column df "ClaimSeverity" = true →
  ∃ sg sr, s_group df group_col name = Ok sg ∧ s_rest df group_col name = Ok sr.
Proof.
  intros Hc. unfold s_group, s_rest, group_rows, rest_rows.
  rewrite !getcol_select, Hc. simpl. by eexists _, _.
Qed.

Lemma severity_samples_column df group_col name sg :
  s_group df group_col name = Ok sg → has_column df "ClaimSeverity" = true.
Proof.
  unfold s_group, group_rows. rewrite getcol_select.
  by destruct (has_column df "ClaimSeverity").
Qed.

Lemma summarize_row_inv df group_col op oc row r lg :
  summarize_row df group_col op oc row = (Ok r, lg) →
  ∃ sg sr us,
    s_group df group_col (g_key row) = Ok sg
    ∧ s_rest df group_col (g_key row) = Ok sr
    ∧ severity_test sg sr = (Ok us, lg)
    ∧ r = summary_row op oc row us.
Proof.
  rewrite summarize_row_eq. unfold summarize_row_value.
  destruct (s_group df group_col (g_key row)) as [sg|e]; [|done].
  destruct (s_rest df group_col (g_key row)) as [sr|e]; [|done].
  destruct (severity_test sg sr) as [[us|e] lg'] eqn:Hs; simpl; [|done].
  intros [= <- <-]. by exists sg, sr, us.
Qed.

Lemma summarize_row_total df group_col op oc row :
  has_column df "ClaimSeverity" = true →
  ∃ r lg, summarize_row df group_col op oc row = (Ok r, lg).
Proof.
  intros Hc. rewrite summarize_row_eq. unfold summarize_row_value.
  destruct (severity_samples_defined df group_col (g_key row) Hc) as (sg & sr & -> & ->).
  destruct (severity_test_Ok sg sr) as [us Hus]. rewrite Hus. simpl.
  by eexists _, _.
Qed.

Lemma mapM_M_ext {A B} (f g : A → M B) l :
  (∀ x, f x = g x) → mapM f l = mapM g l.
Proof. intros Hfg. induction l as [|x l IH]; simpl; [done|]. by rewrite Hfg, IH. Qed.

Lemma summarize_group_eq df group_col top_n :
  summarize_group df group_col top_n = summarize_group_value df group_col top_n.
Proof.
  unfold summarize_group, summarize_group_value.
  destruct (groupby_agg df group_col) as [grp|e]; [|done]. simpl.
  rewrite (mapM_M_ext _ _ _ (summarize_row_eq df group_col _ _)). done.
Qed.

Lemma summarize_group_inv df group_col top_n out log :
  summarize_group df group_col top_n = (Ok out, log) →
  ∃ grp results,
    groupby_agg df group_col = Ok grp
    ∧ Forall2 (λ g r, ∃ lg,
        summarize_row df group_col (sumZ (map g_policies grp))
          (sumQ (map g_claims_count grp)) g = (Ok r, lg) ∧ lg ⊆ log)
        (keep_top top_n grp) results
    ∧ results ≠ []
    ∧ out = sort_desc policies results.
Proof.
  unfold summarize_group. rewrite M_lift_bind.
  destruct (groupby_agg df group_col) as [grp|e]; [|done].
  intros Hs. apply M_bind_Ok in Hs as (results & l1 & l2 & Hm & Hf & ->).
  exists grp, results. split; [done|].
  split.
  { eapply Forall2_impl; [by eapply mapM_M_Ok|]. simpl.
    intros g r (lg & Hrow & Hlg). exists lg. split; [done|set_solver]. }
  destruct results as [|r results]; simpl in Hf; [done|].
  injection Hf as <- <-. done.
Qed.

(* each emitted row carries the sums of one retained group *)
Lemma summarize_group_rows df group_col top_n out log :
  summarize_group df group_col top_n = (Ok out, log) →
  ∃ grp results,
    groupby_agg df group_col = Ok grp
    ∧ out ≡ₚ results
    ∧ Forall2 (λ g r, ∃ us,
        r = summary_row (sumZ (map g_policies grp)) (sumQ (map g_claims_count grp)) g us)
        (keep_top top_n grp) results.
Proof.
  intros Hs. apply summarize_group_inv in Hs as (grp & results & Hg & Hr & _ & ->).
  exists grp, results. split; [done|]. split; [apply sort_desc_Permutation|].
  eapply Forall2_impl; [exact Hr|]. simpl.
  intros g r (lg & Hrow & _).
  apply summarize_row_inv in Hrow as (sg & sr & us & _ & _ & _ & ->).
  by exists us.
Qed.
End SummarizeFacts.


(** ** Conservation of totals *)

Section Conservation.
Context `{SciPy}.

End Conservation.





(** ** Claim frequency and loss ratio *)

Lemma Forall2_elem_of_r {A B} (P : A → B → Prop) l k y :
  Forall2 P l k → y ∈ k → ∃ x, x ∈ l ∧ P x y.
Proof.
  induction 1 as [|x y' l k Hxy _ IH]; intros Hy; [by apply elem_of_nil in Hy|].
  apply elem_of_cons in Hy as [->|Hy].
  - exists x. split; [left|done].
  - destruct (IH Hy) as (x' & Hx' & HP). exists x'. split; [by right|done].
Qed.

Lemma Forall2_elem_of_l {A B} (P : A → B → Prop) l k x :
  Forall2 P l k → x ∈ l → ∃ y, y ∈ k ∧ P x y.
Proof.
  induction 1 as [|x' y l k Hxy _ IH]; intros Hx; [by apply elem_of_nil in Hx|].
  apply elem_of_cons in Hx as [->|Hx].
  - exists y. split; [left|done].
  - destruct (IH Hx) as (y' & Hy' & HP). exists y'. split; [by right|done].
Qed.

Lemma unique_subseteq l : unique l ⊆ l.
Proof.
  induction l as [|c l IH]; simpl; [done|].
  intros d Hd. apply elem_of_cons in Hd as [->|Hd]; [left|right].
  apply list_elem_of_In, filter_In in Hd as [Hd _].
  apply IH. by apply list_elem_of_In.
Qed.

Lemma groupby_keys_elem name keys :
  name ∈ groupby_keys keys → name ∈ keys ∧ notna name = true.
Proof.
  unfold groupby_keys. rewrite sort_keys_Permutation. intros Hn.
  apply unique_subseteq in Hn. unfold dropna in Hn.
  apply list_elem_of_In, filter_In in Hn as [Hn Hna].
  split; [by apply list_elem_of_In|done].
Qed.

(* a group that groupby forms has a row *)
Lemma group_nonempty df group_col name :
  name ∈ groupby_keys (map (λ r, cell r group_col) (rows df)) →
  rows (group_rows df group_col name) ≠ [].
Proof.
  intros Hn. apply groupby_keys_elem in Hn as [Hn Hna].
  apply list_elem_of_fmap in Hn as (r & -> & Hr).
  simpl. intros Hnil.
  assert (r ∈ List.filter (λ r0, cell_eqb (cell r0 group_col) (cell r group_col)) (rows df)) as Hin.
  { apply list_elem_of_In, filter_In. split; [by apply list_elem_of_In|].
    by apply cell_eqb_refl. }
  rewrite Hnil in Hin. by apply elem_of_nil in Hin.
Qed.

Section Rows.
Context `{SciPy}.

(* every emitted row is the row of one group that groupby formed *)
Lemma summarize_group_row df group_col top_n out log r :
  summarize_group df group_col top_n = (Ok out, log) →
  r ∈ out →
  ∃ grp g us,
    groupby_agg df group_col = Ok grp
    ∧ g ∈ keep_top top_n grp
    ∧ g_key g ∈ groupby_keys (map (λ r, cell r group_col) (rows df))
    ∧ agg_group df group_col (g_key g) = Ok g
    ∧ r = summary_row (sumZ (map g_policies grp)) (sumQ (map g_claims_count grp)) g us.
Proof.
  intros Hs Hr.
  apply summarize_group_rows in Hs as (grp & results & Hg & Hperm & Hrows).
  rewrite Hperm in Hr.
  destruct (Forall2_elem_of_r _ _ _ _ Hrows Hr) as (g & Hgin & us & ->).
  exists grp, g, us. split_and!; try done.
  - apply keep_top_subseteq in Hgin.
    apply groupby_agg_inv in Hg as [_ Hg].
    destruct (Forall2_elem_of_r _ _ _ _ Hg Hgin) as (name & Hname & Ha).
    pose proof Ha as Ha'. apply agg_group_inv in Ha' as (-> & _). done.
  - apply keep_top_subseteq in Hgin.
    apply groupby_agg_inv in Hg as [_ Hg].
    destruct (Forall2_elem_of_r _ _ _ _ Hg Hgin) as (name & Hname & Ha).
    pose proof Ha as Ha'. apply agg_group_inv in Ha' as (-> & _). done.
Qed.
End Rows.

Lemma indicator_sum_bounds (l : list (gmap string Cell)) :
  Forall (λ r, cell r "ClaimOccurred" = Num 0 ∨ cell r "ClaimOccurred" = Num 1) l →
  (0 <= sumQ (map (col_value "ClaimOccurred") l))%Q
  ∧ (sumQ (map (col_value "ClaimOccurred") l)
     <= inject_Z (count (map (λ r, cell r "ClaimOccurred") l)))%Q.
Proof.
  unfold count. induction 1 as [|r l Hr _ [IH0 IH1]]; simpl; [done|].
  unfold col_value at 1 3.
  destruct Hr as [-> | ->]; simpl;
    rewrite Nat2Z.inj_succ, <- Z.add_1_l, inject_Z_plus.
  - split.
    + by rewrite Qplus_0_l.
    + apply Qplus_le_compat; [unfold Qle; simpl; lia|done].
  - split.
    + replace 0%Q with (0 + 0)%Q by done.
      apply Qplus_le_compat; [unfold Qle; simpl; lia|done].
    + apply Qplus_le_compat; [unfold Qle; simpl; lia|done].
Qed.

Lemma indicator_count_rows (l : list (gmap string Cell)) :
  Forall (λ r, cell r "ClaimOccurred" = Num 0 ∨ cell r "ClaimOccurred" = Num 1) l →
  count (map (λ r, cell r "ClaimOccurred") l) = Z.of_nat (length l).
Proof.
  unfold count. induction 1 as [|r l Hr _ IH]; simpl; [done|].
  destruct Hr as [-> | ->]; simpl; lia.
Qed.

Lemma Forall_filter_bool {A} (P : A → Prop) (p : A → bool) l :
  Forall P l → Forall P (List.filter p l).
Proof.
  induction 1 as [|x l Hx _ IH]; simpl; [constructor|].
  destruct (p x); [by constructor|done].
Qed.

Lemma claim_freq_of_bounds k n :
  (0 <= k)%Q → (k <= inject_Z n)%Q → 0 < n →
  in_unit_interval (claim_freq_of k n).
Proof.
  intros Hk0 Hkn Hn. unfold claim_freq_of.
  destruct (n =? 0) eqn:Hz; [lia|].
  assert (0 < inject_Z n)%Q as Hpos by (unfold Qlt; simpl; lia).
  eexists. split; [done|]. split.
  - apply Qle_shift_div_l; [done|]. by rewrite Qmult_0_l.
  - apply Qle_shift_div_r; [done|]. by rewrite Qmult_1_l.
Qed.


Lemma nunique_nonneg l : 0 ≤ nunique l.
Proof. unfold nunique. lia. Qed.

Lemma count_nonneg l : 0 ≤ count l.
Proof. unfold count. lia. Qed.

Lemma policies_of_nonneg df g n : policies_of df g = Ok n → 0 ≤ n.
Proof.
  unfold policies_of. destruct (has_column df "PolicyID");
    intros Hn; apply Res_fmap_Ok in Hn as (l & _ & ->);
    [apply nunique_nonneg|apply count_nonneg].
Qed.

(** ** The cap and the rest of a group *)


Section Cap.
Context `{SciPy}.

Lemma summarize_group_uncapped df group_col grp :
  groupby_agg df group_col = Ok grp →
  grp ≠ [] →
  has_column df "ClaimSeverity" = true →
  ∃ results log,
    mapM (summarize_row df group_col (sumZ (map g_policies grp))
            (sumQ (map g_claims_count grp))) grp = (Ok results, log)
    ∧ results ≠ []
    ∧ summarize_group df group_col None = (Ok (sort_desc policies results), log).
Proof.
  intros Hg Hne Hc.
  destruct (mapM_M_total
    (summarize_row df group_col (sumZ (map g_policies grp))
       (sumQ (map g_claims_count grp))) grp) as (results & log & Hm).
  { intros g _. by apply summarize_row_total. }
  exists results, log. split; [done|].
  assert (results ≠ []) as Hres.
  { apply mapM_M_Ok, Forall2_length in Hm. destruct grp, results; done. }
  split; [done|].
  unfold summarize_group. rewrite Hg, M_lift_bind. simpl keep_top.
  rewrite Hm. simpl. destruct results; [done|]. simpl. by rewrite app_nil_r.
Qed.

(** C10.  When the call with a cap returns a table, so does the call without
    it, and every row of the capped table is a row of the uncapped one, equal
    in every field; the capped table holds the rows of the groups that
    head(top_n) keeps after sorting by policies. *)
Theorem cap_only_selects_rows df group_col n out log :
  summarize_group df group_col (Some n) = (Ok out, log) →
  ∃ out_all log_all grp,
    summarize_group df group_col None = (Ok out_all, log_all)
    ∧ out ⊆ out_all
    ∧ groupby_agg df group_col = Ok grp
    ∧ map segment_value out ≡ₚ map g_key (keep_top (Some n) grp).
Proof.
  intros Hs.
  pose proof Hs as Hinv.
  apply summarize_group_inv in Hinv as (grp & results & Hg & Hrows & Hne & ->).
  assert (has_column df "ClaimSeverity" = true ∧ grp ≠ []) as [Hc Hgrp].
  { destruct results as [|r results]; [done|].
    destruct (Forall2_elem_of_r _ _ _ r Hrows) as (g & Hin & lg & Hrow & _); [left|].
    apply summarize_row_inv in Hrow as (sg & _ & _ & Hsg & _).
    split; [by eapply severity_samples_column|].
    apply keep_top_subseteq in Hin. intros ->. by apply elem_of_nil in Hin. }
  destruct (summarize_group_uncapped _ _ _ Hg Hgrp Hc)
    as (results_all & log_all & Hm & _ & Hall).
  exists (sort_desc policies results_all), log_all, grp.
  split_and!; try done.
  - intros r Hr. rewrite sort_desc_Permutation in Hr. rewrite sort_desc_Permutation.
    destruct (Forall2_elem_of_r _ _ _ _ Hrows Hr) as (g & Hgin & lg & Hrow & _).
    apply keep_top_subseteq in Hgin.
    destruct (Forall2_elem_of_l _ _ _ _ (mapM_M_Ok _ _ _ _ Hm) Hgin)
      as (r' & Hr' & lg' & Hrow' & _).
    rewrite Hrow in Hrow'. by injection Hrow' as -> _.
  - rewrite (Permutation_map segment_value (sort_desc_Permutation policies results)).
    assert (map segment_value results = map g_key (keep_top (Some n) grp)) as ->; [|done].
    clear -Hrows. induction Hrows as [|g r l k (lg & Hrow & _) _ IH]; simpl; [done|].
    apply summarize_row_inv in Hrow as (? & ? & us & _ & _ & _ & ->).
    simpl. by rewrite IH.
Qed.
End Cap.

(* the provinces under top_n = 1 *)
Lemma cap_only_selects_rows_witness :
  ∃ out_all log_all grp,
    summarize_group (H := scipy_nan) provinces "Province" None = (Ok out_all, log_all)
    ∧ rows_of (summarize_group (H := scipy_nan) provinces "Province" (Some 1)) ⊆ out_all
    ∧ groupby_agg provinces "Province" = Ok grp
    ∧ map segment_value
        (rows_of (summarize_group (H := scipy_nan) provinces "Province" (Some 1)))
      ≡ₚ map g_key (keep_top (Some 1) grp).
Proof.
  apply (cap_only_selects_rows (H := scipy_nan) provinces "Province" 1 _
           (summarize_group (H := scipy_nan) provinces "Province" (Some 1)).2).
  rewrite summarize_group_eq. vm_compute. reflexivity.
Defined.

(** C9, at a frame with a row whose province is missing.  For province A
    the frequency baselines rest_n and rest_k count province B alone (2 rows,
    no claim), while the rows outside A are 3 with 1 claim; the severity sample
    of the rest does hold the claim of the row without a province. *)
Lemma rest_baselines_skip_missing_segment :
  ∃ a b,
    groupby_agg provinces "Province" = Ok [a; b]
    ∧ g_key a = Str "A"
    ∧ rest_n (sumZ (map g_policies [a; b])) a = 2
    ∧ count (map (λ r, cell r "ClaimOccurred")
               (rows (rest_rows provinces "Province" (Str "A")))) = 3
    ∧ (rest_k (sumQ (map g_claims_count [a; b])) a == 0)%Q
    ∧ column_total (rest_rows provinces "Province" (Str "A")) "ClaimOccurred" = Ok 1%Q
    ∧ s_rest provinces "Province" (Str "A") = Ok [Num 70].
Proof.
  eexists _, _. split; [vm_compute; reflexivity|].
  split_and!; vm_compute; done.
Qed.


(** ** The sample-size gate of the Mann-Whitney comparison *)

Section Gate.
Context `{SciPy}.

Lemma logs_emit P ev : P ev → logs P (emit ev).
Proof. intros HP. by constructor. Qed.

Lemma logs_try_except {A} P (m handler : M A) :
  logs P m → logs P handler → logs P (try_except m handler).
Proof.
  unfold logs, try_except. destruct m as [[a|e] l1]; simpl; [done|].
  destruct handler as [r l2]. simpl. intros H1 H2. apply Forall_app. done.
Qed.

Lemma logs_call_mannwhitneyu P x y :
  P (CallMannWhitneyU x y) → logs P (call_mannwhitneyu x y).
Proof.
  intros HP. apply logs_bind; [by apply logs_emit|]. intros _ _. apply logs_lift.
Qed.

Lemma logs_call_kruskal P samples :
  P (CallKruskal samples) → logs P (call_kruskal samples).
Proof.
  intros HP. apply logs_bind; [by apply logs_emit|]. intros _ _. apply logs_lift.
Qed.

Lemma logs_call_chi2_contingency P ct :
  P (CallChi2Contingency ct) → logs P (call_chi2_contingency ct).
Proof.
  intros HP. apply logs_bind; [by apply logs_emit|]. intros _ _. apply logs_lift.
Qed.

Lemma gate_open (sg sr : list Cell) :
  (10 <=? Z.of_nat (length sg)) && (10 <=? Z.of_nat (length sr)) = true
  ↔ (10 ≤ length sg)%nat ∧ (10 ≤ length sr)%nat.
Proof. rewrite andb_true_iff, !Z.leb_le. lia. Qed.

Lemma severity_test_short sg sr :
  (length sg < 10 ∨ length sr < 10)%nat →
  severity_test sg sr = (Ok nan_pair, []).
Proof.
  intros Hshort. unfold severity_test.
  destruct (_ && _) eqn:Hg; [|done]. apply gate_open in Hg. lia.
Qed.

Lemma severity_test_long sg sr :
  (10 ≤ length sg)%nat → (10 ≤ length sr)%nat →
  severity_test sg sr
  = (Ok (match mannwhitneyu sg sr with Ok us => us | Raise _ => nan_pair end),
     [CallMannWhitneyU sg sr]).
Proof.
  intros Hg Hr. unfold severity_test.
  rewrite (proj2 (gate_open sg sr)) by done.
  unfold call_mannwhitneyu, try_except. simpl.
  by destruct (mannwhitneyu sg sr).
Qed.

Lemma logs_summarize_row df group_col op oc row :
  logs (gated_on df group_col) (summarize_row df group_col op oc row).
Proof.
  rewrite summarize_row_eq. unfold summarize_row_value.
  destruct (s_group df group_col (g_key row)) as [sg|e] eqn:Hsg; [|constructor].
  destruct (s_rest df group_col (g_key row)) as [sr|e] eqn:Hsr; [|constructor].
  unfold logs. simpl.
  destruct (decide (10 ≤ length sg ∧ 10 ≤ length sr)%nat) as [[Hg Hr]|Hshort].
  - rewrite severity_test_long by done. simpl.
    constructor; [|constructor]. simpl. split_and!; try done. by exists (g_key row).
  - rewrite severity_test_short by lia. constructor.
Qed.

Lemma logs_results_frame P results : logs P (results_frame results).
Proof. destruct results; constructor. Qed.

Lemma logs_summarize_group df group_col top_n :
  logs (gated_on df group_col) (summarize_group df group_col top_n).
Proof.
  unfold summarize_group.
  apply logs_bind; [apply logs_lift|]. intros grp _.
  apply logs_bind; [|intros; apply logs_results_frame].
  apply logs_mapM. intros g _. apply logs_summarize_row.
Qed.

Lemma summarize_group_marks df group_col top_n :
  Forall (severity_cells_ok df group_col (summarize_group df group_col top_n).2)
    (rows_of (summarize_group df group_col top_n)).
Proof.
  unfold rows_of.
  pose proof (logs_summarize_group df group_col top_n) as Hlogs.
  destruct (summarize_group df group_col top_n) as [[out|e] log] eqn:Hs;
    simpl; [|constructor].
  apply summarize_group_inv in Hs as (grp & results & _ & Hrows & _ & ->).
  apply Forall_forall. intros r Hr. rewrite sort_desc_Permutation in Hr.
  destruct (Forall2_elem_of_r _ _ _ _ Hrows Hr) as (g & _ & lg & Hrow & Hlg).
  apply summarize_row_inv in Hrow as (sg & sr & us & Hsg & Hsr & Hsev & ->).
  exists sg, sr. simpl. split_and!; try done.
  - intros Hshort. rewrite severity_test_short in Hsev by done.
    injection Hsev as <- _. split_and!; try done.
    intros Hin. unfold logs in Hlogs. rewrite Forall_forall in Hlogs.
    apply Hlogs in Hin as (? & ? & _). lia.
  - intros [Hg Hr']. rewrite severity_test_long in Hsev by done.
    injection Hsev as <- <-. split; [|by destruct (mannwhitneyu sg sr) as [[]|]].
    apply Hlg. left.
Qed.
End Gate.


(** ** The events of run_tests *)

Section RunTests.
Context `{SciPy}.

Lemma chi2_test_frequency_eq df group_col :
  has_column df group_col = true →
  has_column df "ClaimOccurred" = true →
  chi2_test_frequency df group_col
  = ((λ r, (r.1, r.2, full_table df group_col))
       <$> chi2_contingency (full_table df group_col),
     [CallChi2Contingency (full_table df group_col)]).
Proof.
  intros Hg Ho. unfold chi2_test_frequency, getcol. rewrite Hg, Ho.
  rewrite !M_lift_bind. fold (full_table df group_col).
  unfold call_chi2_contingency. simpl.
  by destruct (chi2_contingency (full_table df group_col)).
Qed.

Lemma logs_chi2_test_frequency P df group_col :
  P (CallChi2Contingency (full_table df group_col)) →
  logs P (chi2_test_frequency df group_col).
Proof.
  intros HP. unfold chi2_test_frequency.
  apply logs_bind; [apply logs_lift|]. intros keys Hk.
  apply logs_bind; [apply logs_lift|]. intros occ Ho.
  simpl in Hk, Ho. apply getcol_Ok in Hk as [_ ->]. apply getcol_Ok in Ho as [_ ->].
  apply logs_bind; [by apply logs_call_chi2_contingency|].
  intros; apply logs_ret.
Qed.

Lemma logs_kw_test_numeric P df group_col value_col m :
  (∀ samples, P (CallKruskal samples)) →
  logs P (kw_test_numeric df group_col value_col m).
Proof.
  intros HP. unfold kw_test_numeric.
  apply logs_bind; [apply logs_lift|]. intros kept _.
  destruct (_ <? 2); [apply logs_ret|].
  apply logs_bind; [by apply logs_call_kruskal|]. intros; apply logs_ret.
Qed.

Lemma logs_report P fmt reject keep stat p :
  (∀ items, P (Print items)) → logs P (report fmt reject keep stat p).
Proof.
  intros HP. unfold report.
  apply logs_bind; [by apply logs_print|]. intros _ _.
  destruct (float_ltb p (5 # 100)); by apply logs_print.
Qed.

Lemma logs_summary_overall P df :
  (∀ items, P (Print items)) → logs P (summary_overall df).
Proof.
  intros HP. unfold summary_overall.
  apply logs_bind; [apply logs_lift|]. intros ? _.
  apply logs_bind; [apply logs_lift|]. intros ? _.
  apply logs_bind; [apply logs_lift|]. intros ? _.
  by apply logs_print.
Qed.

Lemma logs_gender_severity_test P male female :
  (∀ items, P (Print items)) →
  ((10 ≤ length male)%nat → (10 ≤ length female)%nat →
   P (CallMannWhitneyU male female)) →
  logs P (gender_severity_test male female).
Proof.
  intros HP HMW. unfold gender_severity_test.
  destruct (_ && _) eqn:Hg; [|by apply logs_print].
  apply gate_open in Hg as [Hm Hf].
  apply logs_bind; [by apply logs_call_mannwhitneyu; auto|].
  intros; by apply logs_report.
Qed.

(* the events of run_tests: lines printed, Kruskal-Wallis calls, and the
   three chi-square calls and the Mann-Whitney call named in the premises *)
Lemma logs_run_tests P df :
  (∀ items, P (Print items)) →
  (∀ samples, P (CallKruskal samples)) →
  P (CallChi2Contingency (full_table df "Province")) →
  (∀ zips, top_zips df = Ok zips →
     P (CallChi2Contingency (full_table (df_z df zips) "PostalCode"))) →
  P (CallChi2Contingency (full_table df "Gender")) →
  (∀ male female,
     gender_sample df "Male" = Ok male → gender_sample df "Female" = Ok female →
     (10 ≤ length male)%nat → (10 ≤ length female)%nat →
     P (CallMannWhitneyU male female)) →
  logs P (run_tests df).
Proof.
  intros HPrint HKW HProv HZip HGen HMW. unfold run_tests.
  apply logs_bind; [by apply logs_print|]. intros _ _.
  apply logs_bind; [by apply logs_summary_overall|]. intros _ _.
  apply logs_bind; [|intros _ _; apply logs_bind; [|intros _ _]].
  - unfold tests_province.
    destruct (has_column df "Province"); [|by apply logs_print].
    apply logs_bind; [by apply logs_print|]. intros _ _.
    apply logs_bind; [by apply logs_chi2_test_frequency|]. intros r _.
    apply logs_bind; [by apply logs_print|]. intros _ _.
    apply logs_bind; [by apply logs_print|]. intros _ _.
    apply logs_bind; [by apply logs_print|]. intros _ _.
    apply logs_bind; [destruct (float_ltb _ _); by apply logs_print|]. intros _ _.
    apply logs_bind; [by apply logs_print|]. intros _ _.
    apply logs_bind; [by apply logs_kw_test_numeric|]. intros kw _.
    destruct kw.1; [by apply logs_report|by apply logs_print].
  - unfold tests_postal_code.
    destruct (has_column df "PostalCode"); [|by apply logs_print].
    apply logs_bind; [apply logs_lift|]. intros zips Hz. simpl in Hz.
    apply logs_bind; [by apply logs_print|]. intros _ _.
    apply logs_bind; [by apply logs_print|]. intros _ _.
    apply logs_bind; [by apply logs_chi2_test_frequency; auto|]. intros r _.
    apply logs_bind; [by apply logs_report|]. intros _ _.
    apply logs_bind; [by apply logs_print|]. intros _ _.
    apply logs_bind; [by apply logs_kw_test_numeric|]. intros kw _.
    destruct kw.1; [by apply logs_report|by apply logs_print].
  - unfold tests_gender.
    destruct (has_column df "Gender"); [|by apply logs_print].
    apply logs_bind; [by apply logs_print|]. intros _ _.
    apply logs_bind; [apply logs_lift|]. intros genders _.
    destruct (2 <=? _); [|by apply logs_print].
    apply logs_bind; [by apply logs_chi2_test_frequency|]. intros r _.
    apply logs_bind; [by apply logs_report|]. intros _ _.
    apply logs_bind; [by apply logs_print|]. intros _ _.
    apply logs_bind; [apply logs_lift|]. intros male Hm. simpl in Hm.
    apply logs_bind; [apply logs_lift|]. intros female Hf. simpl in Hf.
    apply logs_gender_severity_test; auto.
Qed.

(** C5.  Every Mann-Whitney call that summarize_group logs is on the severity
    sample of a group and that of its complement, both of ten values or more;
    an emitted row one of whose two samples has nine values or fewer carries NaN
    for the statistic and the p-value, and no call on its samples is logged,
    while a row with ten or more on both sides has its call logged and carries
    what the call returned; and every Mann-Whitney call that run_tests logs
    is on the Male and Female samples, both of ten or more. *)
Theorem mann_whitney_gate df group_col top_n :
  logs (gated_on df group_col) (summarize_group df group_col top_n)
  ∧ Forall (severity_cells_ok df group_col (summarize_group df group_col top_n).2)
      (rows_of (summarize_group df group_col top_n))
  ∧ logs (gender_gated df) (run_tests df).
Proof.
  split_and!.
  - apply logs_summarize_group.
  - apply summarize_group_marks.
  - apply logs_run_tests; simpl; auto.
Qed.
End RunTests.


(** ** Kruskal-Wallis *)






(* two provinces, one of them below the threshold: no test *)
Example kw_one_group_qualifies :
  kw_test_numeric (H := scipy_nan) provinces "Province" "Margin" 3
  = (Ok (None, [Str "A"]), []).
Proof. vm_compute. reflexivity. Qed.

Example kw_two_groups_qualify :
  kw_test_numeric (H := scipy_nan) provinces "Province" "Margin" 2
  = (Ok (Some nan_pair, [Str "A"; Str "B"]),
     [CallKruskal [[Num 100; Num 50; Num 100]; [Num 100; Num 100]]]).
Proof. vm_compute. reflexivity. Qed.


(** ** Chi-square *)

Lemma inject_Z_sumZ l : (inject_Z (sumZ l) == sumQ (map inject_Z l))%Q.
Proof.
  induction l as [|x l IH]; simpl; [done|].
  by rewrite inject_Z_plus, IH.
Qed.



Lemma filter_all {A} (p : A → bool) l :
  (∀ x, x ∈ l → p x = true) → List.filter p l = l.
Proof.
  induction l as [|x l IH]; simpl; intros Hp; [done|].
  rewrite (Hp x) by left. f_equal. apply IH. intros y Hy. apply Hp. by right.
Qed.






(* the ten most frequent codes of the worked frame *)
Example top_zips_postal_codes :
  top_zips postal_codes
  = Ok (map (λ code, Num (inject_Z code)) [1; 2; 3; 4; 5; 6; 7; 8; 9; 10]).
Proof. vm_compute. reflexivity. Qed.



(** ** The normalizer and the frames in the heap *)

Lemma same_outside_refl cs df : same_outside cs df df.
Proof. done. Qed.

Lemma same_outside_trans cs df1 df2 df3 :
  same_outside cs df1 df2 → same_outside cs df2 df3 → same_outside cs df1 df3.
Proof.
  intros (Hl1 & Hc1 & Hr1) (Hl2 & Hc2 & Hr2). split_and!.
  - congruence.
  - intros c Hc. rewrite Hc2, Hc1; done.
  - intros c Hc. rewrite Hr2, Hr1; done.
Qed.

Lemma zip_with_insert_length (rs : list (gmap string Cell)) c (vs : list Cell) :
  length vs = length rs →
  length (zip_with (λ r v, <[c := v]> r) rs vs) = length rs.
Proof. intros Hl. rewrite length_zip_with. lia. Qed.

Lemma zip_with_insert_other (rs : list (gmap string Cell)) c c' (vs : list Cell) :
  c' ≠ c → length vs = length rs →
  map (λ r, r !! c') (zip_with (λ r v, <[c := v]> r) rs vs) = map (λ r, r !! c') rs.
Proof.
  intros Hne. revert vs. induction rs as [|r rs IH]; intros [|v vs] Hl;
    simpl in *; try done.
  rewrite lookup_insert_ne by done. f_equal. apply IH. lia.
Qed.

Lemma setcol_same_outside cs df c values :
  c ∈ cs → length values = length (rows df) →
  same_outside cs df (setcol df c values).
Proof.
  intros Hc Hl. unfold same_outside, setcol. simpl. split_and!.
  - by apply zip_with_insert_length.
  - intros c' Hc'. unfold has_column. simpl.
    destruct (bool_decide (c ∈ columns df)); [done|].
    apply bool_decide_ext. rewrite elem_of_app, list_elem_of_singleton.
    split; [|tauto]. intros [?| ->]; done.
  - intros c' Hc'. apply zip_with_insert_other; [|done]. by intros ->.
Qed.

Section HeapLogic.
Variable l : loc.
Variable R : DataFrame → Prop.
Variable h0 : gmap loc DataFrame.

Abbreviation keeps_R := (keeps l R h0).

Lemma keeps_ret {A} (a : A) (Q : A → Prop) : Q a → keeps_R (mret a) Q.
Proof. intros HQ h Hh. simpl. split; [done|]. by intros ? [= <-]. Qed.

Lemma keeps_bind {A B} (m : Py A) (f : A → Py B) Q Q' :
  keeps_R m Q → (∀ a, Q a → keeps_R (f a) Q') → keeps_R (m ≫= f) Q'.
Proof.
  intros Hm Hf h Hh. destruct (Hm h Hh) as [Hh' HQ].
  unfold mbind, Py_bind. destruct (m h) as [[a|e] h'] eqn:Hmh; simpl in *.
  - by apply Hf; [apply HQ|].
  - split; [done|]. by intros.
Qed.

Lemma keeps_weaken {A} (m : Py A) (Q Q' : A → Prop) :
  keeps_R m Q → (∀ a, Q a → Q' a) → keeps_R m Q'.
Proof. intros Hm HQ h Hh. destruct (Hm h Hh) as [? ?]. split; [done|]. auto. Qed.

Lemma keeps_lift {A} (r : Res A) : keeps_R (py_lift r) (λ a, r = Ok a).
Proof. intros h Hh. simpl. split; [done|]. by intros a ->. Qed.

Lemma keeps_deref : keeps_R (deref l) R.
Proof.
  intros h Hh. pose proof Hh as (_ & df & Hdf & HR).
  unfold deref. rewrite Hdf. simpl. split; [done|]. by intros ? [= <-].
Qed.

Lemma keeps_assign df : R df → keeps_R (assign l df) (λ _, True).
Proof.
  intros HR h [Hother _]. simpl. split; [|done]. split.
  - intros l' Hl'. rewrite lookup_insert_ne by done. by apply Hother.
  - exists df. by rewrite lookup_insert_eq.
Qed.

Lemma keeps_mapM {A B} (f : A → Py B) xs :
  (∀ x, x ∈ xs → keeps_R (f x) (λ _, True)) → keeps_R (mapM f xs) (λ _, True).
Proof.
  induction xs as [|x xs IH]; intros Hf; simpl.
  - by apply keeps_ret.
  - eapply keeps_bind; [apply Hf; left|]. intros y _.
    eapply keeps_bind; [apply IH; intros; apply Hf; by right|].
    intros ys _. by apply keeps_ret.
Qed.

Lemma keeps_has_column c : keeps_R (py_has_column l c) (λ _, True).
Proof.
  eapply keeps_bind; [apply keeps_deref|]. intros df _. by apply keeps_ret.
Qed.

Lemma keeps_getcol c :
  keeps_R (py_getcol l c) (λ s, ∃ df, R df ∧ s = map (λ r, cell r c) (rows df)).
Proof.
  eapply keeps_bind; [apply keeps_deref|]. intros df HR.
  eapply keeps_weaken; [apply keeps_lift|].
  intros s Hs. apply getcol_Ok in Hs as [_ ->]. by exists df.
Qed.

Lemma keeps_setcol c values :
  (∀ df, R df → R (setcol df c values)) →
  keeps_R (py_setcol l c values) (λ _, True).
Proof.
  intros HR. eapply keeps_bind; [apply keeps_deref|]. intros df Hdf.
  apply keeps_assign. by apply HR.
Qed.

Lemma keeps_setcol_scalar c v :
  (∀ df, R df → R (setcol_scalar df c v)) →
  keeps_R (py_setcol_scalar l c v) (λ _, True).
Proof.
  intros HR. eapply keeps_bind; [apply keeps_deref|]. intros df Hdf.
  apply keeps_assign. by apply HR.
Qed.
End HeapLogic.



Section NormalizerFacts.
Context `{Pandas}.

Lemma touched_setcol df0 df c values :
  same_outside touched df0 df → c ∈ touched →
  length values = length (rows df0) →
  same_outside touched df0 (setcol df c values).
Proof.
  intros Hdf Hc Hl. eapply same_outside_trans; [exact Hdf|].
  apply setcol_same_outside; [done|]. destruct Hdf as [-> _]. done.
Qed.

Lemma touched_column_length df0 df s c :
  same_outside touched df0 df → s = map (λ r, cell r c) (rows df) →
  length s = length (rows df0).
Proof. intros [Hl _] ->. by rewrite length_map. Qed.

Lemma mapM_Res_length {A B} (f : A → Res B) l ys :
  mapM f l = Ok ys → length ys = length l.
Proof. intros Hm. apply mapM_Res_Ok, Forall2_length in Hm. done. Qed.

Section Prepare.
Variable l : loc.
Variable df0 : DataFrame.
Variable h0 : gmap loc DataFrame.

Abbreviation keeps_touched := (keeps l (same_outside touched df0) h0).

Lemma keeps_touched_getcol c :
  keeps_touched (py_getcol l c) (λ s, length s = length (rows df0)).
Proof.
  eapply keeps_weaken; [apply keeps_getcol|].
  intros s (df & Hdf & Hs). by eapply touched_column_length.
Qed.

Lemma keeps_touched_setcol c values :
  c ∈ touched → length values = length (rows df0) →
  keeps_touched (py_setcol l c values) (λ _, True).
Proof. intros Hc Hl. apply keeps_setcol. intros df Hdf. by apply touched_setcol. Qed.

Lemma keeps_touched_setcol_scalar c v :
  c ∈ touched → keeps_touched (py_setcol_scalar l c v) (λ _, True).
Proof.
  intros Hc. apply keeps_setcol_scalar. intros df Hdf. unfold setcol_scalar.
  apply touched_setcol; [done..|]. rewrite length_map. by destruct Hdf as [-> _].
Qed.

Lemma keeps_coerce_fields : keeps_touched (coerce_fields l) (λ _, True).
Proof.
  unfold coerce_fields.
  eapply keeps_bind; [|intros; by apply keeps_ret].
  apply keeps_mapM. intros c Hc.
  eapply keeps_bind; [apply keeps_has_column|]. intros [] _; [|by apply keeps_ret].
  eapply keeps_bind; [apply keeps_touched_getcol|]. intros s Hs.
  apply keeps_touched_setcol.
  - unfold touched. apply elem_of_app. by left.
  - by rewrite length_map.
Qed.

Lemma keeps_set_claim_occurred : keeps_touched (set_claim_occurred l) (λ _, True).
Proof.
  unfold set_claim_occurred.
  eapply keeps_bind; [apply keeps_touched_getcol|]. intros claims Hc.
  eapply keeps_bind; [apply keeps_lift|]. intros occ Ho.
  apply keeps_touched_setcol; [by vm_compute; set_solver|].
  apply mapM_Res_length in Ho. simpl in *. congruence.
Qed.

Lemma keeps_set_claim_severity : keeps_touched (set_claim_severity l) (λ _, True).
Proof.
  unfold set_claim_severity.
  eapply keeps_bind; [apply keeps_touched_getcol|]. intros claims Hc.
  eapply keeps_bind; [apply keeps_touched_getcol|]. intros occ Ho.
  apply keeps_touched_setcol; [by vm_compute; set_solver|].
  unfold where_. rewrite length_zip_with, length_map. simpl in *. lia.
Qed.

Lemma keeps_set_margin : keeps_touched (set_margin l) (λ _, True).
Proof.
  unfold set_margin.
  eapply keeps_bind; [apply keeps_touched_getcol|]. intros premium Hp.
  eapply keeps_bind; [apply keeps_touched_getcol|]. intros claims Hc.
  eapply keeps_bind; [apply keeps_lift|]. intros margin Hm.
  apply keeps_touched_setcol; [by vm_compute; set_solver|].
  apply mapM_Res_length in Hm. rewrite Hm, length_zip. simpl in *. lia.
Qed.

Lemma keeps_prepare : keeps_touched (prepare l) (λ r, r = l).
Proof.
  unfold prepare.
  eapply keeps_bind; [apply keeps_coerce_fields|]. intros _ _.
  eapply keeps_bind; [apply keeps_has_column|]. intros has_claims _.
  eapply keeps_bind.
  { instantiate (1 := λ _, True).
    destruct has_claims; [apply keeps_set_claim_occurred|].
    apply keeps_touched_setcol_scalar. by vm_compute; set_solver. }
  intros _ _.
  eapply keeps_bind; [apply keeps_set_claim_severity|]. intros _ _.
  eapply keeps_bind; [apply keeps_has_column|]. intros has_premium _.
  eapply keeps_bind.
  { instantiate (1 := λ _, True).
    destruct (has_premium && has_claims); [apply keeps_set_margin|].
    apply keeps_touched_setcol_scalar. by vm_compute; set_solver. }
  intros _ _. by apply keeps_ret.
Qed.
End Prepare.

Lemma prepare_frame l h df :
  h !! l = Some df →
  (∀ l', l' ≠ l → (prepare l h).2 !! l' = h !! l')
  ∧ (∃ df', (prepare l h).2 !! l = Some df' ∧ same_outside touched df df')
  ∧ (∀ r, (prepare l h).1 = Ok r → r = l).
Proof.
  intros Hl.
  destruct (keeps_prepare l df h h) as [[Hother Hat] Hret].
  { split; [done|]. exists df. split; [done|apply same_outside_refl]. }
  done.
Qed.

Lemma py_lift_bind {A B} (r : Res A) (f : A → Py B) h :
  (py_lift r ≫= f) h = match r with Ok a => f a h | Raise e => (Raise e, h) end.
Proof. by destruct r. Qed.

(* what runs on a frame allocated for it leaves the frames already there alone *)
Lemma alloc_bind_frame {A} frame (k : loc → Py A) h l :
  is_Some (h !! l) →
  (∀ l0 h1, keeps l0 (λ _, True) h1 (k l0) (λ _, True)) →
  ((alloc frame ≫= k) h).2 !! l = h !! l.
Proof.
  intros Hl Hk. unfold mbind, Py_bind, alloc.
  set (l0 := fresh (dom h)).
  assert (l ≠ l0) as Hne.
  { intros ->. apply (is_fresh (dom h)). by apply elem_of_dom. }
  destruct (Hk l0 (<[l0 := frame]> h) (<[l0 := frame]> h)) as [[Hother _] _].
  { split; [done|]. eexists. by rewrite lookup_insert_eq. }
  rewrite Hother by done. by rewrite lookup_insert_ne.
Qed.

Section AnyFrame.
Variable l : loc.
Variable h0 : gmap loc DataFrame.

Abbreviation keeps_any := (keeps l (λ _, True) h0).

Lemma keeps_any_coerce_fields : keeps_any (coerce_fields l) (λ _, True).
Proof.
  unfold coerce_fields.
  eapply keeps_bind; [|intros; by apply keeps_ret].
  apply keeps_mapM. intros c _.
  eapply keeps_bind; [apply keeps_has_column|]. intros [] _; [|by apply keeps_ret].
  eapply keeps_bind; [apply keeps_getcol|]. intros s _.
  by apply keeps_setcol.
Qed.

Lemma keeps_any_set_claim_occurred : keeps_any (set_claim_occurred l) (λ _, True).
Proof.
  unfold set_claim_occurred.
  eapply keeps_bind; [apply keeps_getcol|]. intros ? _.
  eapply keeps_bind; [apply keeps_lift|]. intros ? _. by apply keeps_setcol.
Qed.

Lemma keeps_any_set_margin : keeps_any (set_margin l) (λ _, True).
Proof.
  unfold set_margin.
  eapply keeps_bind; [apply keeps_getcol|]. intros ? _.
  eapply keeps_bind; [apply keeps_getcol|]. intros ? _.
  eapply keeps_bind; [apply keeps_lift|]. intros ? _. by apply keeps_setcol.
Qed.

Lemma keeps_any_set_claim_severity : keeps_any (set_claim_severity l) (λ _, True).
Proof.
  unfold set_claim_severity.
  eapply keeps_bind; [apply keeps_getcol|]. intros ? _.
  eapply keeps_bind; [apply keeps_getcol|]. intros ? _. by apply keeps_setcol.
Qed.
End AnyFrame.

(* load_data works on the frame it allocates *)
Lemma load_data_frame p h l :
  is_Some (h !! l) → (load_data p h).2 !! l = h !! l.
Proof.
  intros Hl. unfold load_data. rewrite py_lift_bind.
  destruct (read_csv _ _) as [frame|e]; [|done].
  apply alloc_bind_frame; [done|]. intros l0 h1.
  eapply keeps_bind; [apply keeps_deref|]. intros frame' _.
  eapply keeps_bind; [by apply keeps_assign|]. intros _ _.
  eapply keeps_bind; [apply keeps_any_coerce_fields|]. intros _ _.
  eapply keeps_bind; [apply keeps_any_set_claim_occurred|]. intros _ _.
  eapply keeps_bind; [apply keeps_any_set_margin|]. intros _ _.
  eapply keeps_bind; [apply keeps_any_set_claim_severity|]. intros _ _.
  by apply keeps_ret.
Qed.
Lemma Py_bind_Ok {A B} (m : Py A) (f : A → Py B) h b h' :
  (m ≫= f) h = (Ok b, h') ↔ ∃ a h1, m h = (Ok a, h1) ∧ f a h1 = (Ok b, h').
Proof.
  unfold mbind, Py_bind. destruct (m h) as [[a|e] h1]; split.
  - intros Hf. by exists a, h1.
  - by intros (a' & h1' & [= -> ->] & Hf).
  - done.
  - by intros (a' & h1' & [=] & _).
Qed.

Lemma zip_with_insert_Forall (P : gmap string Cell → Prop) c
    (rs : list (gmap string Cell)) (vs : list Cell) :
  (∀ r v, r ∈ rs → v ∈ vs → P (<[c := v]> r)) →
  Forall P (zip_with (λ r v, <[c := v]> r) rs vs).
Proof.
  revert vs. induction rs as [|r rs IH]; intros [|v vs] HP; simpl; try constructor.
  - apply HP; left.
  - apply IH. intros r' v' Hr' Hv'. apply HP; by right.
Qed.

(* writing 0/1 cells to ClaimOccurred makes it the indicator *)
Lemma setcol_indicator df values :
  Forall (λ v, v = Num 0 ∨ v = Num 1) values →
  indicator (setcol df "ClaimOccurred" values).
Proof.
  intros Hv. unfold indicator, setcol. simpl.
  apply zip_with_insert_Forall. intros r v _ Hin.
  unfold cell. rewrite lookup_insert_eq. simpl.
  rewrite Forall_forall in Hv. by apply Hv.
Qed.

(* writing another column leaves it the indicator *)
Lemma setcol_indicator_other df c values :
  c ≠ "ClaimOccurred" → indicator df → indicator (setcol df c values).
Proof.
  intros Hc Hind. unfold indicator, setcol in *. simpl.
  apply zip_with_insert_Forall. intros r v Hr _.
  unfold cell. rewrite lookup_insert_ne by done.
  rewrite Forall_forall in Hind. by apply Hind.
Qed.

Lemma claim_occurred_indicator claims occ :
  mapM claim_occurred claims = Ok occ → Forall (λ v, v = Num 0 ∨ v = Num 1) occ.
Proof.
  intros Hm. apply mapM_Res_Ok in Hm.
  induction Hm as [|c v claims occ Hc _ IH]; constructor; [|done].
  unfold claim_occurred in Hc. destruct (to_float c) as [x|]; [|done].
  simpl in Hc. injection Hc as <-. destruct (Qle_bool _ _); auto.
Qed.

Lemma set_claim_occurred_indicator l h h' :
  set_claim_occurred l h = (Ok tt, h') →
  ∃ df, h' !! l = Some df ∧ indicator df.
Proof.
  unfold set_claim_occurred, py_getcol, py_setcol. intros Hs.
  apply Py_bind_Ok in Hs as (claims & h1 & Hc & Hs).
  apply Py_bind_Ok in Hs as (occ & h2 & Ho & Hs).
  apply Py_bind_Ok in Hs as (df & h3 & Hd & Hs).
  unfold py_lift in Ho. injection Ho as Ho <-.
  unfold assign in Hs. injection Hs as <-.
  eexists. rewrite lookup_insert_eq. split; [done|].
  apply setcol_indicator. by eapply claim_occurred_indicator.
Qed.

Lemma setcol_scalar_indicator l h h' :
  py_setcol_scalar l "ClaimOccurred" (Num 0) h = (Ok tt, h') →
  ∃ df, h' !! l = Some df ∧ indicator df.
Proof.
  unfold py_setcol_scalar. intros Hs.
  apply Py_bind_Ok in Hs as (df & h1 & Hd & Hs).
  unfold assign in Hs. injection Hs as <-.
  eexists. rewrite lookup_insert_eq. split; [done|].
  apply setcol_indicator. apply Forall_forall. intros v Hv.
  apply list_elem_of_fmap in Hv as (? & -> & _). by left.
Qed.

(* the frame prepare returns has ClaimOccurred as the 0/1 indicator *)
Lemma prepare_indicator l h r h' :
  prepare l h = (Ok r, h') → ∃ df, h' !! l = Some df ∧ indicator df.
Proof.
  unfold prepare. intros Hp.
  apply Py_bind_Ok in Hp as ([] & h1 & _ & Hp).
  apply Py_bind_Ok in Hp as (has_claims & h2 & _ & Hp).
  apply Py_bind_Ok in Hp as ([] & h3 & Hocc & Hp).
  assert (∃ df, h3 !! l = Some df ∧ indicator df) as (df3 & Hdf3 & Hind).
  { destruct has_claims;
      [by eapply set_claim_occurred_indicator|by eapply setcol_scalar_indicator]. }
  match type of Hp with ?m h3 = _ =>
    assert (keeps l indicator h3 m (λ _, True)) as Hkeeps
  end.
  { eapply keeps_bind.
    { instantiate (1 := λ _, True). unfold set_claim_severity.
      eapply keeps_bind; [apply keeps_getcol|]. intros ? _.
      eapply keeps_bind; [apply keeps_getcol|]. intros ? _.
      apply keeps_setcol. intros df. by apply setcol_indicator_other. }
    intros _ _.
    eapply keeps_bind; [apply keeps_has_column|]. intros has_premium _.
    eapply keeps_bind; [|intros; by apply keeps_ret].
    instantiate (1 := λ _, True).
    destruct (has_premium && has_claims).
    - unfold set_margin.
      eapply keeps_bind; [apply keeps_getcol|]. intros ? _.
      eapply keeps_bind; [apply keeps_getcol|]. intros ? _.
      eapply keeps_bind; [apply keeps_lift|]. intros ? _.
      apply keeps_setcol. intros df. by apply setcol_indicator_other.
    - apply keeps_setcol_scalar. intros df. by apply setcol_indicator_other. }
  destruct (Hkeeps h3) as [[_ Hat] _].
  { split; [done|]. by exists df3. }
  by rewrite Hp in Hat.
Qed.
End NormalizerFacts.



(** C7, amended.  load_data leaves every frame that was in the heap as it
    was.  prepare returns the reference it was given; it leaves every other
    frame as it was, and the frame at that reference keeps its rows and, outside
    the three numeric and the three derived columns, its columns and cells. *)
Theorem normalizer_frame `{Pandas} :
  (∀ p h l, is_Some (h !! l) → (load_data p h).2 !! l = h !! l)
  ∧ (∀ l h df, h !! l = Some df →
       (∀ l', l' ≠ l → (prepare l h).2 !! l' = h !! l')
       ∧ (∃ df', (prepare l h).2 !! l = Some df' ∧ same_outside touched df df')
       ∧ (∀ r, (prepare l h).1 = Ok r → r = l)).
Proof. split; [apply load_data_frame|apply prepare_frame]. Qed.

(* C7 as stated fails for prepare: the frame handed in has three columns
   before the call and six after *)
Lemma prepare_changes_its_argument :
  ¬ (∀ (P : Pandas) l h, (prepare l h).2 = h).
Proof.
  intros Hc.
  specialize (Hc (pandas_with "" raw_provinces) 1%positive {[1%positive := raw_provinces]}).
  apply (f_equal (λ h, columns <$> h !! 1%positive)) in Hc.
  vm_compute in Hc. discriminate Hc.
Qed.

(* prepare hands back the reference it was given, and the frame there has
   the text of the two amounts replaced by numbers and three columns more *)
Example prepare_raw_provinces :
  let h := {[1%positive := raw_provinces]} in
  (prepare (H := pandas_with "" raw_provinces) 1%positive h).1 = Ok 1%positive
  ∧ columns <$> (prepare (H := pandas_with "" raw_provinces) 1%positive h).2 !! 1%positive
    = Some ["Province"; "TotalPremium"; "TotalClaims";
            "ClaimOccurred"; "ClaimSeverity"; "Margin"]
  ∧ map (λ r, cell r "TotalClaims") (rows provinces)
    = [Num 0; Num 50; Num 0; Num 0; Num 0; Num 70]
  ∧ map (λ r, cell r "ClaimOccurred") (rows provinces)
    = [Num 0; Num 1; Num 0; Num 0; Num 0; Num 1]
  ∧ map (λ r, cell r "ClaimSeverity") (rows provinces)
    = [NaN; Num 50; NaN; NaN; NaN; Num 70].
Proof. intros h. repeat split; vm_compute; reflexivity. Qed.

(* load_data puts the frame it reads at a new reference *)
Example load_data_allocates :
  let h := {[1%positive := raw_provinces]} in
  let r := load_data (H := pandas_with "data.csv" raw_provinces) (mkPath "data.csv" ".csv") h in
  r.1 = Ok 2%positive ∧ r.2 !! 1%positive = Some raw_provinces
  ∧ columns <$> r.2 !! 2%positive
    = Some ["Province"; "TotalPremium"; "TotalClaims";
            "ClaimOccurred"; "Margin"; "ClaimSeverity"]
  ∧ rows <$> r.2 !! 2%positive = Some (rows provinces).
Proof. intros h r. repeat split; vm_compute; reflexivity. Qed.


(** ** Worked examples *)

Example scenario_summary :
  map (λ r, (segment_value r, policies r, claims_count r, total_premium r,
             total_claims r, claim_freq r, loss_ratio r))
    (rows_of (summarize_group (H := scipy_nan) scenario "Province" None))
  = [ (Str "A", 2, 1%Q, 200%Q, 50%Q, Some (1 # 2), Some (50 # 200));
      (Str "B", 2, 0%Q, 200%Q, 0%Q, Some (0 # 2), Some (0 # 200)) ].
Proof. rewrite summarize_group_eq. vm_compute. reflexivity. Qed.

(* nine severities on one side: no call, NaN reported *)
Example nine_is_too_few :
  severity_test (H := scipy_nan) (replicate 9 (Num 1)) (replicate 10 (Num 2))
  = (Ok nan_pair, []).
Proof. vm_compute. reflexivity. Qed.

(* ten on both sides: the call is made *)
Example ten_suffices :
  (severity_test (H := scipy_nan) (replicate 10 (Num 1)) (replicate 10 (Num 2))).2
  = [CallMannWhitneyU (replicate 10 (Num 1)) (replicate 10 (Num 2))].
Proof. vm_compute. reflexivity. Qed.

(* the capped call on the provinces keeps the larger province only *)
Example provinces_top_1 :
  map (λ r, (segment_value r, policies r, total_premium r))
    (rows_of (summarize_group (H := scipy_nan) provinces "Province" (Some 1)))
  = [ (Str "A", 3, 300%Q) ].
Proof. rewrite summarize_group_eq. vm_compute. reflexivity. Qed.


(** * Further properties of the two scripts *)

(** ** The sign of the statistic, and the test on counts *)

Section ZTestMore.
Context `{SciPy}.
Local Open Scope R_scope.

Lemma ztest_value_applicable k1 n1 k2 n2 :
  n1 ≠ 0 → n2 ≠ 0 → 0 < pooled_variance k1 n1 k2 n2 →
  ztest_value k1 n1 k2 n2
  = (Some ((k1 / n1 - k2 / n2) / sqrt (pooled_variance k1 n1 k2 n2)),
     Some (2 * norm_sf (Rabs ((k1 / n1 - k2 / n2) / sqrt (pooled_variance k1 n1 k2 n2))))).
Proof.
  intros Hn1 Hn2 Hv. unfold ztest_value, standard_error.
  rewrite (proj2 (truthy_true n1)), (proj2 (truthy_true n2)) by done. simpl.
  unfold np_sqrt. destruct (Rlt_dec _ 0) as [?|_]; [lra|].
  destruct (Req_dec_T _ 0) as [E|_]; [|done].
  apply sqrt_eq_0 in E; lra.
Qed.

Lemma ztest_value_Some k1 n1 k2 n2 z p :
  ztest_value k1 n1 k2 n2 = (Some z, Some p) →
  n1 ≠ 0 ∧ n2 ≠ 0 ∧ 0 < pooled_variance k1 n1 k2 n2.
Proof.
  intros E.
  assert (N : ztest_value k1 n1 k2 n2 ≠ inapplicable) by (rewrite E; done).
  rewrite ztest_value_inapplicable, standard_error_degenerate in N.
  split_and!; [intros ->; apply N; auto | intros ->; apply N; auto |].
  destruct (Rlt_dec 0 (pooled_variance k1 n1 k2 n2)); [done|].
  exfalso; apply N; right; right; lra.
Qed.

(** X1 (two_prop_ztest).  When the test applies, the sign of the statistic is
    the sign of the difference of the two proportions: z is positive exactly
    when k1/n1 exceeds k2/n2, negative exactly when it is below, and zero
    exactly when the proportions agree; the p-value is 2*sf(|z|). *)
Theorem two_prop_ztest_sign k1 n1 k2 n2 z p :
  two_prop_ztest k1 n1 k2 n2 = Ok (Some z, Some p) →
  (0 < z ↔ k2 / n2 < k1 / n1)
  ∧ (z < 0 ↔ k1 / n1 < k2 / n2)
  ∧ (z = 0 ↔ k1 / n1 = k2 / n2)
  ∧ p = 2 * norm_sf (Rabs z).
Proof.
  rewrite two_prop_ztest_value. intros [= E].
  destruct (ztest_value_Some _ _ _ _ _ _ E) as (Hn1 & Hn2 & Hv).
  rewrite ztest_value_applicable in E by done. injection E as <- <-.
  pose proof (sqrt_lt_R0 _ Hv) as Hs.
  set (d := k1 / n1 - k2 / n2). set (s := sqrt _) in *.
  assert (Hd : d / s * s = d) by (field; lra).
  split_and!; [| | |done].
  - split; intros Hz.
    + assert (0 < d / s * s) by (apply Rmult_lt_0_compat; lra). unfold d in *; lra.
    + assert (0 < d) by (unfold d; lra). apply Rdiv_lt_0_compat; lra.
  - split; intros Hz.
    + assert (0 < - (d / s) * s) by (apply Rmult_lt_0_compat; lra). unfold d in *; lra.
    + assert (0 < - d) by (unfold d; lra).
      assert (0 < (- d) / s) by (apply Rdiv_lt_0_compat; lra).
      replace (d / s) with (- ((- d) / s)) by (field; lra). lra.
  - split; intros Hz.
    + rewrite Hz in Hd. unfold d in *; lra.
    + assert (d = 0) as -> by (unfold d; lra). field; lra.
Qed.

Lemma p_pool_counts k1 n1 k2 n2 :
  0 < n1 → 0 < n2 → p_pool k1 n1 k2 n2 = (k1 + k2) / (n1 + n2).
Proof.
  intros. unfold p_pool. rewrite (proj2 (truthy_true _)); [done | lra].
Qed.

(** X2 (two_prop_ztest).  On genuine counts, k successes out of n > 0 trials
    on both sides, the test reports the NaN pair exactly when nobody or
    everybody succeeded: k1 + k2 = 0 or k1 + k2 = n1 + n2. *)
Theorem two_prop_ztest_counts k1 n1 k2 n2 :
  0 <= k1 <= n1 → 0 <= k2 <= n2 → 0 < n1 → 0 < n2 →
  two_prop_ztest k1 n1 k2 n2 = Ok inapplicable
  ↔ k1 + k2 = 0 ∨ k1 + k2 = n1 + n2.
Proof.
  intros Hk1 Hk2 Hn1 Hn2. rewrite two_prop_ztest_value.
  transitivity (ztest_value k1 n1 k2 n2 = inapplicable).
  { split; [by intros [= ->] | by intros ->]. }
  rewrite ztest_value_inapplicable, standard_error_degenerate.
  unfold pooled_variance. rewrite p_pool_counts by done.
  set (q := (k1 + k2) / (n1 + n2)).
  assert (Hw : 0 < 1 / n1 + 1 / n2).
  { apply Rplus_lt_0_compat; apply Rdiv_lt_0_compat; lra. }
  assert (Hq : q * (n1 + n2) = k1 + k2) by (unfold q; field; lra).
  assert (Hq0 : 0 <= q).
  { unfold q, Rdiv. apply Rmult_le_pos; [lra|]. left. apply Rinv_0_lt_compat. lra. }
  assert (Hq1 : q <= 1).
  { destruct (Rle_dec q 1); [done|].
    assert (1 * (n1 + n2) < q * (n1 + n2)) by (apply Rmult_lt_compat_r; lra). lra. }
  split.
  - intros [?|[?|Hv]]; [lra | lra |].
    assert (Hz : q * (1 - q) <= 0).
    { destruct (Rle_dec (q * (1 - q)) 0); [done|].
      assert (0 < q * (1 - q) * (1 / n1 + 1 / n2)) by (apply Rmult_lt_0_compat; lra). lra. }
    assert (Hq' : q = 0 ∨ q = 1).
    { destruct (Req_dec_T q 0); [by left|]. destruct (Req_dec_T q 1); [by right|].
      assert (0 < q * (1 - q)) by (apply Rmult_lt_0_compat; lra). lra. }
    destruct Hq' as [E|E]; rewrite E in Hq; [left | right]; lra.
  - intros [E|E]; right; right.
    + assert (q = 0) as -> by (unfold q; rewrite E; field; lra). lra.
    + assert (q = 1) as -> by (unfold q; rewrite E; field; lra). lra.
Qed.
End ZTestMore.

Lemma two_prop_ztest_counts_witness :
  (two_prop_ztest (H := scipy_nan) 0 2 0 3 = Ok inapplicable
   ↔ (0 + 0 = 0 ∨ 0 + 0 = 2 + 3)%R).
Proof.
  apply (two_prop_ztest_counts (H := scipy_nan) 0 2 0 3); lra.
Defined.

Lemma two_prop_ztest_sign_witness :
  let z := ((1 / 2 - 0 / 2) / sqrt (pooled_variance 1 2 0 2))%R in
  ((0 < z ↔ 0 / 2 < 1 / 2)
  ∧ (z < 0 ↔ 1 / 2 < 0 / 2)
  ∧ (z = 0 ↔ 1 / 2 = 0 / 2)
  ∧ 2 * 0 = 2 * norm_sf (SciPy := scipy_nan) (Rabs z))%R.
Proof.
  intros z.
  apply (two_prop_ztest_sign (H := scipy_nan) 1 2 0 2 z (2 * 0)%R).
  rewrite two_prop_ztest_value, ztest_value_applicable; [reflexivity | lra | lra |].
  unfold pooled_variance. rewrite p_pool_counts by lra. lra.
Defined.


(** ** Order and size of the summary *)

Lemma insert_desc_descending {A} (key : A → Z) x l :
  descending key l → descending key (insert_desc key x l).
Proof.
  unfold descending. induction 1 as [|y l Hl IH Hy]; simpl.
  - repeat constructor.
  - destruct (key x <? key y) eqn:E.
    + constructor; [done|].
      rewrite insert_desc_Permutation. constructor; [lia|done].
    + constructor; [by constructor|].
      constructor; [lia|]. eapply Forall_impl; [exact Hy|]. simpl. lia.
Qed.

Lemma sort_desc_descending {A} (key : A → Z) l : descending key (sort_desc key l).
Proof.
  induction l as [|x l IH]; simpl; [constructor|]. by apply insert_desc_descending.
Qed.

Lemma descending_app {A} (key : A → Z) l1 l2 x y :
  descending key (l1 ++ l2) → x ∈ l1 → y ∈ l2 → key y ≤ key x.
Proof.
  unfold descending. induction l1 as [|a l1 IH]; simpl; intros Hs Hx Hy.
  - by apply elem_of_nil in Hx.
  - apply StronglySorted_inv in Hs as [Hs Ha].
    apply elem_of_cons in Hx as [->|Hx]; [|by apply IH].
    rewrite Forall_forall in Ha. apply Ha. apply elem_of_app. by right.
Qed.

Section SummaryShape.
Context `{SciPy}.

Lemma summary_rows_keys op oc kept results :
  Forall2 (λ g r, ∃ us, r = summary_row op oc g us) kept results →
  map segment_value results = map g_key kept
  ∧ map policies results = map g_policies kept.
Proof.
  induction 1 as [|g r l k (us & ->) _ [IH1 IH2]]; simpl; [done|].
  by rewrite IH1, IH2.
Qed.

Lemma groupby_agg_keys df group_col grp :
  groupby_agg df group_col = Ok grp →
  map g_key grp = groupby_keys (map (λ r, cell r group_col) (rows df)).
Proof.
  intros Hg. apply groupby_agg_inv in Hg as [_ Hg].
  induction Hg as [|name row l k Ha _ IH]; simpl; [done|].
  apply agg_group_inv in Ha as (-> & _). by rewrite IH.
Qed.

(** X3 (summarize_group).  The table comes back in descending order of
    policies, with or without a cap. *)
Theorem summarize_group_descending df group_col top_n out log :
  summarize_group df group_col top_n = (Ok out, log) →
  descending policies out.
Proof.
  intros Hs. apply summarize_group_inv in Hs as (grp & results & _ & _ & _ & ->).
  apply sort_desc_descending.
Qed.

(** X4 (summarize_group).  When no cap takes effect, the segment values of
    the table are the keys groupby forms: every segment value present in the
    frame heads exactly one row, and no row is headed by a missing value or by
    a value that is not in the frame. *)
Theorem summarize_group_segments df group_col top_n out log :
  summarize_group df group_col top_n = (Ok out, log) →
  cap_keeps_all df group_col top_n →
  map segment_value out ≡ₚ groupby_keys (map (λ r, cell r group_col) (rows df))
  ∧ (∀ r, r ∈ rows df → notna (cell r group_col) = true →
       nmatch (cell r group_col) (map segment_value out) = 1%nat)
  ∧ (∀ v, v ∈ map segment_value out →
       notna v = true ∧ v ∈ map (λ r, cell r group_col) (rows df)).
Proof.
  intros Hs Hcap.
  apply summarize_group_rows in Hs as (grp & results & Hg & Hperm & Hrows).
  apply summary_rows_keys in Hrows as [Hk _].
  assert (map segment_value out ≡ₚ groupby_keys (map (λ r, cell r group_col) (rows df)))
    as Hkeys.
  { rewrite Hperm, Hk, (keep_top_all _ _ _ _ Hg Hcap). by rewrite (groupby_agg_keys _ _ _ Hg). }
  split_and!; [done| |].
  - intros r Hr Hna. rewrite (nmatch_Permutation _ _ _ Hkeys), nmatch_groupby_keys.
    rewrite existsb_self; [done| |done]. apply list_elem_of_fmap. by exists r.
  - intros v Hv. rewrite Hkeys in Hv. apply groupby_keys_elem in Hv as [? ?]. done.
Qed.

(** X5 (summarize_group).  Under a cap top_n > 0 the table has
    min(top_n, number of groups) rows, and they are the groups with the most
    policies: a group that heads no row has at most as many policies as every
    row of the table. *)
Theorem summarize_group_cap df group_col n out log :
  0 < n →
  summarize_group df group_col (Some n) = (Ok out, log) →
  length out = Nat.min (Z.to_nat n) (n_groups df group_col)
  ∧ ∃ grp, groupby_agg df group_col = Ok grp
      ∧ ∀ g r, g ∈ grp → r ∈ out →
          g_key g ∉ map segment_value out → g_policies g ≤ policies r.
Proof.
  intros Hn Hs.
  apply summarize_group_rows in Hs as (grp & results & Hg & Hperm & Hrows).
  pose proof (Forall2_length _ _ _ Hrows) as Hlen.
  pose proof Hrows as Hrows'.
  apply summary_rows_keys in Hrows' as [Hk _].
  simpl in *. destruct (n =? 0) eqn:E0; [lia|].
  unfold head_n in *. destruct (0 <=? n) eqn:E1; [|lia].
  split.
  - rewrite (Permutation_length Hperm), <- Hlen, length_take.
    rewrite (Permutation_length (sort_desc_Permutation _ _)).
    by rewrite (groupby_agg_length _ _ _ Hg).
  - exists grp. split; [done|]. intros g r Hgin Hr Hkey.
    rewrite Hperm in Hr.
    destruct (Forall2_elem_of_r _ _ _ _ Hrows Hr) as (g' & Hg' & us & ->). simpl.
    apply (descending_app g_policies (take (Z.to_nat n) (sort_desc g_policies grp))
             (drop (Z.to_nat n) (sort_desc g_policies grp))); [|done|].
    + rewrite take_drop. apply sort_desc_descending.
    + assert (g ∈ sort_desc g_policies grp) as Hin by by rewrite sort_desc_Permutation.
      rewrite <- (take_drop (Z.to_nat n)) in Hin.
      apply elem_of_app in Hin as [Hin|Hin]; [|done].
      exfalso. apply Hkey. rewrite Hperm, Hk.
      apply list_elem_of_fmap. by exists g.
Qed.

(** X6 (summarize_group).  When the frame has one segment value only, the
    table has one row and its frequency comparison is not carried out: there
    is no rest to compare with, and z and p are NaN. *)
Theorem summarize_group_single df group_col top_n out log :
  summarize_group df group_col top_n = (Ok out, log) →
  n_groups df group_col = 1%nat →
  ∃ r, out = [r] ∧ z_freq_vs_rest r = None ∧ p_freq_vs_rest r = None.
Proof.
  intros Hs H1.
  apply summarize_group_inv in Hs as (grp & results & Hg & Hrows & Hne & ->).
  pose proof (groupby_agg_length _ _ _ Hg) as Hlen. unfold n_groups in H1.
  rewrite H1 in Hlen. destruct grp as [|g [|? ?]]; try done.
  assert (keep_top top_n [g] = [g]) as Hk.
  { assert (keep_top top_n [g] = [g] ∨ keep_top top_n [g] = []) as [Hk|Hk]; [|done|].
    - destruct top_n as [n|]; simpl; [|by left].
      destruct (n =? 0); [by left|]. unfold head_n.
      destruct (0 <=? n); simpl.
      + destruct (Z.to_nat n); simpl; [by right|left; by rewrite take_nil].
      + destruct (1 - Z.to_nat (- n))%nat; simpl; [by right|left; by rewrite take_nil].
    - rewrite Hk in Hrows. apply Forall2_nil_inv_l in Hrows. done. }
  rewrite Hk in Hrows.
  apply Forall2_cons_inv_l in Hrows as (r & results' & (lg & Hrow & _) & Hnil & ->).
  apply Forall2_nil_inv_l in Hnil as ->.
  exists r. split; [done|].
  apply summarize_row_inv in Hrow as (sg & sr & us & _ & _ & _ & ->).
  simpl. unfold freq_test, rest_n. simpl.
  replace (g_policies g + 0 - g_policies g) with 0 by lia. done.
Qed.

Lemma groupby_keys_nil keys :
  Forall (λ c, isna c = true) keys → groupby_keys keys = [].
Proof.
  intros Hk. unfold groupby_keys.
  assert (dropna keys = []) as ->; [|done].
  induction Hk as [|c l Hc _ IH]; simpl; [done|].
  unfold notna. by rewrite Hc.
Qed.

(** X7 (summarize_group).  Two ways the call fails before any test is run:
    a segment column that is not in the frame is a KeyError on its name, and a
    frame with the aggregated columns in which no row has a segment value, an
    empty frame in particular, is a KeyError on 'policies', raised when the
    empty result is sorted. *)
Theorem summarize_group_errors df group_col top_n :
  (has_column df group_col = false →
   summarize_group df group_col top_n = (Raise (KeyError group_col), []))
  ∧ (has_column df group_col = true → group_col ∉ aggregated →
     has_column df "TotalPremium" = true →
     has_column df "TotalClaims" = true →
     has_column df "ClaimOccurred" = true →
     forallb (λ r, isna (cell r group_col)) (rows df) = true →
     summarize_group df group_col top_n = (Raise (KeyError "policies"), [])).
Proof.
  split.
  - intros Hc. unfold summarize_group, groupby_agg, getcol. by rewrite Hc.
  - intros Hc _ Hp Hcl Ho Hna.
    unfold summarize_group, groupby_agg, getcol.
    rewrite Hc, Hp, Hcl, Ho. simpl.
    rewrite groupby_keys_nil
      by (apply Forall_fmap, Forall_forall; intros r Hr;
          rewrite forallb_forall in Hna; by apply Hna, list_elem_of_In).
    destruct (has_column df "PolicyID") eqn:Hid; rewrite ?Hid, ?Ho; simpl;
      destruct top_n as [n|]; simpl; try done;
      destruct (n =? 0); try done; unfold head_n; destruct (0 <=? n); simpl;
      by rewrite ?take_nil.
Qed.

Lemma sum_cells_defined l :
  forallb (λ c, negb (is_text c)) l = true → ∃ s, sum_cells l = Ok s.
Proof.
  induction l as [|c l IH]; simpl; [by eexists|].
  intros [Hc Hl]%andb_true_iff. destruct (IH Hl) as [s ->].
  destruct c; simpl in *; [done|by eexists..].
Qed.

Lemma column_total_numeric p df c :
  numeric_column df c = true → ∃ s, column_total (select_rows p df) c = Ok s.
Proof.
  intros [Hc Hn]%andb_true_iff. unfold column_total.
  rewrite getcol_select, Hc. simpl. apply sum_cells_defined.
  rewrite forallb_forall in Hn. apply forallb_forall. intros x Hx.
  apply in_map_iff in Hx as (r & <- & Hr). apply filter_In in Hr as [Hr _]. by apply Hn.
Qed.

Lemma numeric_has_column df c : numeric_column df c = true → has_column df c = true.
Proof. by intros [? _]%andb_true_iff. Qed.

Lemma groupby_agg_numeric df group_col :
  has_column df group_col = true →
  numeric_column df "TotalPremium" = true →
  numeric_column df "TotalClaims" = true →
  numeric_column df "ClaimOccurred" = true →
  ∃ grp, groupby_agg df group_col = Ok grp.
Proof.
  intros Hc Hp Hcl Ho. unfold groupby_agg, getcol. rewrite Hc.
  rewrite (numeric_has_column _ _ Hp), (numeric_has_column _ _ Hcl),
    (numeric_has_column _ _ Ho). simpl.
  assert (∀ name, ∃ row, agg_group df group_col name = Ok row) as Hagg.
  { intros name. unfold agg_group.
    assert (∃ n, policies_of df (group_rows df group_col name) = Ok n) as [n ->].
    { unfold policies_of, group_rows. rewrite !getcol_select.
      destruct (has_column df "PolicyID"); simpl; [by eexists|].
      rewrite (numeric_has_column _ _ Ho). by eexists. }
    destruct (column_total_numeric (λ r, cell_eqb (cell r group_col) name) _ _ Hp) as [tp Htp].
    destruct (column_total_numeric (λ r, cell_eqb (cell r group_col) name) _ _ Hcl) as [tc Htc].
    destruct (column_total_numeric (λ r, cell_eqb (cell r group_col) name) _ _ Ho) as [k Hk].
    unfold column_total, group_rows in *. simpl. rewrite Htp. simpl. rewrite Htc. simpl.
    rewrite Hk. simpl. by eexists. }
  assert (∀ l, ∃ grp, mapM (agg_group df group_col) l = Ok grp) as Hm.
  { induction l as [|name l [grp IH]]; simpl; [by eexists|].
    destruct (Hagg name) as [row ->]. simpl. rewrite IH. simpl. by eexists. }
  destruct (Hm (groupby_keys (map (λ r, cell r group_col) (rows df)))) as [grp Hgrp].
  exists grp. destruct (has_column df "PolicyID") eqn:Hid; rewrite ?Hid; simpl;
    rewrite ?(numeric_has_column _ _ Ho); simpl; done.
Qed.

(* with the groups formed and the severity column there, the loop and the
   final sort go through *)
Lemma summarize_group_total df group_col top_n grp :
  groupby_agg df group_col = Ok grp → grp ≠ [] →
  has_column df "ClaimSeverity" = true →
  (∀ n, top_n = Some n → 0 ≤ n) →
  ∃ out log, summarize_group df group_col top_n = (Ok out, log) ∧ out ≠ [].
Proof.
  intros Hg Hgrp Hsev Htop.
  assert (keep_top top_n grp ≠ []) as Hkept.
  { destruct top_n as [n|]; simpl; [|done].
    destruct (n =? 0) eqn:E0; [done|].
    specialize (Htop n eq_refl). unfold head_n.
    destruct (0 <=? n) eqn:E1; [|lia].
    intros Hnil. apply (f_equal length) in Hnil.
    rewrite length_take, (Permutation_length (sort_desc_Permutation _ _)) in Hnil.
    simpl in Hnil. destruct grp; [done|]. simpl in Hnil. lia. }
  destruct (mapM_M_total
    (summarize_row df group_col (sumZ (map g_policies grp))
       (sumQ (map g_claims_count grp))) (keep_top top_n grp)) as (results & log & Hm).
  { intros g _. by apply summarize_row_total. }
  assert (results ≠ []) as Hres.
  { apply mapM_M_Ok, Forall2_length in Hm. destruct (keep_top top_n grp), results; done. }
  exists (sort_desc policies results), log. split.
  - unfold summarize_group. rewrite Hg, M_lift_bind. rewrite Hm. simpl.
    destruct results; [done|]. simpl. by rewrite app_nil_r.
  - intros Hnil. apply Hres. apply Permutation_nil_r.
    rewrite <- Hnil. by rewrite sort_desc_Permutation.
Qed.

Lemma groups_nonempty df group_col grp r0 :
  groupby_agg df group_col = Ok grp →
  r0 ∈ rows df → notna (cell r0 group_col) = true → grp ≠ [].
Proof.
  intros Hg Hr0 Hna.
  pose proof (groupby_agg_length _ _ _ Hg) as Hlen.
  pose proof (nmatch_groupby_keys (cell r0 group_col)
                (map (λ r, cell r group_col) (rows df))) as Hm.
  rewrite existsb_self in Hm; [| apply list_elem_of_fmap; by exists r0 | done].
  intros ->. simpl in Hlen.
  destruct (groupby_keys (map (λ r, cell r group_col) (rows df))); done.
Qed.

(** X8 (summarize_group).  The call returns a table, with at least one row,
    whenever the frame has the segment column with a value present on some
    row, the columns TotalPremium, TotalClaims and ClaimOccurred without text
    in them, and the column ClaimSeverity, and top_n is absent or not
    negative; the segment column is not one of the aggregated columns.  A
    failure of scipy's Mann-Whitney routine does not change that. *)
Theorem summarize_group_succeeds df group_col top_n :
  has_column df group_col = true → group_col ∉ aggregated →
  numeric_column df "TotalPremium" = true →
  numeric_column df "TotalClaims" = true →
  numeric_column df "ClaimOccurred" = true →
  has_column df "ClaimSeverity" = true →
  existsb (λ r, notna (cell r group_col)) (rows df) = true →
  (∀ n, top_n = Some n → 0 ≤ n) →
  ∃ out log, summarize_group df group_col top_n = (Ok out, log) ∧ out ≠ [].
Proof.
  intros Hc _ Hp Hcl Ho Hsev Hex Htop.
  apply existsb_exists in Hex as (r0 & Hr0%list_elem_of_In & Hna).
  destruct (groupby_agg_numeric _ _ Hc Hp Hcl Ho) as [grp Hg].
  by apply (summarize_group_total _ _ _ _ Hg (groups_nonempty _ _ _ _ Hg Hr0 Hna) Hsev Htop).
Qed.
End SummaryShape.


(** ** The frequency baselines on a frame without missing segment values *)

Lemma sum_cells_no_text l s :
  sum_cells l = Ok s → forallb (λ c, negb (is_text c)) l = true.
Proof.
  revert s. induction l as [|c l IH]; simpl; intros s Hs; [done|].
  apply Res_bind_Ok in Hs as (x & Hx & Hs).
  apply Res_bind_Ok in Hs as (s' & Hs' & _).
  rewrite (IH _ Hs'). destruct c; simpl in *; done.
Qed.

Lemma count_sumQ {A} (g : A → Cell) l :
  (inject_Z (count (map g l)) == sumQ (map (λ x, if notna (g x) then 1 else 0) l))%Q.
Proof.
  unfold count, dropna. induction l as [|x l IH]; simpl; [done|].
  destruct (notna (g x)); simpl length.
  - rewrite Nat2Z.inj_succ, <- Z.add_1_l, inject_Z_plus, IH. done.
  - rewrite IH. ring.
Qed.

Lemma groupby_keys_cover c keys :
  c ∈ keys → notna c = true →
  ∃ name, name ∈ groupby_keys keys ∧ cell_eqb c name = true.
Proof.
  intros Hc Hna. pose proof (nmatch_groupby_keys c keys) as Hn.
  rewrite existsb_self in Hn by done. unfold nmatch in Hn.
  destruct (List.filter (cell_eqb c) (groupby_keys keys)) as [|name l] eqn:E; [done|].
  assert (In name (List.filter (cell_eqb c) (groupby_keys keys))) as Hin
    by (rewrite E; by left).
  apply filter_In in Hin as [Hin Heq]. exists name. split; [by apply list_elem_of_In|done].
Qed.

Lemma group_member df group_col grp g :
  groupby_agg df group_col = Ok grp → g ∈ grp →
  g_key g ∈ groupby_keys (map (λ r, cell r group_col) (rows df))
  ∧ agg_group df group_col (g_key g) = Ok g.
Proof.
  intros Hg Hin. apply groupby_agg_inv in Hg as [_ Hg].
  destruct (Forall2_elem_of_r _ _ _ _ Hg Hin) as (name & Hname & Ha).
  pose proof Ha as Ha'. apply agg_group_inv in Ha' as (-> & _). done.
Qed.

Lemma claims_column_no_text df group_col grp :
  groupby_agg df group_col = Ok grp →
  Forall (λ r, notna (cell r group_col) = true) (rows df) →
  numeric_column df "ClaimOccurred" = true.
Proof.
  intros Hg Hall. pose proof Hg as Hg'. apply groupby_agg_inv in Hg' as [_ Hf].
  unfold numeric_column. apply andb_true_iff. split.
  - unfold groupby_agg in Hg.
    apply Res_bind_Ok in Hg as (? & _ & Hg).
    apply Res_bind_Ok in Hg as (? & _ & Hg).
    apply Res_bind_Ok in Hg as (? & _ & Hg).
    apply Res_bind_Ok in Hg as (? & _ & Hg).
    apply Res_bind_Ok in Hg as (? & Ho & Hg).
    by apply getcol_Ok in Ho as [? _].
  - apply forallb_forall. intros r Hr. apply list_elem_of_In in Hr.
    rewrite Forall_forall in Hall.
    destruct (groupby_keys_cover (cell r group_col) (map (λ r, cell r group_col) (rows df)))
      as (name & Hname & Heq); [apply list_elem_of_fmap; by exists r | by apply Hall |].
    destruct (Forall2_elem_of_l _ _ _ _ Hf Hname) as (row & _ & Ha).
    apply agg_group_inv in Ha as (_ & _ & _ & _ & Hk).
    unfold column_total in Hk. apply Res_bind_Ok in Hk as (col & Hcol & Hs).
    apply sum_cells_no_text in Hs. unfold group_rows in Hcol.
    rewrite getcol_select in Hcol. destruct (has_column df "ClaimOccurred"); [|done].
    injection Hcol as <-. rewrite forallb_forall in Hs.
    apply (Hs (cell r "ClaimOccurred")). apply in_map_iff. exists r. split; [done|].
    apply filter_In. split; [by apply list_elem_of_In|done].
Qed.

(** X9 (summarize_group).  On a frame in which every row has a segment
    value, the baselines of the frequency comparison are those of the rows
    outside the group: rest_k is the sum of ClaimOccurred over
    df[df[group_col] != name], and, when policies are counted by rows (no
    PolicyID column), rest_n is the count of ClaimOccurred over those rows. *)
Theorem rest_baselines_without_missing df group_col grp g :
  groupby_agg df group_col = Ok grp → g ∈ grp →
  forallb (λ r, notna (cell r group_col)) (rows df) = true →
  (∃ s, column_total (rest_rows df group_col (g_key g)) "ClaimOccurred" = Ok s
        ∧ (rest_k (sumQ (map g_claims_count grp)) g == s)%Q)
  ∧ (has_column df "PolicyID" = false →
     rest_n (sumZ (map g_policies grp)) g
     = count (map (λ r, cell r "ClaimOccurred")
                (rows (rest_rows df group_col (g_key g))))).
Proof.
  intros Hg Hin Hb.
  assert (Forall (λ r, notna (cell r group_col) = true) (rows df)) as Hall.
  { apply Forall_forall. intros r Hr.
    apply (proj1 (forallb_forall _ _) Hb). by apply list_elem_of_In. }
  clear Hb.
  destruct (group_member _ _ _ _ Hg Hin) as [Hkey Hagg].
  assert (List.filter (λ r, notna (cell r group_col)) (rows df) = rows df) as Hfull.
  { apply filter_all. intros r Hr. rewrite Forall_forall in Hall. by apply Hall. }
  split.
  - destruct (column_total_numeric (λ r, cell_neqb (cell r group_col) (g_key g)) df
                "ClaimOccurred" (claims_column_no_text _ _ _ Hg Hall)) as [s Hs].
    exists s. split; [done|].
    apply column_total_select in Hs.
    pose proof (groups_total df group_col grp g_claims_count "ClaimOccurred" Hg) as Htot.
    rewrite Hfull in Htot.
    apply agg_group_inv in Hagg as (_ & _ & _ & _ & Hk).
    apply column_total_select in Hk.
    pose proof (sumQ_filter_split (λ r, cell_eqb (cell r group_col) (g_key g))
                  (col_value "ClaimOccurred") (rows df)) as Hsplit.
    unfold rest_k. rewrite Htot.
    + rewrite Hk, Hs, <- Hsplit. unfold cell_neqb. ring.
    + intros name row Ha. by apply agg_group_inv in Ha as (_ & _ & _ & _ & ?).
  - intros Hid.
    set (f := λ r : gmap string Cell, if notna (cell r "ClaimOccurred") then 1%Q else 0%Q).
    assert (∀ name row, agg_group df group_col name = Ok row →
      (inject_Z (g_policies row)
       == sumQ (map f (List.filter (λ r, cell_eqb (cell r group_col) name) (rows df))))%Q)
      as Hpol.
    { intros name row Ha. apply agg_group_inv in Ha as (_ & Hp & _).
      unfold policies_of in Hp. rewrite Hid in Hp.
      apply Res_fmap_Ok in Hp as (col & Hcol & ->).
      unfold group_rows in Hcol. rewrite getcol_select in Hcol.
      destruct (has_column df "ClaimOccurred"); [|done]. injection Hcol as <-.
      apply count_sumQ. }
    assert (inject_Z (sumZ (map g_policies grp)) == sumQ (map f (rows df)))%Q as Htot.
    { rewrite inject_Z_sumZ, map_map. rewrite <- Hfull at 1.
      rewrite <- (sumQ_groupby (λ r, cell r group_col) f (rows df)).
      symmetry. apply Forall2_sumQ.
      apply groupby_agg_inv in Hg as [_ Hg].
      eapply Forall2_impl; [exact Hg|]. simpl. intros name row Ha.
      symmetry. by apply Hpol. }
    apply inject_Z_injective. unfold rest_n.
    replace (sumZ (map g_policies grp) - g_policies g)
      with (sumZ (map g_policies grp) + - g_policies g) by lia.
    rewrite inject_Z_plus, inject_Z_opp, Htot, (Hpol _ _ Hagg).
    simpl. rewrite (count_sumQ (λ r, cell r "ClaimOccurred")).
    fold f.
    pose proof (sumQ_filter_split (λ r, cell_eqb (cell r group_col) (g_key g))
                  f (rows df)) as Hsplit.
    rewrite <- Hsplit. unfold cell_neqb. ring.
Qed.


(** ** What the normalizer computes *)

Lemma Py_bind_run {A B} (m : Py A) (f : A → Py B) h a h' :
  m h = (Ok a, h') → (m ≫= f) h = f a h'.
Proof. intros Hm. unfold mbind, Py_bind. by rewrite Hm. Qed.

Lemma Py_bind_raise {A B} (m : Py A) (f : A → Py B) h e h' :
  m h = (Raise e, h') → (m ≫= f) h = (Raise e, h').
Proof. intros Hm. unfold mbind, Py_bind. by rewrite Hm. Qed.

Lemma run_has_column l c h df :
  h !! l = Some df → py_has_column l c h = (Ok (has_column df c), h).
Proof. intros Hl. unfold py_has_column, mbind, Py_bind, deref. by rewrite Hl. Qed.

Lemma run_getcol l c h df :
  h !! l = Some df → py_getcol l c h = (getcol df c, h).
Proof. intros Hl. unfold py_getcol, mbind, Py_bind, deref. by rewrite Hl. Qed.

Lemma run_setcol l c values h df :
  h !! l = Some df → py_setcol l c values h = (Ok tt, <[l := setcol df c values]> h).
Proof. intros Hl. unfold py_setcol, mbind, Py_bind, deref. by rewrite Hl. Qed.

Lemma run_setcol_scalar l c v h df :
  h !! l = Some df →
  py_setcol_scalar l c v h = (Ok tt, <[l := setcol_scalar df c v]> h).
Proof. intros Hl. unfold py_setcol_scalar, mbind, Py_bind, deref. by rewrite Hl. Qed.

Lemma has_column_setcol df c values c' :
  has_column (setcol df c values) c' = has_column df c' || bool_decide (c' = c).
Proof.
  unfold setcol, has_column at 1 3. simpl.
  destruct (has_column df c) eqn:Hc; unfold has_column in Hc.
  - apply bool_decide_eq_true in Hc.
    destruct (decide (c' = c)) as [->|Hne].
    + rewrite !bool_decide_eq_true_2 by done. done.
    + rewrite (bool_decide_eq_false_2 (c' = c)) by done. by rewrite orb_false_r.
  - apply bool_decide_eq_false in Hc.
    destruct (decide (c' = c)) as [->|Hne].
    + rewrite (bool_decide_eq_true_2 (c = c)) by done. rewrite orb_true_r.
      apply bool_decide_eq_true_2. apply elem_of_app. right. by apply list_elem_of_singleton.
    + rewrite (bool_decide_eq_false_2 (c' = c)) by done. rewrite orb_false_r.
      apply bool_decide_ext. rewrite elem_of_app, list_elem_of_singleton. tauto.
Qed.

Lemma rows_setcol_by df c f :
  rows (setcol_by df c f) = map (λ r, <[c := f r]> r) (rows df).
Proof.
  unfold setcol_by, setcol. simpl.
  change (map f (rows df)) with (f <$> rows df).
  by rewrite zip_with_fmap_r, zip_with_diag.
Qed.

Lemma has_column_setcol_by df c f c' :
  has_column (setcol_by df c f) c' = has_column df c' || bool_decide (c' = c).
Proof. apply has_column_setcol. Qed.

Lemma cell_insert (r : gmap string Cell) c v c' :
  cell (<[c := v]> r) c' = if decide (c = c') then v else cell r c'.
Proof. unfold cell. rewrite lookup_insert. by destruct (decide (c = c')). Qed.

Section NormalizerValues.
Context `{Pandas}.

Lemma coerce_numeric_no_text c : is_text (coerce_numeric c) = false.
Proof. destruct c as [s| |]; simpl; [|done..]. by destruct (parse_number _). Qed.


(* one round of the coercion loop, run on the heap *)
Lemma run_coerce_round l c h df :
  h !! l = Some df →
  (present ← py_has_column l c;
   if (present : bool) then
     s ← py_getcol l c; py_setcol l c (map coerce_numeric s)
   else mret tt) h
  = (Ok tt, <[l := coerce_column df c]> h).
Proof.
  intros Hl. rewrite (Py_bind_run _ _ _ _ _ (run_has_column _ _ _ _ Hl)).
  unfold coerce_column. destruct (has_column df c) eqn:Hc.
  - rewrite (Py_bind_run _ _ _ (map (λ r, cell r c) (rows df)) h).
    + rewrite (run_setcol _ _ _ _ _ Hl). unfold setcol_by. by rewrite map_map.
    + rewrite (run_getcol _ _ _ _ Hl). unfold getcol. by rewrite Hc.
  - unfold mret, Py_ret. by rewrite insert_id.
Qed.

Lemma run_coerce_fields l h df :
  h !! l = Some df →
  coerce_fields l h = (Ok tt, <[l := foldl coerce_column df numeric_fields]> h).
Proof.
  intros Hl. unfold coerce_fields.
  assert (∀ cs h0 df0, h0 !! l = Some df0 →
    ∃ us, mapM (λ c, present ← py_has_column l c;
                    if (present : bool) then
                      s ← py_getcol l c; py_setcol l c (map coerce_numeric s)
                    else mret tt) cs h0
          = (Ok us, <[l := foldl coerce_column df0 cs]> h0)) as Hm.
  { induction cs as [|c cs IH]; intros h0 df0 H0; simpl.
    - exists []. unfold mret, Py_ret. by rewrite insert_id.
    - unfold mbind at 1, Py_bind at 1. rewrite (run_coerce_round _ _ _ _ H0).
      destruct (IH (<[l := coerce_column df0 c]> h0) (coerce_column df0 c)) as [us Hus];
        [apply lookup_insert_eq|].
      unfold mbind at 1, Py_bind at 1. rewrite Hus. rewrite insert_insert_eq.
      by eexists. }
  destruct (Hm numeric_fields h df Hl) as [us Hus].
  by rewrite (Py_bind_run _ _ _ _ _ Hus).
Qed.

Lemma has_column_coerce_column df c c' :
  has_column (coerce_column df c) c' = has_column df c'.
Proof.
  unfold coerce_column. destruct (has_column df c) eqn:Hc; [|done].
  rewrite has_column_setcol_by. destruct (decide (c' = c)) as [->|Hne].
  - by rewrite Hc.
  - by rewrite (bool_decide_eq_false_2 (c' = c)), orb_false_r.
Qed.

Lemma has_column_coerced df c :
  has_column (foldl coerce_column df numeric_fields) c = has_column df c.
Proof. simpl. by rewrite !has_column_coerce_column. Qed.


Lemma rows_coerce_column df0 df c :
  has_column df c = has_column df0 c →
  rows (coerce_column df c)
  = map (λ r, if has_column df0 c then <[c := coerce_numeric (cell r c)]> r else r) (rows df).
Proof.
  intros Hc. unfold coerce_column. rewrite Hc. destruct (has_column df0 c).
  - apply rows_setcol_by.
  - by rewrite map_id.
Qed.

Lemma rows_coerced df :
  rows (foldl coerce_column df numeric_fields) = map (coerce_row df) (rows df).
Proof.
  simpl.
  rewrite (rows_coerce_column df) by by rewrite !has_column_coerce_column.
  rewrite (rows_coerce_column df) by by rewrite !has_column_coerce_column.
  rewrite (rows_coerce_column df) by done.
  rewrite !map_map. done.
Qed.


Lemma cell_coerce_row_field df r c :
  c ∈ numeric_fields →
  cell (coerce_row df r) c
  = if has_column df c then coerce_numeric (cell r c) else cell r c.
Proof.
  intros Hc. unfold coerce_row, numeric_fields in *. simpl.
  repeat (apply elem_of_cons in Hc as [->|Hc]); [| | |by apply elem_of_nil in Hc];
    repeat match goal with
    | |- context [if has_column df ?a then _ else _] => destruct (has_column df a)
    end; rewrite ?cell_insert; simpl; done.
Qed.

End NormalizerValues.


Lemma zip_with_map_diag {A B C D} (f : B → C → D) (g : A → B) (k : A → C) l :
  zip_with f (map g l) (map k l) = map (λ x, f (g x) (k x)) l.
Proof. induction l as [|x l IH]; simpl; [done|]. by rewrite IH. Qed.

Section NormalizerSteps.
Context `{Pandas}.

Lemma no_text_setcol_by df c f c' :
  c ≠ c' → no_text df c' → no_text (setcol_by df c f) c'.
Proof.
  intros Hne Hn r Hr. rewrite rows_setcol_by in Hr.
  apply list_elem_of_fmap in Hr as (r0 & -> & Hr0).
  rewrite cell_insert. destruct (decide (c = c')); [done|]. by apply Hn.
Qed.

Lemma no_text_coerced df c :
  c ∈ numeric_fields → has_column df c = true →
  no_text (foldl coerce_column df numeric_fields) c.
Proof.
  intros Hc Hhas r Hr. rewrite rows_coerced in Hr.
  apply list_elem_of_fmap in Hr as (r0 & -> & Hr0).
  rewrite cell_coerce_row_field, Hhas by done. apply coerce_numeric_no_text.
Qed.

Lemma claim_occurred_no_text c :
  is_text c = false →
  claim_occurred c = Ok (Num (if has_claim c then 1 else 0)).
Proof.
  destruct c as [s|q|]; simpl; [done| |done]. intros _.
  unfold claim_occurred. simpl. by destruct (Qle_bool q 0).
Qed.

Lemma mapM_Res_map_on {A B} (f : A → Res B) (g : A → B) l :
  (∀ x, x ∈ l → f x = Ok (g x)) → mapM f l = Ok (map g l).
Proof.
  induction l as [|x l IH]; intros Hf; simpl; [done|].
  rewrite Hf by left. simpl. rewrite IH; [done|]. intros y Hy. apply Hf. by right.
Qed.

Lemma run_set_claim_occurred l h df :
  h !! l = Some df → has_column df "TotalClaims" = true → no_text df "TotalClaims" →
  set_claim_occurred l h = (Ok tt, <[l := setcol_by df "ClaimOccurred" occurred_of]> h).
Proof.
  intros Hl Hc Hn. unfold set_claim_occurred.
  rewrite (Py_bind_run _ _ _ (map (λ r, cell r "TotalClaims") (rows df)) h)
    by (rewrite (run_getcol _ _ _ _ Hl); unfold getcol; by rewrite Hc).
  rewrite (Py_bind_run _ _ _ (map occurred_of (rows df)) h).
  - by rewrite (run_setcol _ _ _ _ _ Hl).
  - unfold py_lift. f_equal. rewrite <- (map_map (λ r, cell r "TotalClaims")
      (λ c, Num (if has_claim c then 1 else 0))).
    apply mapM_Res_map_on. intros c Hc'.
    apply list_elem_of_fmap in Hc' as (r & -> & Hr).
    apply claim_occurred_no_text. by apply Hn.
Qed.

Lemma run_set_claim_occurred_missing l h df :
  h !! l = Some df → has_column df "TotalClaims" = false →
  set_claim_occurred l h = (Raise (KeyError "TotalClaims"), h).
Proof.
  intros Hl Hc. unfold set_claim_occurred.
  apply Py_bind_raise. rewrite (run_getcol _ _ _ _ Hl). unfold getcol. by rewrite Hc.
Qed.

Lemma run_set_claim_severity l h df :
  h !! l = Some df → has_column df "TotalClaims" = true →
  has_column df "ClaimOccurred" = true →
  set_claim_severity l h = (Ok tt, <[l := setcol_by df "ClaimSeverity" severity_of]> h).
Proof.
  intros Hl Hc Ho. unfold set_claim_severity.
  rewrite (Py_bind_run _ _ _ (map (λ r, cell r "TotalClaims") (rows df)) h)
    by (rewrite (run_getcol _ _ _ _ Hl); unfold getcol; by rewrite Hc).
  rewrite (Py_bind_run _ _ _ (map (λ r, cell r "ClaimOccurred") (rows df)) h)
    by (rewrite (run_getcol _ _ _ _ Hl); unfold getcol; by rewrite Ho).
  rewrite (run_setcol _ _ _ _ _ Hl). do 2 f_equal. unfold setcol_by. f_equal.
  unfold where_. rewrite map_map. apply zip_with_map_diag.
Qed.

Lemma run_set_claim_severity_missing l h df :
  h !! l = Some df → has_column df "TotalClaims" = false →
  set_claim_severity l h = (Raise (KeyError "TotalClaims"), h).
Proof.
  intros Hl Hc. unfold set_claim_severity.
  apply Py_bind_raise. rewrite (run_getcol _ _ _ _ Hl). unfold getcol. by rewrite Hc.
Qed.

Lemma sub_cell_no_text a b :
  is_text a = false → is_text b = false → sub_cell a b = Ok (difference a b).
Proof. by destruct a, b. Qed.

Lemma run_set_margin l h df :
  h !! l = Some df →
  has_column df "TotalPremium" = true → has_column df "TotalClaims" = true →
  no_text df "TotalPremium" → no_text df "TotalClaims" →
  set_margin l h = (Ok tt, <[l := setcol_by df "Margin" margin_of]> h).
Proof.
  intros Hl Hp Hc Hnp Hnc. unfold set_margin.
  rewrite (Py_bind_run _ _ _ (map (λ r, cell r "TotalPremium") (rows df)) h)
    by (rewrite (run_getcol _ _ _ _ Hl); unfold getcol; by rewrite Hp).
  rewrite (Py_bind_run _ _ _ (map (λ r, cell r "TotalClaims") (rows df)) h)
    by (rewrite (run_getcol _ _ _ _ Hl); unfold getcol; by rewrite Hc).
  rewrite (Py_bind_run _ _ _ (map margin_of (rows df)) h).
  - by rewrite (run_setcol _ _ _ _ _ Hl).
  - unfold py_lift, sub_series. f_equal.
    assert (zip (map (λ r, cell r "TotalPremium") (rows df))
                (map (λ r, cell r "TotalClaims") (rows df))
            = map (λ r, (cell r "TotalPremium", cell r "TotalClaims")) (rows df)) as ->.
    { apply zip_with_map_diag. }
    rewrite <- (map_map (λ r, (cell r "TotalPremium", cell r "TotalClaims"))
                  (λ p, difference p.1 p.2)).
    apply mapM_Res_map_on. intros p Hp'.
    apply list_elem_of_fmap in Hp' as (r & -> & Hr). simpl.
    apply sub_cell_no_text; [by apply Hnp | by apply Hnc].
Qed.

Lemma run_set_margin_missing l h df :
  h !! l = Some df → has_column df "TotalPremium" = false →
  set_margin l h = (Raise (KeyError "TotalPremium"), h).
Proof.
  intros Hl Hc. unfold set_margin.
  apply Py_bind_raise. rewrite (run_getcol _ _ _ _ Hl). unfold getcol. by rewrite Hc.
Qed.

(* prepare, run on a frame that has TotalClaims *)
Lemma prepare_run l h df :
  h !! l = Some df → has_column df "TotalClaims" = true →
  prepare l h = (Ok l, <[l := prepared df]> h).
Proof.
  intros Hl Hc. unfold prepare, prepared.
  set (d1 := foldl coerce_column df numeric_fields).
  assert (has_column d1 "TotalClaims" = true) as Hc1
    by (unfold d1; by rewrite has_column_coerced).
  assert (no_text d1 "TotalClaims") as Hn1.
  { apply no_text_coerced; [|done]. right. left. }
  rewrite (Py_bind_run _ _ _ _ _ (run_coerce_fields _ _ _ Hl)). fold d1.
  rewrite (Py_bind_run _ _ _ _ _ (run_has_column _ _ _ _ (lookup_insert_eq _ _ _))).
  rewrite Hc1.
  rewrite (Py_bind_run _ _ _ _ _
    (run_set_claim_occurred _ _ _ (lookup_insert_eq _ _ _) Hc1 Hn1)).
  rewrite insert_insert_eq.
  set (d2 := setcol_by d1 "ClaimOccurred" occurred_of).
  assert (has_column d2 "TotalClaims" = true) as Hc2
    by (unfold d2; by rewrite has_column_setcol_by, Hc1).
  assert (has_column d2 "ClaimOccurred" = true) as Ho2.
  { unfold d2. rewrite has_column_setcol_by, bool_decide_eq_true_2 by done.
    apply orb_true_r. }
  rewrite (Py_bind_run _ _ _ _ _
    (run_set_claim_severity _ _ _ (lookup_insert_eq _ _ _) Hc2 Ho2)).
  rewrite insert_insert_eq.
  set (d3 := setcol_by d2 "ClaimSeverity" severity_of).
  rewrite (Py_bind_run _ _ _ _ _ (run_has_column _ _ _ _ (lookup_insert_eq _ _ _))).
  assert (has_column d3 "TotalPremium" = has_column df "TotalPremium") as Hp3.
  { unfold d3, d2, d1. rewrite !has_column_setcol_by, has_column_coerced.
    rewrite !bool_decide_eq_false_2 by done. by rewrite !orb_false_r. }
  rewrite Hp3. destruct (has_column df "TotalPremium") eqn:Hp; simpl.
  - rewrite (Py_bind_run _ _ _ tt (<[l := setcol_by d3 "Margin" margin_of]> h)).
    + done.
    + rewrite (run_set_margin _ _ d3); [by rewrite insert_insert_eq | apply lookup_insert_eq
        | done | | |].
      * unfold d3. by rewrite has_column_setcol_by, Hc2.
      * unfold d3, d2. do 2 (apply no_text_setcol_by; [done|]).
        apply no_text_coerced; [|done]. left.
      * unfold d3, d2. by do 2 (apply no_text_setcol_by; [done|]).
  - rewrite (Py_bind_run _ _ _ tt (<[l := setcol_by d3 "Margin" (λ _, NaN)]> h)).
    + done.
    + rewrite (run_setcol_scalar _ _ _ _ d3); [by rewrite insert_insert_eq |
        apply lookup_insert_eq].
Qed.
End NormalizerSteps.


Section NormalizerRows.
Context `{Pandas}.

Lemma rows_prepared df :
  rows (prepared df)
  = map (λ r, derive_row (has_column df "TotalPremium") (coerce_row df r)) (rows df).
Proof.
  unfold prepared. rewrite !rows_setcol_by, rows_coerced, !map_map.
  apply map_ext. intros r. unfold derive_row.
  by destruct (has_column df "TotalPremium").
Qed.

Lemma derived_fields_decide c :
  bool_decide (c = "ClaimOccurred") || bool_decide (c = "ClaimSeverity")
    || bool_decide (c = "Margin")
  = bool_decide (c ∈ derived_fields).
Proof.
  unfold derived_fields.
  destruct (decide (c = "ClaimOccurred")) as [->|H1]; [done|].
  destruct (decide (c = "ClaimSeverity")) as [->|H2]; [done|].
  destruct (decide (c = "Margin")) as [->|H3]; [done|].
  rewrite !bool_decide_eq_false_2; [done| |done..].
  intros Hin. repeat (apply elem_of_cons in Hin as [?|Hin]; [done|]).
  by apply elem_of_nil in Hin.
Qed.

Lemma has_column_prepared df c :
  has_column (prepared df) c = has_column df c || bool_decide (c ∈ derived_fields).
Proof.
  unfold prepared. rewrite !has_column_setcol_by, has_column_coerced.
  rewrite <- derived_fields_decide. by rewrite !orb_assoc.
Qed.

Lemma derive_row_cells premium r :
  cell (derive_row premium r) "ClaimOccurred"
  = Num (if has_claim (cell r "TotalClaims") then 1 else 0)
  ∧ cell (derive_row premium r) "ClaimSeverity"
    = (if has_claim (cell r "TotalClaims") then cell r "TotalClaims" else NaN)
  ∧ cell (derive_row premium r) "Margin"
    = (if premium then difference (cell r "TotalPremium") (cell r "TotalClaims") else NaN)
  ∧ (∀ c, c ∉ derived_fields → cell (derive_row premium r) c = cell r c).
Proof.
  unfold derive_row, severity_of, margin_of, occurred_of.
  split_and!.
  - by rewrite !cell_insert.
  - rewrite !cell_insert. simpl. by destruct (has_claim (cell r "TotalClaims")).
  - rewrite !cell_insert. simpl. done.
  - intros c Hc.
    assert (c ≠ "ClaimOccurred" ∧ c ≠ "ClaimSeverity" ∧ c ≠ "Margin") as (H1 & H2 & H3).
    { split_and!; intros ->; apply Hc; [left | right; left | do 2 right; left]. }
    rewrite !cell_insert. by repeat case_decide.
Qed.

(** X10 (prepare).  Handed a frame with a TotalClaims column, prepare
    returns that frame, now with the three derived columns, and row by row:
    TotalClaims (and TotalPremium, if it is a column) read as a number or
    NaN; ClaimOccurred 1 where the claim amount is above zero and 0 elsewhere,
    a missing amount included; ClaimSeverity the claim amount where
    ClaimOccurred is 1 and NaN elsewhere; Margin premium minus claims, NaN
    when either is missing or when there is no TotalPremium column. *)
Theorem prepare_derives l h df :
  h !! l = Some df → has_column df "TotalClaims" = true →
  ∃ df', prepare l h = (Ok l, <[l := df']> h)
    ∧ (∀ c, has_column df' c = has_column df c || bool_decide (c ∈ derived_fields))
    ∧ Forall2 (derived_from (has_column df "TotalPremium")) (rows df) (rows df').
Proof.
  intros Hl Hc. exists (prepared df). split_and!.
  - by apply prepare_run.
  - apply has_column_prepared.
  - rewrite rows_prepared. apply Forall2_fmap_r, Forall_Forall2_diag, Forall_forall.
    intros r _. cbv beta delta [derived_from compose] zeta.
    destruct (derive_row_cells (has_column df "TotalPremium") (coerce_row df r))
      as (Ho & Hs & Hm & Hother).
    rewrite Ho, Hs, Hm, !Hother.
    + rewrite (cell_coerce_row_field df r "TotalClaims"), Hc by (right; left).
      split_and!; try done.
      * intros Hp. by rewrite (cell_coerce_row_field df r "TotalPremium"), Hp by left.
      * destruct (has_column df "TotalPremium") eqn:Hp; [|done].
        by rewrite (cell_coerce_row_field df r "TotalPremium"), Hp by left.
    + unfold derived_fields. intros Hin.
      repeat (apply elem_of_cons in Hin as [?|Hin]; [done|]). by apply elem_of_nil in Hin.
    + unfold derived_fields. intros Hin.
      repeat (apply elem_of_cons in Hin as [?|Hin]; [done|]). by apply elem_of_nil in Hin.
Qed.

(** X11 (prepare).  Handed a frame without a TotalClaims column, prepare
    raises KeyError('TotalClaims') at the severity line, after it has written
    a ClaimOccurred column of zeros into the caller's frame; no other column
    is added. *)
Theorem prepare_without_claims l h df :
  h !! l = Some df → has_column df "TotalClaims" = false →
  ∃ df', prepare l h = (Raise (KeyError "TotalClaims"), <[l := df']> h)
    ∧ has_column df' "ClaimOccurred" = true
    ∧ Forall (λ r, cell r "ClaimOccurred" = Num 0) (rows df')
    ∧ length (rows df') = length (rows df)
    ∧ (∀ c, c ≠ "ClaimOccurred" → has_column df' c = has_column df c).
Proof.
  intros Hl Hc.
  set (d1 := foldl coerce_column df numeric_fields).
  exists (setcol_by d1 "ClaimOccurred" (λ _, Num 0)).
  assert (has_column d1 "TotalClaims" = false) as Hc1
    by (unfold d1; by rewrite has_column_coerced).
  split_and!.
  - unfold prepare.
    rewrite (Py_bind_run _ _ _ _ _ (run_coerce_fields _ _ _ Hl)). fold d1.
    rewrite (Py_bind_run _ _ _ _ _ (run_has_column _ _ _ _ (lookup_insert_eq _ _ _))).
    rewrite Hc1.
    rewrite (Py_bind_run _ _ _ _ _ (run_setcol_scalar _ _ _ _ _ (lookup_insert_eq _ _ _))).
    rewrite insert_insert_eq.
    apply Py_bind_raise. apply run_set_claim_severity_missing with
      (df := setcol_by d1 "ClaimOccurred" (λ _, Num 0)); [apply lookup_insert_eq|].
    rewrite has_column_setcol_by, Hc1. done.
  - rewrite has_column_setcol_by, bool_decide_eq_true_2 by done. apply orb_true_r.
  - rewrite rows_setcol_by. apply Forall_fmap, Forall_forall. intros r _. simpl.
    rewrite cell_insert. by case_decide.
  - rewrite rows_setcol_by, length_map. unfold d1. by rewrite rows_coerced, length_map.
  - intros c Hne. rewrite has_column_setcol_by, bool_decide_eq_false_2, orb_false_r by done.
    unfold d1. apply has_column_coerced.
Qed.
End NormalizerRows.


Section NormalizerTwice.
Context `{Pandas}.















Lemma prepare_run_missing l h df :
  h !! l = Some df → has_column df "TotalClaims" = false →
  prepare l h
  = (Raise (KeyError "TotalClaims"),
     <[l := setcol_by (foldl coerce_column df numeric_fields) "ClaimOccurred"
              (λ _, Num 0)]> h).
Proof.
  intros Hl Hc.
  set (d1 := foldl coerce_column df numeric_fields).
  assert (has_column d1 "TotalClaims" = false) as Hc1
    by (unfold d1; by rewrite has_column_coerced).
  unfold prepare.
  rewrite (Py_bind_run _ _ _ _ _ (run_coerce_fields _ _ _ Hl)). fold d1.
  rewrite (Py_bind_run _ _ _ _ _ (run_has_column _ _ _ _ (lookup_insert_eq _ _ _))).
  rewrite Hc1.
  rewrite (Py_bind_run _ _ _ _ _ (run_setcol_scalar _ _ _ _ _ (lookup_insert_eq _ _ _))).
  rewrite insert_insert_eq.
  apply Py_bind_raise. apply run_set_claim_severity_missing with
    (df := setcol_by d1 "ClaimOccurred" (λ _, Num 0)); [apply lookup_insert_eq|].
  rewrite has_column_setcol_by, Hc1. done.
Qed.


(** ** results_tables.load_data *)

Lemma load_data_read_error p h e :
  read_csv (path_text p) (separator p) = Raise e → load_data p h = (Raise e, h).
Proof.
  intros Hr. unfold load_data. apply Py_bind_raise. fold (separator p). by rewrite Hr.
Qed.

(* the steps of load_data up to the coercion loop *)
Lemma load_data_steps p h frame :
  read_csv (path_text p) (separator p) = Ok frame →
  load_data p h
  = (_ ← set_claim_occurred (fresh (dom h));
     _ ← set_margin (fresh (dom h));
     _ ← set_claim_severity (fresh (dom h));
     mret (fresh (dom h)))
      (<[fresh (dom h) := foldl coerce_column (strip_columns frame) numeric_fields]> h).
Proof.
  intros Hr. unfold load_data. fold (separator p).
  rewrite (Py_bind_run _ _ _ frame h) by (unfold py_lift; by rewrite Hr).
  rewrite (Py_bind_run _ _ _ (fresh (dom h)) (<[fresh (dom h) := frame]> h)) by done.
  rewrite (Py_bind_run _ _ _ frame (<[fresh (dom h) := frame]> h))
    by (unfold deref; by rewrite lookup_insert_eq).
  rewrite (Py_bind_run _ _ _ tt (<[fresh (dom h) := strip_columns frame]> h))
    by (unfold assign; by rewrite insert_insert_eq).
  rewrite (Py_bind_run _ _ _ _ _ (run_coerce_fields _ _ _ (lookup_insert_eq _ _ _))).
  by rewrite insert_insert_eq.
Qed.

Lemma load_data_run p h frame :
  read_csv (path_text p) (separator p) = Ok frame →
  has_column (strip_columns frame) "TotalClaims" = true →
  has_column (strip_columns frame) "TotalPremium" = true →
  load_data p h = (Ok (fresh (dom h)), <[fresh (dom h) := loaded frame]> h).
Proof.
  intros Hr Hc Hp. rewrite (load_data_steps _ _ _ Hr). unfold loaded.
  set (l := fresh (dom h)).
  set (d1 := foldl coerce_column (strip_columns frame) numeric_fields).
  assert (has_column d1 "TotalClaims" = true) as Hc1
    by (unfold d1; by rewrite has_column_coerced).
  assert (has_column d1 "TotalPremium" = true) as Hp1
    by (unfold d1; by rewrite has_column_coerced).
  assert (no_text d1 "TotalClaims") as Hn1 by (apply no_text_coerced; [right; left|done]).
  assert (no_text d1 "TotalPremium") as Hn2 by (apply no_text_coerced; [left|done]).
  rewrite (Py_bind_run _ _ _ _ _
    (run_set_claim_occurred _ _ _ (lookup_insert_eq _ _ _) Hc1 Hn1)).
  rewrite insert_insert_eq.
  set (d2 := setcol_by d1 "ClaimOccurred" occurred_of).
  rewrite (Py_bind_run _ _ _ tt (<[l := setcol_by d2 "Margin" margin_of]> h)).
  2:{ rewrite (run_set_margin _ _ d2); [by rewrite insert_insert_eq | apply lookup_insert_eq
        | | | |]; unfold d2.
      - by rewrite has_column_setcol_by, Hp1.
      - by rewrite has_column_setcol_by, Hc1.
      - by apply no_text_setcol_by.
      - by apply no_text_setcol_by. }
  set (d3 := setcol_by d2 "Margin" margin_of).
  rewrite (Py_bind_run _ _ _ tt (<[l := setcol_by d3 "ClaimSeverity" severity_of]> h)).
  2:{ rewrite (run_set_claim_severity _ _ d3); [by rewrite insert_insert_eq
        | apply lookup_insert_eq | |]; unfold d3, d2.
      - by rewrite !has_column_setcol_by, Hc1.
      - rewrite !has_column_setcol_by. rewrite (bool_decide_eq_true_2 (_ = "ClaimOccurred")) by done.
        by rewrite orb_true_r. }
  done.
Qed.

Lemma rows_loaded frame :
  rows (loaded frame) = rows (prepared (strip_columns frame)) ∨
  has_column (strip_columns frame) "TotalPremium" = false.
Proof.
  destruct (has_column (strip_columns frame) "TotalPremium") eqn:Hp; [left|by right].
  rewrite rows_prepared, Hp. unfold loaded.
  rewrite !rows_setcol_by, rows_coerced, !map_map. apply map_ext. intros r.
  unfold derive_row, severity_of, margin_of. rewrite !cell_insert. simpl.
  by rewrite insert_insert_ne.
Qed.

(** X13 (load_data, prepare).  When the file has the TotalClaims and
    TotalPremium columns, results_tables.load_data returns a reference that
    was not in the heap, to a frame with the same rows, cell for cell, and the
    same columns as the frame stat_tests.prepare makes of the frame read from
    the file with its column names stripped. *)
Theorem load_data_agrees_with_prepare p h frame l0 h0 :
  read_csv (path_text p) (separator p) = Ok frame →
  has_column (strip_columns frame) "TotalClaims" = true →
  has_column (strip_columns frame) "TotalPremium" = true →
  h0 !! l0 = Some (strip_columns frame) →
  ∃ l df df',
    load_data p h = (Ok l, <[l := df]> h) ∧ h !! l = None
    ∧ prepare l0 h0 = (Ok l0, <[l0 := df']> h0)
    ∧ rows df = rows df'
    ∧ ∀ c, has_column df c = has_column df' c.
Proof.
  intros Hr Hc Hp Hl.
  exists (fresh (dom h)), (loaded frame), (prepared (strip_columns frame)).
  split_and!.
  - by apply load_data_run.
  - apply not_elem_of_dom, is_fresh.
  - by apply prepare_run.
  - destruct (rows_loaded frame) as [?|E]; [done|]. by rewrite Hp in E.
  - intros c. unfold loaded, prepared. rewrite !has_column_setcol_by.
    by destruct (has_column _ c), (bool_decide (c = "ClaimOccurred")),
      (bool_decide (c = "Margin")), (bool_decide (c = "ClaimSeverity")).
Qed.

Lemma load_data_missing_claims p h frame :
  read_csv (path_text p) (separator p) = Ok frame →
  has_column (strip_columns frame) "TotalClaims" = false →
  (load_data p h).1 = Raise (KeyError "TotalClaims").
Proof.
  intros Hr Hc. rewrite (load_data_steps _ _ _ Hr).
  erewrite Py_bind_raise; [done|].
  apply run_set_claim_occurred_missing with
    (df := foldl coerce_column (strip_columns frame) numeric_fields);
    [apply lookup_insert_eq | by rewrite has_column_coerced].
Qed.

Lemma load_data_missing_premium p h frame :
  read_csv (path_text p) (separator p) = Ok frame →
  has_column (strip_columns frame) "TotalClaims" = true →
  has_column (strip_columns frame) "TotalPremium" = false →
  (load_data p h).1 = Raise (KeyError "TotalPremium").
Proof.
  intros Hr Hc Hp. rewrite (load_data_steps _ _ _ Hr).
  set (d1 := foldl coerce_column (strip_columns frame) numeric_fields).
  assert (has_column d1 "TotalClaims" = true) as Hc1
    by (unfold d1; by rewrite has_column_coerced).
  rewrite (Py_bind_run _ _ _ _ _ (run_set_claim_occurred _ _ _
    (lookup_insert_eq _ _ _) Hc1 (no_text_coerced _ _ ltac:(right; left) Hc))).
  rewrite insert_insert_eq.
  erewrite Py_bind_raise; [done|].
  apply run_set_margin_missing with (df := setcol_by d1 "ClaimOccurred" occurred_of);
    [apply lookup_insert_eq|].
  unfold d1. by rewrite has_column_setcol_by, has_column_coerced, Hp.
Qed.

(** X14 (load_data).  results_tables.load_data has no guard on its columns:
    an exception of read_csv comes out unchanged and leaves the heap as it
    was, a file without TotalClaims is a KeyError on that name, and a file
    with TotalClaims but without TotalPremium is a KeyError on
    'TotalPremium'. *)
Theorem load_data_errors p h :
  (∀ e, read_csv (path_text p) (separator p) = Raise e → load_data p h = (Raise e, h))
  ∧ (∀ frame, read_csv (path_text p) (separator p) = Ok frame →
       has_column (strip_columns frame) "TotalClaims" = false →
       (load_data p h).1 = Raise (KeyError "TotalClaims"))
  ∧ (∀ frame, read_csv (path_text p) (separator p) = Ok frame →
       has_column (strip_columns frame) "TotalClaims" = true →
       has_column (strip_columns frame) "TotalPremium" = false →
       (load_data p h).1 = Raise (KeyError "TotalPremium")).
Proof.
  split_and!.
  - intros e. apply load_data_read_error.
  - intros frame. apply load_data_missing_claims.
  - intros frame. apply load_data_missing_premium.
Qed.
End NormalizerTwice.


(** ** The normalizer establishes what the aggregator needs *)

Section Pipeline.
Context `{SciPy} `{Pandas}.

Lemma numeric_column_intro df c :
  has_column df c = true → no_text df c → numeric_column df c = true.
Proof.
  intros Hc Hn. unfold numeric_column. rewrite Hc. simpl.
  apply forallb_forall. intros r Hr. rewrite Hn; [done|]. by apply list_elem_of_In.
Qed.

Lemma no_text_setcol_by_same df c f :
  (∀ r, is_text (f r) = false) → no_text (setcol_by df c f) c.
Proof.
  intros Hf r Hr. rewrite rows_setcol_by in Hr.
  apply list_elem_of_fmap in Hr as (r0 & -> & Hr0).
  rewrite cell_insert. by destruct (decide (c = c)).
Qed.

Lemma loaded_columns frame :
  has_column (strip_columns frame) "TotalClaims" = true →
  has_column (strip_columns frame) "TotalPremium" = true →
  numeric_column (loaded frame) "TotalPremium" = true
  ∧ numeric_column (loaded frame) "TotalClaims" = true
  ∧ numeric_column (loaded frame) "ClaimOccurred" = true
  ∧ has_column (loaded frame) "ClaimSeverity" = true.
Proof.
  intros Hc Hp. unfold loaded.
  set (d1 := foldl coerce_column (strip_columns frame) numeric_fields).
  assert (no_text d1 "TotalClaims") as Hn1 by (apply no_text_coerced; [right; left|done]).
  assert (no_text d1 "TotalPremium") as Hn2 by (apply no_text_coerced; [left|done]).
  split_and!.
  - apply numeric_column_intro.
    + rewrite !has_column_setcol_by. unfold d1. by rewrite has_column_coerced, Hp.
    + by do 3 (apply no_text_setcol_by; [done|]).
  - apply numeric_column_intro.
    + rewrite !has_column_setcol_by. unfold d1. by rewrite has_column_coerced, Hc.
    + by do 3 (apply no_text_setcol_by; [done|]).
  - apply numeric_column_intro.
    + rewrite !has_column_setcol_by. rewrite (bool_decide_eq_true_2 (_ = "ClaimOccurred")) by done.
      by rewrite orb_true_r.
    + do 2 (apply no_text_setcol_by; [done|]). by apply no_text_setcol_by_same.
  - rewrite has_column_setcol_by, (bool_decide_eq_true_2 (_ = "ClaimSeverity")) by done.
    apply orb_true_r.
Qed.

(** X23 (load_data, summarize_group).  On the frame load_data builds from a
    file with the TotalClaims and TotalPremium columns, summarize_group
    returns a table for every segment column of the frame that has a value on
    some row, under any cap that is absent or not negative: the normalizer
    leaves no text in the amount columns and adds the indicator and the
    severity the aggregator reads. *)
Theorem summarize_group_on_loaded frame group_col top_n :
  has_column (strip_columns frame) "TotalClaims" = true →
  has_column (strip_columns frame) "TotalPremium" = true →
  has_column (loaded frame) group_col = true → group_col ∉ aggregated →
  existsb (λ r, notna (cell r group_col)) (rows (loaded frame)) = true →
  (∀ n, top_n = Some n → 0 ≤ n) →
  ∃ out log, summarize_group (loaded frame) group_col top_n = (Ok out, log) ∧ out ≠ [].
Proof.
  intros Hc Hp Hg Hagg Hex Htop.
  apply existsb_exists in Hex as (r0 & Hr0%list_elem_of_In & Hna).
  destruct (loaded_columns frame Hc Hp) as (Hn1 & Hn2 & Hn3 & Hsev).
  destruct (groupby_agg_numeric _ _ Hg Hn1 Hn2 Hn3) as [grp Hgrp].
  pose proof (groups_nonempty _ _ _ _ Hgrp Hr0 Hna) as Hne.
  by apply (summarize_group_total _ _ _ _ Hgrp Hne Hsev Htop).
Qed.
End Pipeline.


(** ** The most frequent postal codes *)

Lemma nmatch_pos c l : (0 < nmatch c l)%nat → ∃ x, x ∈ l ∧ cell_eqb c x = true.
Proof.
  unfold nmatch. intros Hn.
  destruct (List.filter (cell_eqb c) l) as [|x l'] eqn:E; [simpl in Hn; lia|].
  assert (In x (List.filter (cell_eqb c) l)) as Hin by (rewrite E; by left).
  apply filter_In in Hin as [Hin Heq]. exists x. split; [by apply list_elem_of_In|done].
Qed.

Lemma unique_cover c l :
  c ∈ l → notna c = true → ∃ v, v ∈ unique l ∧ cell_eqb c v = true.
Proof.
  intros Hc Hna. apply nmatch_pos. rewrite nmatch_unique, existsb_self by done. lia.
Qed.

Lemma nmatch_sublist c l l' : l `sublist_of` l' → (nmatch c l ≤ nmatch c l')%nat.
Proof.
  unfold nmatch. induction 1 as [|x l l' _ IH|x l l' _ IH]; simpl; [done| |].
  - destruct (cell_eqb c x); simpl; lia.
  - destruct (cell_eqb c x); simpl; lia.
Qed.

Lemma nmatch_congr c v l : cell_eqb c v = true → nmatch c l = nmatch v l.
Proof.
  intros Hcv. unfold nmatch. f_equal. apply filter_ext. intros x.
  by apply cell_eqb_congr_l.
Qed.

Lemma isin_existsb zips c : isin zips c = existsb (cell_eqb c) zips.
Proof. done. Qed.

(** X15 (run_tests, top_zips).  The postal codes the tests run on are at
    most ten, each is a code present in the frame and none is listed twice,
    and they are the most frequent ones: a code that is left out occurs at
    most as often as every code that is kept. *)
Theorem top_zips_most_frequent df zips :
  top_zips df = Ok zips →
  (length zips ≤ 10)%nat
  ∧ (∀ z, z ∈ zips →
       notna z = true ∧ z ∈ map (λ r, cell r "PostalCode") (rows df))
  ∧ (∀ c, nmatch c zips ≤ 1)%nat
  ∧ (∀ z r, z ∈ zips → r ∈ rows df →
       notna (cell r "PostalCode") = true →
       isin zips (cell r "PostalCode") = false →
       (nmatch (cell r "PostalCode") (map (λ r, cell r "PostalCode") (rows df))
        ≤ nmatch z (map (λ r, cell r "PostalCode") (rows df)))%nat).
Proof.
  unfold top_zips. intros Hz. apply Res_bind_Ok in Hz as (codes & Hc & [= <-]).
  apply getcol_Ok in Hc as [_ ->].
  set (col := map (λ r, cell r "PostalCode") (rows df)).
  set (pairs := map (λ v, (v, Z.of_nat (length (List.filter (cell_eqb v) col))))
                  (unique (dropna col))).
  unfold nlargest, value_counts. fold pairs.
  set (S := sort_desc snd (sort_desc snd pairs)).
  assert (S ≡ₚ pairs) as HS by (unfold S; by rewrite !sort_desc_Permutation).
  assert (map fst pairs = unique (dropna col)) as Hfst.
  { unfold pairs. rewrite map_map. simpl. apply map_id. }
  assert (∀ p, p ∈ S → p.2 = Z.of_nat (nmatch p.1 col) ∧ p.1 ∈ unique (dropna col)) as Hp.
  { intros p Hin. rewrite HS in Hin. unfold pairs in Hin.
    apply list_elem_of_fmap in Hin as (v & -> & Hv). done. }
  split_and!.
  - rewrite length_map, length_take. lia.
  - intros z Hin. apply list_elem_of_fmap in Hin as (p & -> & Hin).
    apply (sublist_subseteq _ _ (sublist_take _ _)) in Hin.
    apply Hp in Hin as [_ Hin]. apply unique_subseteq in Hin.
    unfold dropna in Hin. apply list_elem_of_In, filter_In in Hin as [Hin Hna].
    split; [done|by apply list_elem_of_In].
  - intros c.
    etransitivity; [apply (nmatch_sublist c _ (map fst S))|].
    { change (map fst (take 10 S)) with (fst <$> take 10 S).
      rewrite fmap_take. apply sublist_take. }
    rewrite (nmatch_Permutation _ _ _ (Permutation_map fst HS)), Hfst, nmatch_unique.
    destruct (existsb _ _); lia.
  - intros z r Hin Hr Hna Hout.
    apply list_elem_of_fmap in Hin as (pz & -> & Hin).
    destruct (unique_cover (cell r "PostalCode") (dropna col)) as (v & Hv & Hcv); [|done|].
    { unfold dropna. apply list_elem_of_In, filter_In. split; [|done].
      apply list_elem_of_In, list_elem_of_fmap. by exists r. }
    set (pv := (v, Z.of_nat (length (List.filter (cell_eqb v) col)))).
    assert (pv ∈ S) as Hpv.
    { rewrite HS. unfold pairs. apply list_elem_of_fmap. by exists v. }
    rewrite <- (take_drop 10 S) in Hpv. apply elem_of_app in Hpv as [Hpv|Hpv].
    { exfalso. rewrite isin_existsb in Hout.
      assert (existsb (cell_eqb (cell r "PostalCode")) (map fst (take 10 S)) = true) as E.
      { apply existsb_exists. exists v. split; [|done].
        apply list_elem_of_In, list_elem_of_fmap. by exists pv. }
      by rewrite E in Hout. }
    pose proof (descending_app snd (take 10 S) (drop 10 S) pz pv) as Hle.
    rewrite take_drop in Hle. specialize (Hle (sort_desc_descending _ _) Hin Hpv).
    apply (sublist_subseteq _ _ (sublist_take _ _)) in Hin.
    apply Hp in Hin as [Hcount _]. rewrite Hcount in Hle. simpl in Hle.
    rewrite (nmatch_congr _ v) by done. unfold nmatch at 1. lia.
Qed.


(** ** The contingency table *)

Lemma full_table_pairs df group_col :
  zip (fillna (Str "MISSING") (map (λ r, cell r group_col) (rows df)))
      (map (λ r, cell r "ClaimOccurred") (rows df))
  = map (λ r, (category group_col r, cell r "ClaimOccurred")) (rows df).
Proof. unfold fillna. rewrite map_map. apply zip_with_map_diag. Qed.

Lemma category_notna group_col r : notna (category group_col r) = true.
Proof. unfold category. by destruct (cell r group_col). Qed.

Lemma cell_eqb_Str s x : cell_eqb (Str s) x = true → x = Str s.
Proof. destruct x as [t| |]; simpl; try done. by intros ->%String.eqb_eq. Qed.

(** X16 (chi2_test_frequency).  Every row with a claim indicator is counted
    under exactly one row and one column of the contingency table: the row of
    its segment value, or of "MISSING" when it has none, and the column of its
    indicator.  The table has a "MISSING" row exactly when some row with an
    indicator has no segment value, or has the text MISSING for one. *)
Theorem chi2_categories df group_col :
  (∀ r, r ∈ rows df → notna (cell r "ClaimOccurred") = true →
     nmatch (category group_col r) (ct_index (full_table df group_col)) = 1%nat
     ∧ nmatch (cell r "ClaimOccurred") (ct_columns (full_table df group_col)) = 1%nat)
  ∧ (Str "MISSING" ∈ ct_index (full_table df group_col)
     ↔ ∃ r, r ∈ rows df ∧ notna (cell r "ClaimOccurred") = true
          ∧ (isna (cell r group_col) = true ∨ cell r group_col = Str "MISSING")).
Proof.
  unfold full_table, crosstab. rewrite full_table_pairs. simpl.
  set (pairs := List.filter _ _).
  assert (∀ r, r ∈ rows df → notna (cell r "ClaimOccurred") = true →
            (category group_col r, cell r "ClaimOccurred") ∈ pairs) as Hin.
  { intros r Hr Hna. unfold pairs. apply list_elem_of_In, filter_In. split.
    - apply list_elem_of_In, list_elem_of_fmap. by exists r.
    - simpl. by rewrite category_notna, Hna. }
  split.
  - intros r Hr Hna. rewrite !nmatch_groupby_keys.
    rewrite !existsb_self; [done| | |..]; try done.
    + apply list_elem_of_fmap. exists (category group_col r, cell r "ClaimOccurred").
      split; [done|by apply Hin].
    + apply list_elem_of_fmap. exists (category group_col r, cell r "ClaimOccurred").
      split; [done|by apply Hin].
    + apply category_notna.
  - split.
    + intros Hm. apply groupby_keys_elem in Hm as [Hm _].
      apply list_elem_of_fmap in Hm as (p & Hp1 & Hp).
      unfold pairs in Hp. apply list_elem_of_In, filter_In in Hp as [Hp Hna].
      apply in_map_iff in Hp as (r & <- & Hr). simpl in *.
      exists r. split; [by apply list_elem_of_In|].
      apply andb_true_iff in Hna as [_ Hna]. split; [done|].
      unfold category in Hp1. destruct (isna (cell r group_col)); [by left|by right].
    + intros (r & Hr & Hna & Hmiss).
      assert (category group_col r = Str "MISSING") as Hcat.
      { unfold category. destruct Hmiss as [-> | ->]; done. }
      destruct (nmatch_pos (Str "MISSING")
                  (groupby_keys (map fst pairs))) as (x & Hx & Heq).
      * rewrite nmatch_groupby_keys, existsb_self; [lia| |done].
        apply list_elem_of_fmap. exists (category group_col r, cell r "ClaimOccurred").
        split; [by rewrite Hcat|by apply Hin].
      * apply cell_eqb_Str in Heq as ->. done.
Qed.

(** X26 (run_tests: the postal code tests).  The frame the postal code tests
    run on holds the rows of the frame whose postal code is one of the chosen
    codes, and no other: a row without a postal code is left out rather than
    counted as "MISSING", so every row of its contingency table is one of the
    chosen codes, and it has a "MISSING" row only if that text is itself one of
    the codes. *)
Theorem postal_code_rows df zips :
  (∀ r, r ∈ rows (df_z df zips)
        ↔ r ∈ rows df ∧ isin zips (cell r "PostalCode") = true)
  ∧ (∀ r, r ∈ rows (df_z df zips) → notna (cell r "PostalCode") = true)
  ∧ (∀ k, k ∈ ct_index (full_table (df_z df zips) "PostalCode") → isin zips k = true)
  ∧ (Str "MISSING" ∈ ct_index (full_table (df_z df zips) "PostalCode")
     → Str "MISSING" ∈ zips).
Proof.
  assert (∀ r, r ∈ rows (df_z df zips)
               ↔ r ∈ rows df ∧ isin zips (cell r "PostalCode") = true) as Hrows.
  { intros r. unfold df_z. simpl. rewrite !list_elem_of_In, filter_In. done. }
  assert (∀ c, isin zips c = true → notna c = true ∧ ∃ z, z ∈ zips ∧ cell_eqb c z = true)
    as Hisin.
  { intros c Hc. unfold isin in Hc. apply existsb_exists in Hc as (z & Hz & Heq).
    split; [by apply cell_eqb_notna in Heq as [? _]|].
    exists z. split; [by apply list_elem_of_In|done]. }
  assert (∀ k, k ∈ ct_index (full_table (df_z df zips) "PostalCode") → isin zips k = true)
    as Hkeys.
  { intros k Hk. unfold full_table, crosstab in Hk. rewrite full_table_pairs in Hk.
    simpl in Hk. apply groupby_keys_elem in Hk as [Hk _].
    apply list_elem_of_fmap in Hk as (p & -> & Hp).
    apply list_elem_of_In, filter_In in Hp as [Hp _].
    apply in_map_iff in Hp as (r & <- & Hr). simpl.
    apply list_elem_of_In, Hrows in Hr as [_ Hr].
    unfold category. destruct (Hisin _ Hr) as [Hna _].
    unfold notna in Hna. apply negb_true_iff in Hna. by rewrite Hna. }
  split_and!; [done| | done |].
  - intros r Hr. apply Hrows in Hr as [_ Hr]. by apply Hisin in Hr as [? _].
  - intros Hm. apply Hkeys, Hisin in Hm as (_ & z & Hz & Heq).
    by apply cell_eqb_Str in Heq as ->.
Qed.

(** ** Kruskal-Wallis on a frame without the column *)

Section MoreTests.
Context `{SciPy}.

(** X17 (kw_test_numeric).  Without the segment column the call is a
    KeyError on its name.  Without the value column it is a KeyError on that
    name as soon as the frame has one segment value, and on a frame with none
    (an empty frame) it returns (None, None, []) and the missing column goes
    unnoticed.  No call to scipy is made in either case. *)
Theorem kw_test_numeric_errors df group_col value_col m :
  (has_column df group_col = false →
   kw_test_numeric df group_col value_col m = (Raise (KeyError group_col), []))
  ∧ (has_column df group_col = true → has_column df value_col = false →
     kw_test_numeric df group_col value_col m
     = if (n_groups df group_col =? 0)%nat then (Ok (None, []), [])
       else (Raise (KeyError value_col), [])).
Proof.
  unfold kw_test_numeric, kw_samples, n_groups. split.
  - intros Hc. unfold getcol. by rewrite Hc.
  - intros Hc Hv.
    assert (getcol df group_col = Ok (map (λ r, cell r group_col) (rows df))) as ->
      by (unfold getcol; by rewrite Hc).
    assert (∀ keys, keys ≠ [] →
      mapM (λ name, vals ← dropna <$> getcol (group_rows df group_col name) value_col;
                    mret (name, vals)) keys = Raise (KeyError value_col)) as Hm.
    { intros [|name keys] Hne; [done|]. simpl.
      unfold group_rows. by rewrite getcol_select, Hv. }
    cbn [mbind Res_bind].
    destruct (groupby_keys _) as [|name keys] eqn:E; [done|].
    rewrite Hm by done. done.
Qed.

(** ** The tests run_tests makes *)

Lemma logs_run_tests_columns P df :
  (∀ items, P (Print items)) →
  (has_column df "Province" = true →
   P (CallChi2Contingency (full_table df "Province")) ∧ ∀ samples, P (CallKruskal samples)) →
  (has_column df "PostalCode" = true →
   (∀ zips, top_zips df = Ok zips →
      P (CallChi2Contingency (full_table (df_z df zips) "PostalCode")))
   ∧ ∀ samples, P (CallKruskal samples)) →
  (has_column df "Gender" = true → (2 ≤ gender_categories df)%nat →
   P (CallChi2Contingency (full_table df "Gender"))
   ∧ ∀ male female, P (CallMannWhitneyU male female)) →
  logs P (run_tests df).
Proof.
  intros HPrint HProv HZip HGen. unfold run_tests.
  apply logs_bind; [by apply logs_print|]. intros _ _.
  apply logs_bind; [by apply logs_summary_overall|]. intros _ _.
  apply logs_bind; [|intros _ _; apply logs_bind; [|intros _ _]].
  - unfold tests_province.
    destruct (has_column df "Province"); [|by apply logs_print].
    destruct (HProv eq_refl) as [Hchi Hkw].
    apply logs_bind; [by apply logs_print|]. intros _ _.
    apply logs_bind; [by apply logs_chi2_test_frequency|]. intros r _.
    apply logs_bind; [by apply logs_print|]. intros _ _.
    apply logs_bind; [by apply logs_print|]. intros _ _.
    apply logs_bind; [by apply logs_print|]. intros _ _.
    apply logs_bind; [destruct (float_ltb _ _); by apply logs_print|]. intros _ _.
    apply logs_bind; [by apply logs_print|]. intros _ _.
    apply logs_bind; [by apply logs_kw_test_numeric|]. intros kw _.
    destruct kw.1; [by apply logs_report|by apply logs_print].
  - unfold tests_postal_code.
    destruct (has_column df "PostalCode"); [|by apply logs_print].
    destruct (HZip eq_refl) as [Hchi Hkw].
    apply logs_bind; [apply logs_lift|]. intros zips Hz. simpl in Hz.
    apply logs_bind; [by apply logs_print|]. intros _ _.
    apply logs_bind; [by apply logs_print|]. intros _ _.
    apply logs_bind; [by apply logs_chi2_test_frequency; auto|]. intros r _.
    apply logs_bind; [by apply logs_report|]. intros _ _.
    apply logs_bind; [by apply logs_print|]. intros _ _.
    apply logs_bind; [by apply logs_kw_test_numeric|]. intros kw _.
    destruct kw.1; [by apply logs_report|by apply logs_print].
  - unfold tests_gender.
    destruct (has_column df "Gender") eqn:Hg; [|by apply logs_print].
    apply logs_bind; [by apply logs_print|]. intros _ _.
    apply logs_bind; [apply logs_lift|]. intros genders Hgen. simpl in Hgen.
    apply Res_fmap_Ok in Hgen as (col & Hcol & ->).
    apply getcol_Ok in Hcol as [_ ->].
    destruct (2 <=? _) eqn:H2; [|by apply logs_print].
    destruct (HGen eq_refl) as [Hchi Hmw]; [unfold gender_categories; lia|].
    apply logs_bind; [by apply logs_chi2_test_frequency|]. intros r _.
    apply logs_bind; [by apply logs_report|]. intros _ _.
    apply logs_bind; [by apply logs_print|]. intros _ _.
    apply logs_bind; [apply logs_lift|]. intros male Hm.
    apply logs_bind; [apply logs_lift|]. intros female Hf.
    apply logs_gender_severity_test; auto.
Qed.

(** X18 (run_tests).  run_tests calls into scipy only for the segment
    columns the frame has: a chi-square call is on the table of Province, of
    the top postal codes or of Gender with that column present, and for Gender
    only when it takes two values or more (a missing one counted); a
    Kruskal-Wallis call needs Province or PostalCode, a Mann-Whitney call
    Gender with two values or more.  With none of the three columns the run
    only prints. *)
Theorem run_tests_present_columns df :
  logs (for_present_column df) (run_tests df)
  ∧ (has_column df "Province" = false → has_column df "PostalCode" = false →
     has_column df "Gender" = false → logs is_print (run_tests df)).
Proof.
  split.
  - apply logs_run_tests_columns; simpl; try done.
    + intros Hc. split; [by left|by left].
    + intros Hc. split; [|by right]. intros zips Hz. right. left. split; [done|by exists zips].
    + intros Hc H2. split; [|done]. right. right. done.
  - intros Hp Hz Hg. apply logs_run_tests_columns; simpl; try done; by rewrite ?Hp, ?Hz, ?Hg.
Qed.

(** X19 (run_tests, summary_overall).  The overall summary comes first and
    is not guarded: on a frame without TotalPremium run_tests raises KeyError
    after printing its header and runs no test, whatever segment columns the
    frame has; likewise without TotalClaims, once TotalPremium has summed. *)
Theorem run_tests_needs_totals df :
  (has_column df "TotalPremium" = false →
   run_tests df = (Raise (KeyError "TotalPremium"), [Print [PText "--- Overall Summary ---"]]))
  ∧ (numeric_column df "TotalPremium" = true → has_column df "TotalClaims" = false →
     run_tests df = (Raise (KeyError "TotalClaims"), [Print [PText "--- Overall Summary ---"]])).
Proof.
  unfold run_tests, summary_overall, getcol. split.
  - by intros ->.
  - intros [Hp Hn]%andb_true_iff Hc. rewrite Hp, Hc. simpl.
    destruct (sum_cells_defined (map (λ r, cell r "TotalPremium") (rows df))) as [s Hs].
    { rewrite forallb_forall in Hn. apply forallb_forall. intros x Hx.
      apply in_map_iff in Hx as (r & <- & Hr). by apply Hn. }
    by rewrite Hs.
Qed.
End MoreTests.


(** ** The rest a group is compared with, and failures of scipy *)

Section MoreSummary.
Context `{SciPy}.

(** X27 (summarize_group).  The frequency cells of every emitted row hold
    what two_prop_ztest returns for the row's claims and policies against the
    rest, where the rest is what remains of the totals over all the groups
    groupby formed, those a top_n cap drops included; they are NaN when the
    rest has no policy. *)
Theorem frequency_cells_of_rows df group_col top_n out log :
  summarize_group df group_col top_n = (Ok out, log) →
  ∃ grp, groupby_agg df group_col = Ok grp ∧ Forall (frequency_cells grp) out.
Proof.
  intros Hs.
  pose proof Hs as Hrows.
  apply summarize_group_rows in Hrows as (grp & results & Hg & _ & _).
  exists grp. split; [done|]. apply Forall_forall. intros r Hr.
  destruct (summarize_group_row _ _ _ _ _ _ Hs Hr) as (grp' & g & us & Hg' & _ & _ & _ & ->).
  rewrite Hg in Hg'. injection Hg' as <-.
  unfold frequency_cells, summary_row, freq_test, rest_n, rest_k. simpl.
  destruct (0 <? _); [|done].
  rewrite two_prop_ztest_value. by destruct (ztest_value _ _ _ _).
Qed.

(** X28 (run_tests).  run_tests has no try around its calls into scipy: when
    chi2_contingency raises on the table of Province, run_tests raises the
    same exception right after that call, and the postal code and gender tests
    are not run.  (summarize_group, by contrast, returns NaN when
    mannwhitneyu raises.) *)
Theorem run_tests_scipy_failure df e :
  numeric_column df "TotalPremium" = true →
  numeric_column df "TotalClaims" = true →
  has_column df "Province" = true →
  has_column df "ClaimOccurred" = true →
  chi2_contingency (full_table df "Province") = Raise e →
  ∃ log, run_tests df = (Raise e, log)
    ∧ last log = Some (CallChi2Contingency (full_table df "Province"))
    ∧ ∀ ev, ev ∈ log → ev = CallChi2Contingency (full_table df "Province") ∨ is_print ev.
Proof.
  intros Hp Hc Hprov Ho He.
  destruct (column_total_numeric (λ _, true) df _ Hp) as [tp Htp].
  destruct (column_total_numeric (λ _, true) df _ Hc) as [tc Htc].
  assert (∀ c s, column_total (select_rows (λ _, true) df) c = Ok s →
                 getcol df c ≫= sum_cells = Ok s) as Hsel.
  { intros c s. unfold column_total. rewrite getcol_select. unfold getcol.
    destruct (has_column df c); [|done]. by rewrite filter_all. }
  apply Hsel in Htp, Htc.
  assert (∃ lr, summary_overall df
    = (Ok tt, [Print [PText "Overall: TotalPremium, TotalClaims, LossRatio";
                      PFloat (Some tp); PFloat (Some tc); PFloat lr]])) as [lr Hsum].
  { unfold summary_overall. rewrite Htp, Htc, !M_lift_bind, loss_ratio_never_raises.
    by eexists. }
  unfold run_tests, tests_province. rewrite Hsum, Hprov.
  rewrite (chi2_test_frequency_eq _ _ Hprov Ho), He.
  eexists. split; [reflexivity|]. split; [done|].
  intros ev Hev. simpl in Hev.
  repeat (apply elem_of_cons in Hev as [->|Hev]; [by (right + left)|]).
  by apply elem_of_nil in Hev.
Qed.
End MoreSummary.


(** ** The effects of a script *)

Lemma IO_bind_log {A B} (m : IO A) (f : A → IO B) :
  (m ≫= f : IO B).2 = m.2 ++ match m.1 with Ok a => (f a).2 | Raise _ => [] end.
Proof.
  unfold mbind, IO_bind. destruct m as [[a|e] l1]; simpl.
  - by destruct (f a).
  - by rewrite app_nil_r.
Qed.

Lemma IO_bind_fst {A B} (m : IO A) (f : A → IO B) :
  (m ≫= f : IO B).1 = match m.1 with Ok a => (f a).1 | Raise e => Raise e end.
Proof.
  unfold mbind, IO_bind. destruct m as [[a|e] l1]; simpl; [|done]. by destruct (f a).
Qed.

Lemma written_app l l' : written (l ++ l') = written l ++ written l'.
Proof. unfold written. apply omap_app. Qed.

Lemma written_map_said log : written (map Said log) = [].
Proof. unfold written. induction log as [|ev l IH]; simpl; done. Qed.

Section RunAll.
Context `{SciPy} `{Pandas} `{Storage}.

(* what one block of run_all writes, and when it returns *)
Lemma write_summary_written df col top_n file :
  written (ResultsTables.write_summary df col top_n file).2
    `prefix_of` (if has_column df col
                 then [(ResultsTables.outdir +:+ "/" +:+ file,
                        rows_of (summarize_group df col top_n))]
                 else [])
  ∧ ((ResultsTables.write_summary df col top_n file).1 = Ok tt →
     written (ResultsTables.write_summary df col top_n file).2
     = (if has_column df col
        then [(ResultsTables.outdir +:+ "/" +:+ file,
               rows_of (summarize_group df col top_n))]
        else [])
     ∧ (has_column df col = true →
        ∃ table log, summarize_group df col top_n = (Ok table, log)
          ∧ to_csv (ResultsTables.outdir +:+ "/" +:+ file) table = Ok tt)).
Proof.
  unfold ResultsTables.write_summary.
  destruct (has_column df col); cbv iota; [|by split].
  unfold mbind, IO_bind, said, io_lift, rows_of.
  destruct (summarize_group df col top_n) as [[table|e] log] eqn:Hs; simpl.
  - destruct (to_csv _ table) as [[]|e] eqn:Hw; simpl.
    + rewrite !written_app, written_map_said. simpl.
      split; [done|]. intros _. split; [done|]. intros _. by exists table, log.
    + rewrite !written_app, written_map_said. simpl. split; [apply prefix_nil|done].
  - rewrite written_map_said. split; [apply prefix_nil|done].
Qed.

(* a block after which the run goes on, or stops *)
Lemma write_then df col top_n file (k : IO unit) rest :
  written k.2 `prefix_of` rest →
  (k.1 = Ok tt → written k.2 = rest) →
  let m : IO unit := ResultsTables.write_summary df col top_n file ≫= λ _, k in
  let here := if has_column df col
              then [(ResultsTables.outdir +:+ "/" +:+ file,
                     rows_of (summarize_group df col top_n))]
              else [] in
  written m.2 `prefix_of` (here ++ rest)
  ∧ (m.1 = Ok tt →
     written m.2 = here ++ rest
     ∧ (ResultsTables.write_summary df col top_n file).1 = Ok tt ∧ k.1 = Ok tt).
Proof.
  intros Hk1 Hk2 m here. subst m.
  destruct (write_summary_written df col top_n file) as [Hw1 Hw2]. fold here in Hw1, Hw2.
  rewrite (IO_bind_log (ResultsTables.write_summary df col top_n file)),
    (IO_bind_fst (ResultsTables.write_summary df col top_n file)), written_app.
  destruct (ResultsTables.write_summary df col top_n file).1 as [[]|e] eqn:E.
  - destruct (Hw2 eq_refl) as [-> _]. split; [by apply prefix_app|].
    intros Hok. by rewrite (Hk2 Hok).
  - simpl. rewrite app_nil_r. split; [by apply prefix_app_r|done].
Qed.

(** X20 (run_all).  run_all writes one file per planned column the frame
    has, in the order Province (no cap), PostalCode (top 10), make (top 20),
    Model (top 20), each holding the table summarize_group returns with that
    cap.  The files written are always a prefix of that list; they are the
    whole list when run_all returns, and then every summary of a planned
    column the frame has was computed without an exception: a failure of one
    summary ends the run, and the files of the later columns are not
    written. *)
Theorem run_all_writes df :
  written (ResultsTables.run_all df).2 `prefix_of` planned_files df
  ∧ ((ResultsTables.run_all df).1 = Ok tt →
     written (ResultsTables.run_all df).2 = planned_files df
     ∧ ∀ col top_n file, (col, top_n, file) ∈ summary_plan →
         has_column df col = true →
         ∃ table log, summarize_group df col top_n = (Ok table, log)
           ∧ to_csv (ResultsTables.outdir +:+ "/" +:+ file) table = Ok tt).
Proof.
  set (w4 := ResultsTables.write_summary df "Model" (Some 20) "model_summary_top20.csv").
  destruct (write_summary_written df "Model" (Some 20) "model_summary_top20.csv")
    as [H4a H4b]. fold w4 in H4a, H4b.
  pose proof (write_then df "make" (Some 20) "make_summary_top20.csv" w4 _ H4a
                (λ Hok, proj1 (H4b Hok))) as [H3a H3b].
  pose proof (write_then df "PostalCode" (Some 10) "postalcode_top10_summary.csv" _ _ H3a
                (λ Hok, proj1 (H3b Hok))) as [H2a H2b].
  pose proof (write_then df "Province" None "province_summary.csv" _ _ H2a
                (λ Hok, proj1 (H2b Hok))) as [H1a H1b].
  assert (planned_files df
          = (if has_column df "Province"
             then [(ResultsTables.outdir +:+ "/" +:+ "province_summary.csv",
                    rows_of (summarize_group df "Province" None))] else [])
            ++ (if has_column df "PostalCode"
                then [(ResultsTables.outdir +:+ "/" +:+ "postalcode_top10_summary.csv",
                       rows_of (summarize_group df "PostalCode" (Some 10)))] else [])
            ++ (if has_column df "make"
                then [(ResultsTables.outdir +:+ "/" +:+ "make_summary_top20.csv",
                       rows_of (summarize_group df "make" (Some 20)))] else [])
            ++ (if has_column df "Model"
                then [(ResultsTables.outdir +:+ "/" +:+ "model_summary_top20.csv",
                       rows_of (summarize_group df "Model" (Some 20)))] else []))
    as ->.
  { unfold planned_files, summary_plan. simpl.
    by destruct (has_column df "Province"), (has_column df "PostalCode"),
      (has_column df "make"), (has_column df "Model"). }
  unfold ResultsTables.run_all. fold w4.
  match goal with
  | H : written (?b).2 `prefix_of` _ |- context [?b'] =>
      constr_eq b b'; set (body := b) in *
  end.
  unfold mbind, IO_bind, io_lift.
  destruct (mkdir ResultsTables.outdir) as [[]|e]; [|split; [apply prefix_nil|done]].
  destruct body as [r log] eqn:Hbody. simpl in *.
  split; [done|]. intros Hok.
  destruct (H1b Hok) as (Hw & Hp1 & Hok2).
  destruct (H2b Hok2) as (_ & Hp2 & Hok3).
  destruct (H3b Hok3) as (_ & Hp3 & Hok4).
  split; [done|]. intros col top_n file Hin Hc.
  unfold summary_plan in Hin.
  repeat (apply elem_of_cons in Hin as [[= -> -> ->]|Hin]);
    [| | | |by apply elem_of_nil in Hin].
  - by apply (write_summary_written df "Province" None "province_summary.csv").
  - by apply (write_summary_written df "PostalCode" (Some 10) "postalcode_top10_summary.csv").
  - by apply (write_summary_written df "make" (Some 20) "make_summary_top20.csv").
  - by apply (write_summary_written df "Model" (Some 20) "model_summary_top20.csv").
Qed.
End RunAll.


(** ** The scripts from end to end *)

Section Scripts.
Context `{SciPy} `{Pandas} `{Storage}.

Lemma first_existing_Some candidates p :
  first_existing candidates = Some p →
  p ∈ candidates ∧ path_exists (path_text p) = true.
Proof.
  unfold first_existing. intros Hf. apply find_some in Hf as [Hin Hp].
  split; [by apply list_elem_of_In|done].
Qed.

Lemma first_existing_None candidates :
  first_existing candidates = None
  ↔ Forall (λ p, path_exists (path_text p) = false) candidates.
Proof.
  unfold first_existing. induction candidates as [|p l IH]; simpl; [done|].
  destruct (path_exists (path_text p)) eqn:E.
  - split; [done|]. intros [Hp _]%Forall_cons. congruence.
  - rewrite IH. split; [by constructor|by intros [_ ?]%Forall_cons].
Qed.

Lemma frame_of_load_data p frame :
  read_csv (path_text p) (separator p) = Ok frame →
  has_column (strip_columns frame) "TotalClaims" = true →
  has_column (strip_columns frame) "TotalPremium" = true →
  frame_of (load_data p) = Ok (loaded frame).
Proof.
  intros Hr Hc Hp. unfold frame_of. rewrite (load_data_run _ _ _ Hr Hc Hp).
  simpl. by rewrite lookup_insert_eq.
Qed.

Lemma frame_of_raise (m : Py loc) e : (m ∅).1 = Raise e → frame_of m = Raise e.
Proof. unfold frame_of. destruct (m ∅) as [r h]. simpl. by intros ->. Qed.

(* load_data returns a frame only from a file with both amount columns *)
Lemma frame_of_load_data_inv p df :
  frame_of (load_data p) = Ok df →
  ∃ frame, read_csv (path_text p) (separator p) = Ok frame
    ∧ has_column (strip_columns frame) "TotalClaims" = true
    ∧ has_column (strip_columns frame) "TotalPremium" = true
    ∧ df = loaded frame.
Proof.
  intros Hf.
  destruct (read_csv (path_text p) (separator p)) as [frame|e] eqn:Hr.
  - destruct (has_column (strip_columns frame) "TotalClaims") eqn:Hc.
    + destruct (has_column (strip_columns frame) "TotalPremium") eqn:Hp.
      * rewrite (frame_of_load_data _ _ Hr Hc Hp) in Hf. injection Hf as <-.
        by exists frame.
      * by rewrite (frame_of_raise _ _ (load_data_missing_premium _ _ _ Hr Hc Hp)) in Hf.
    + by rewrite (frame_of_raise _ _ (load_data_missing_claims _ _ _ Hr Hc)) in Hf.
  - rewrite (frame_of_raise _ e) in Hf; [done|]. by rewrite (load_data_read_error _ _ _ Hr).
Qed.

(** X21 (results_tables.main).  The script takes the first of its three
    candidate files that exists.  With none it prints one line and touches no
    file.  Otherwise it prints two lines around load_data and hands the frame
    to run_all; a directory is made or a file written only when that
    candidate was read and has the TotalClaims and TotalPremium columns. *)
Theorem results_tables_main :
  (Forall (λ p, path_exists (path_text p) = false) ResultsTables.candidates →
   ResultsTables.main
   = (Ok tt, [Said (Print [PText "No input found; run data pipeline first"])]))
  ∧ (∀ p frame,
       ResultsTables.find_input = Some p →
       read_csv (path_text p) (separator p) = Ok frame →
       has_column (strip_columns frame) "TotalClaims" = true →
       has_column (strip_columns frame) "TotalPremium" = true →
       ResultsTables.main
       = ((ResultsTables.run_all (loaded frame)).1,
          Said (Print [PText "Loading"; PText (path_text p)])
          :: Said (Print [PText "Running aggregations and tests..."])
          :: (ResultsTables.run_all (loaded frame)).2))
  ∧ (∀ e, e ∈ ResultsTables.main.2 → touches_files e →
       ∃ p frame,
         p ∈ ResultsTables.candidates ∧ path_exists (path_text p) = true
         ∧ read_csv (path_text p) (separator p) = Ok frame
         ∧ has_column (strip_columns frame) "TotalClaims" = true
         ∧ has_column (strip_columns frame) "TotalPremium" = true).
Proof.
  unfold ResultsTables.main, ResultsTables.find_input. split_and!.
  - intros Hnone. apply first_existing_None in Hnone. by rewrite Hnone.
  - intros p frame -> Hr Hc Hp.
    rewrite (frame_of_load_data _ _ Hr Hc Hp).
    unfold mbind, IO_bind, said, io_lift.
    by destruct (ResultsTables.run_all (loaded frame)).
  - intros e.
    destruct (first_existing ResultsTables.candidates) as [p|] eqn:Hfind.
    + apply first_existing_Some in Hfind as [Hin Hex].
      destruct (frame_of (load_data p)) as [df|exn] eqn:Hf.
      * apply frame_of_load_data_inv in Hf as (frame & Hr & Hc & Hp & _).
        intros _ _. by exists p, frame.
      * unfold mbind, IO_bind, said, io_lift. simpl.
        intros He Ht. apply list_elem_of_singleton in He as ->. done.
    + simpl. intros He Ht. apply list_elem_of_singleton in He as ->. done.
Qed.

(** ** stat_tests.py from end to end *)

Lemma stat_tests_load_data_run p h frame :
  read_with_fallback p = Ok frame →
  StatTests.load_data p h
  = (Ok (fresh (dom h)), <[fresh (dom h) := strip_columns frame]> h).
Proof.
  intros Hr. unfold StatTests.load_data.
  rewrite (Py_bind_run _ _ _ frame h) by (unfold py_lift; by rewrite <- Hr).
  rewrite (Py_bind_run _ _ _ (fresh (dom h)) (<[fresh (dom h) := frame]> h)) by done.
  rewrite (Py_bind_run _ _ _ frame (<[fresh (dom h) := frame]> h))
    by (unfold deref; by rewrite lookup_insert_eq).
  rewrite (Py_bind_run _ _ _ tt (<[fresh (dom h) := strip_columns frame]> h))
    by (unfold assign; by rewrite insert_insert_eq).
  done.
Qed.

Lemma stat_tests_load_data_raise p h e :
  read_with_fallback p = Raise e → StatTests.load_data p h = (Raise e, h).
Proof.
  intros Hr. unfold StatTests.load_data. apply Py_bind_raise.
  unfold py_lift. by rewrite <- Hr.
Qed.

Lemma stat_tests_frame p frame :
  read_with_fallback p = Ok frame →
  frame_of (df ← StatTests.load_data p; prepare df)
  = if has_column (strip_columns frame) "TotalClaims"
    then Ok (prepared (strip_columns frame))
    else Raise (KeyError "TotalClaims").
Proof.
  intros Hr. unfold frame_of.
  rewrite (Py_bind_run _ _ _ _ _ (stat_tests_load_data_run _ _ _ Hr)).
  destruct (has_column (strip_columns frame) "TotalClaims") eqn:Hc.
  - rewrite (prepare_run _ _ (strip_columns frame)); [|apply lookup_insert_eq|done].
    simpl. by rewrite lookup_insert_eq.
  - by rewrite (prepare_run_missing _ _ (strip_columns frame));
      [|apply lookup_insert_eq|done].
Qed.

(** X22 (stat_tests.main).  The script takes the first of its three
    candidates that exists and, failing that, the first csv file under data/;
    with neither it prints one line and stops.  It reads the file with the
    dates parsed and, when that raises, once more without.  On a file with a
    TotalClaims column it runs the tests on the frame prepare makes of the
    stripped frame; on a file without one it raises KeyError, and in every
    run a call into scipy is made only after such a file was read. *)
Theorem stat_tests_main :
  (StatTests.find_input = None
   ↔ Forall (λ p, path_exists (path_text p) = false) StatTests.candidates
     ∧ glob_data_csv = [])
  ∧ (StatTests.find_input = None →
     StatTests.main
     = (Ok tt, [Said (Print [PText
          "No input data found under data/ - please run data pipeline first"])]))
  ∧ (∀ p frame,
       StatTests.find_input = Some p →
       read_with_fallback p = Ok frame →
       StatTests.main
       = if has_column (strip_columns frame) "TotalClaims"
         then ((run_tests (prepared (strip_columns frame))).1,
               Said (Print [PText "Loading"; PText (path_text p)])
               :: map Said (run_tests (prepared (strip_columns frame))).2)
         else (Raise (KeyError "TotalClaims"),
               [Said (Print [PText "Loading"; PText (path_text p)])]))
  ∧ (∀ e, e ∈ StatTests.main.2 → calls_scipy e →
       ∃ p frame,
         StatTests.find_input = Some p ∧ read_with_fallback p = Ok frame
         ∧ has_column (strip_columns frame) "TotalClaims" = true).
Proof.
  split_and!.
  - unfold StatTests.find_input.
    destruct (first_existing StatTests.candidates) as [p|] eqn:Hfind.
    + split; [done|]. intros [Hnone _]. apply first_existing_None in Hnone. congruence.
    + apply first_existing_None in Hfind.
      destruct glob_data_csv; simpl; split; try done; by intros [_ ?].
  - unfold StatTests.main. by intros ->.
  - intros p frame Hfind Hr. unfold StatTests.main. rewrite Hfind.
    rewrite (stat_tests_frame _ _ Hr).
    destruct (has_column (strip_columns frame) "TotalClaims"); [|done].
    unfold mbind, IO_bind, said, io_lift.
    by destruct (run_tests (prepared (strip_columns frame))).
  - intros e. unfold StatTests.main.
    destruct StatTests.find_input as [p|] eqn:Hfind.
    + destruct (read_with_fallback p) as [frame|exn] eqn:Hr.
      * rewrite (stat_tests_frame _ _ Hr).
        destruct (has_column (strip_columns frame) "TotalClaims") eqn:Hc.
        -- intros _ _. by exists p, frame.
        -- unfold mbind, IO_bind, said, io_lift. simpl.
           intros He Ht. apply list_elem_of_singleton in He as ->. done.
      * rewrite (frame_of_raise _ exn).
        -- unfold mbind, IO_bind, said, io_lift. simpl.
           intros He Ht. apply list_elem_of_singleton in He as ->. done.
        -- unfold mbind, Py_bind. by rewrite (stat_tests_load_data_raise _ _ _ Hr).
    + simpl. intros He Ht. apply list_elem_of_singleton in He as ->. done.
Qed.
End Scripts.


(** ** Cleaning text: strip and remove_commas *)

Lemma string_append_cons a s t : String a s +:+ t = String a (s +:+ t).
Proof. done. Qed.

Lemma string_rev_app_append s t u :
  String.rev_app (s +:+ t) u = String.rev_app t (String.rev_app s u).
Proof.
  revert u. induction s as [|a s IH]; intros u; [done|].
  rewrite string_append_cons. simpl. apply IH.
Qed.

Lemma string_append_assoc s t u : (s +:+ t) +:+ u = s +:+ (t +:+ u).
Proof. induction s as [|a s IH]; [done|]. by rewrite !string_append_cons, IH. Qed.

Lemma string_rev_app_rev s t : String.rev_app s t = String.rev s +:+ t.
Proof.
  unfold String.rev. revert t. induction s as [|a s IH]; intros t; simpl; [done|].
  rewrite (IH (String a t)), (IH (String a "")).
  by rewrite string_append_assoc.
Qed.

Lemma string_append_nil_r s : s +:+ "" = s.
Proof. induction s as [|a s IH]; [done|]. by rewrite string_append_cons, IH. Qed.

Lemma string_rev_append s t : String.rev (s +:+ t) = String.rev t +:+ String.rev s.
Proof.
  unfold String.rev at 1. rewrite string_rev_app_append, string_rev_app_rev.
  by rewrite (string_rev_app_rev s ""), string_append_nil_r.
Qed.

Lemma string_rev_involutive s : String.rev (String.rev s) = s.
Proof.
  induction s as [|a s IH]; [done|].
  change (String a s) with (String a "" +:+ s) at 1.
  by rewrite string_rev_append, string_rev_append, IH.
Qed.

Lemma lstrip_clean s : starts_clean (lstrip s).
Proof.
  induction s as [|a s IH]; simpl; [done|].
  destruct (isspace a) eqn:E; [done|]. simpl. done.
Qed.

Lemma lstrip_id s : starts_clean s → lstrip s = s.
Proof. destruct s as [|a s]; simpl; [done|]. by intros ->. Qed.

Lemma lstrip_suffix s : ∃ pre, s = pre +:+ lstrip s.
Proof.
  induction s as [|a s [pre IH]]; simpl; [by exists ""|].
  destruct (isspace a).
  - exists (String a pre). by rewrite string_append_cons, <- IH.
  - by exists "".
Qed.

Lemma starts_clean_append a b : starts_clean (a +:+ b) → starts_clean a.
Proof. destruct a as [|c a]; [done|]. intros Hs. exact Hs. Qed.

Lemma strip_trimmed s : trimmed (strip s).
Proof.
  unfold trimmed, strip.
  set (t := lstrip s). set (u := lstrip (String.rev t)).
  split.
  - destruct (lstrip_suffix (String.rev t)) as [pre Hpre]. fold u in Hpre.
    apply (f_equal String.rev) in Hpre. rewrite string_rev_involutive, string_rev_append in Hpre.
    apply (starts_clean_append _ (String.rev pre)). rewrite <- Hpre. apply lstrip_clean.
  - rewrite string_rev_involutive. apply lstrip_clean.
Qed.

Lemma strip_id s : trimmed s → strip s = s.
Proof.
  intros [H1 H2]. unfold strip. rewrite (lstrip_id s), (lstrip_id (String.rev s)) by done.
  apply string_rev_involutive.
Qed.

Lemma comma_free_remove_commas s : comma_free (remove_commas s) = true.
Proof.
  induction s as [|a s IH]; simpl; [done|].
  destruct (Ascii.eqb a ",") eqn:E; [done|]. simpl. by rewrite E, IH.
Qed.

Lemma remove_commas_id s : comma_free s = true → remove_commas s = s.
Proof.
  induction s as [|a s IH]; simpl; [done|].
  intros [Ha Hs]%andb_true_iff. apply negb_true_iff in Ha. rewrite Ha. by rewrite IH.
Qed.

Lemma comma_free_lstrip s : comma_free s = true → comma_free (lstrip s) = true.
Proof.
  induction s as [|a s IH]; simpl; [done|].
  intros [Ha Hs]%andb_true_iff. destruct (isspace a); [by apply IH|].
  simpl. by rewrite Ha, Hs.
Qed.

Lemma comma_free_rev_app s t :
  comma_free (String.rev_app s t) = comma_free s && comma_free t.
Proof.
  revert t. induction s as [|a s IH]; intros t; simpl; [done|].
  rewrite IH. simpl. by destruct (negb _), (comma_free s).
Qed.

Lemma comma_free_rev s : comma_free (String.rev s) = comma_free s.
Proof. unfold String.rev. rewrite comma_free_rev_app. simpl. apply andb_true_r. Qed.

Lemma comma_free_strip s : comma_free s = true → comma_free (strip s) = true.
Proof.
  intros Hs. unfold strip. rewrite comma_free_rev. apply comma_free_lstrip.
  rewrite comma_free_rev. by apply comma_free_lstrip.
Qed.

(** X24 (prepare, load_data: the text cleaning).  What the normalizer
    parses, the text with its commas removed and then stripped, holds no comma
    and no white space at either end; cleaning it again changes nothing, so a
    cell that holds cleaned text is read as the same number.  strip leaves a
    trimmed string as it is. *)
Theorem cleaning_idempotent `{Pandas} s :
  let t := strip (remove_commas s) in
  trimmed t ∧ comma_free t = true
  ∧ strip (remove_commas t) = t
  ∧ coerce_numeric (Str t) = coerce_numeric (Str s)
  ∧ (∀ u, trimmed u → strip u = u).
Proof.
  intros t.
  assert (trimmed t) as Ht by apply strip_trimmed.
  assert (comma_free t = true) as Hc by apply comma_free_strip, comma_free_remove_commas.
  assert (strip (remove_commas t) = t) as Hclean by by rewrite remove_commas_id, strip_id.
  split_and!; try done.
  - simpl. by rewrite Hclean.
  - apply strip_id.
Qed.

(** X25 (stat_tests.load_data).  load_data returns a reference that was not
    in the heap, to the frame read from the file, with the dates parsed or,
    when that raises, without, and leaves the frames of the heap alone; the
    column names of the frame are those of the file, each stripped, so none
    begins or ends with white space.  When both reads raise, the exception of
    the second comes out and the heap is as it was. *)
Theorem stat_tests_load_data `{Pandas} `{Storage} p h :
  match read_with_fallback p with
  | Ok frame =>
      ∃ l df, StatTests.load_data p h = (Ok l, <[l := df]> h) ∧ h !! l = None
        ∧ columns df = map strip (columns frame)
        ∧ Forall trimmed (columns df)
        ∧ length (rows df) = length (rows frame)
  | Raise e => StatTests.load_data p h = (Raise e, h)
  end.
Proof.
  destruct (read_with_fallback p) as [frame|e] eqn:Hr.
  - exists (fresh (dom h)), (strip_columns frame). split_and!.
    + by apply stat_tests_load_data_run.
    + apply not_elem_of_dom, is_fresh.
    + done.
    + simpl. apply Forall_fmap, Forall_forall. intros c _. apply strip_trimmed.
    + simpl. by rewrite length_map.
  - by apply stat_tests_load_data_raise.
Qed.


(** ** The properties at the worked inputs *)

Lemma summarize_group_descending_witness :
  descending policies (rows_of (summarize_group (H := scipy_nan) provinces "Province" None)).
Proof.
  apply (summarize_group_descending (H := scipy_nan) provinces "Province" None _
           (summarize_group (H := scipy_nan) provinces "Province" None).2).
  rewrite summarize_group_eq. vm_compute. reflexivity.
Defined.

Lemma summarize_group_segments_witness :
  let out := rows_of (summarize_group (H := scipy_nan) provinces "Province" None) in
  map segment_value out ≡ₚ groupby_keys (map (λ r, cell r "Province") (rows provinces))
  ∧ (∀ r, r ∈ rows provinces → notna (cell r "Province") = true →
       nmatch (cell r "Province") (map segment_value out) = 1%nat)
  ∧ (∀ v, v ∈ map segment_value out →
       notna v = true ∧ v ∈ map (λ r, cell r "Province") (rows provinces)).
Proof.
  apply (summarize_group_segments (H := scipy_nan) provinces "Province" None _
           (summarize_group (H := scipy_nan) provinces "Province" None).2).
  - rewrite summarize_group_eq. vm_compute. reflexivity.
  - exact I.
Defined.

Lemma summarize_group_cap_witness :
  let out := rows_of (summarize_group (H := scipy_nan) provinces "Province" (Some 1)) in
  length out = Nat.min (Z.to_nat 1) (n_groups provinces "Province")
  ∧ ∃ grp, groupby_agg provinces "Province" = Ok grp
      ∧ ∀ g r, g ∈ grp → r ∈ out →
          g_key g ∉ map segment_value out → g_policies g ≤ policies r.
Proof.
  apply (summarize_group_cap (H := scipy_nan) provinces "Province" 1 _
           (summarize_group (H := scipy_nan) provinces "Province" (Some 1)).2).
  - lia.
  - rewrite summarize_group_eq. vm_compute. reflexivity.
Defined.

Lemma summarize_group_single_witness :
  ∃ r, rows_of (summarize_group (H := scipy_nan) one_province "Province" None) = [r]
    ∧ z_freq_vs_rest r = None ∧ p_freq_vs_rest r = None.
Proof.
  apply (summarize_group_single (H := scipy_nan) one_province "Province" None _
           (summarize_group (H := scipy_nan) one_province "Province" None).2).
  - rewrite summarize_group_eq. vm_compute. reflexivity.
  - vm_compute. reflexivity.
Defined.

Lemma summarize_group_errors_witness :
  summarize_group (H := scipy_nan) no_rows "Gender" None = (Raise (KeyError "Gender"), [])
  ∧ summarize_group (H := scipy_nan) no_rows "Province" None
    = (Raise (KeyError "policies"), []).
Proof.
  split.
  - apply (proj1 (summarize_group_errors (H := scipy_nan) no_rows "Gender" None)).
    reflexivity.
  - apply (proj2 (summarize_group_errors (H := scipy_nan) no_rows "Province" None));
      try reflexivity.
    + vm_compute. intros Hin. repeat (apply elem_of_cons in Hin as [Hin|Hin]; [discriminate|]).
      by apply elem_of_nil in Hin.
Defined.

Lemma summarize_group_succeeds_witness :
  ∃ out log,
    summarize_group (H := scipy_nan) provinces "Province" (Some 1) = (Ok out, log)
    ∧ out ≠ [].
Proof.
  apply (summarize_group_succeeds (H := scipy_nan) provinces "Province" (Some 1)).
  - vm_compute. reflexivity.
  - vm_compute. intros Hin. repeat (apply elem_of_cons in Hin as [Hin|Hin]; [discriminate|]).
    by apply elem_of_nil in Hin.
  - vm_compute. reflexivity.
  - vm_compute. reflexivity.
  - vm_compute. reflexivity.
  - vm_compute. reflexivity.
  - vm_compute. reflexivity.
  - intros n [= <-]. lia.
Defined.

Lemma rest_baselines_without_missing_witness :
  ∃ a b,
    groupby_agg scenario "Province" = Ok [a; b]
    ∧ (∃ s, column_total (rest_rows scenario "Province" (g_key a)) "ClaimOccurred" = Ok s
            ∧ (rest_k (sumQ (map g_claims_count [a; b])) a == s)%Q)
    ∧ (has_column scenario "PolicyID" = false →
       rest_n (sumZ (map g_policies [a; b])) a
       = count (map (λ r, cell r "ClaimOccurred")
                  (rows (rest_rows scenario "Province" (g_key a))))).
Proof.
  eexists _, _. split; [vm_compute; reflexivity|].
  apply (rest_baselines_without_missing scenario "Province").
  - vm_compute. reflexivity.
  - left.
  - vm_compute. reflexivity.
Defined.

Lemma prepare_derives_witness :
  let h : gmap loc DataFrame := {[1%positive := raw_provinces]} in
  ∃ df', prepare (H := pandas_with "" raw_provinces) 1%positive h
         = (Ok 1%positive, <[1%positive := df']> h)
    ∧ (∀ c, has_column df' c = has_column raw_provinces c || bool_decide (c ∈ derived_fields))
    ∧ Forall2 (derived_from (H := pandas_with "" raw_provinces)
                 (has_column raw_provinces "TotalPremium"))
        (rows raw_provinces) (rows df').
Proof.
  intros h.
  apply (prepare_derives (H := pandas_with "" raw_provinces) 1%positive h raw_provinces).
  - vm_compute. reflexivity.
  - vm_compute. reflexivity.
Defined.

Lemma prepare_without_claims_witness :
  let h : gmap loc DataFrame := {[1%positive := no_claims_column]} in
  ∃ df', prepare (H := pandas_with "" no_claims_column) 1%positive h
         = (Raise (KeyError "TotalClaims"), <[1%positive := df']> h)
    ∧ has_column df' "ClaimOccurred" = true
    ∧ Forall (λ r, cell r "ClaimOccurred" = Num 0) (rows df')
    ∧ length (rows df') = length (rows no_claims_column)
    ∧ (∀ c, c ≠ "ClaimOccurred" → has_column df' c = has_column no_claims_column c).
Proof.
  intros h.
  apply (prepare_without_claims (H := pandas_with "" no_claims_column) 1%positive h
           no_claims_column).
  - vm_compute. reflexivity.
  - vm_compute. reflexivity.
Defined.


Lemma load_data_agrees_with_prepare_witness :
  let P := pandas_with "data.csv" raw_provinces in
  let p := mkPath "data.csv" ".csv" in
  let h0 : gmap loc DataFrame := {[1%positive := strip_columns raw_provinces]} in
  ∃ l df df',
    load_data (H := P) p ∅ = (Ok l, <[l := df]> ∅) ∧ (∅ : gmap loc DataFrame) !! l = None
    ∧ prepare (H := P) 1%positive h0 = (Ok 1%positive, <[1%positive := df']> h0)
    ∧ rows df = rows df'
    ∧ ∀ c, has_column df c = has_column df' c.
Proof.
  intros P p h0.
  apply (load_data_agrees_with_prepare (H := P) p ∅ raw_provinces 1%positive h0).
  - vm_compute. reflexivity.
  - vm_compute. reflexivity.
  - vm_compute. reflexivity.
  - vm_compute. reflexivity.
Defined.

Lemma load_data_errors_witness :
  (load_data (H := pandas_with "data.csv" no_claims_column) (mkPath "data.csv" ".csv") ∅).1
  = Raise (KeyError "TotalClaims")
  ∧ (load_data (H := pandas_with "data.csv" no_premium_column) (mkPath "data.csv" ".csv") ∅).1
    = Raise (KeyError "TotalPremium")
  ∧ load_data (H := pandas_with "data.csv" no_claims_column) (mkPath "other.csv" ".csv") ∅
    = (Raise (LibraryError "no such file"), ∅).
Proof.
  split_and!.
  - apply (proj1 (proj2 (load_data_errors (H := pandas_with "data.csv" no_claims_column)
                           (mkPath "data.csv" ".csv") ∅)) no_claims_column);
      vm_compute; reflexivity.
  - apply (proj2 (proj2 (load_data_errors (H := pandas_with "data.csv" no_premium_column)
                           (mkPath "data.csv" ".csv") ∅)) no_premium_column);
      vm_compute; reflexivity.
  - apply (proj1 (load_data_errors (H := pandas_with "data.csv" no_claims_column)
                    (mkPath "other.csv" ".csv") ∅)).
    vm_compute. reflexivity.
Defined.

Lemma top_zips_most_frequent_witness :
  let zips := map (λ code, Num (inject_Z code)) [1; 2; 3; 4; 5; 6; 7; 8; 9; 10] in
  (length zips ≤ 10)%nat
  ∧ (∀ z, z ∈ zips →
       notna z = true ∧ z ∈ map (λ r, cell r "PostalCode") (rows postal_codes))
  ∧ (∀ c, nmatch c zips ≤ 1)%nat
  ∧ (∀ z r, z ∈ zips → r ∈ rows postal_codes →
       notna (cell r "PostalCode") = true →
       isin zips (cell r "PostalCode") = false →
       (nmatch (cell r "PostalCode") (map (λ r, cell r "PostalCode") (rows postal_codes))
        ≤ nmatch z (map (λ r, cell r "PostalCode") (rows postal_codes)))%nat).
Proof.
  intros zips. apply (top_zips_most_frequent postal_codes zips).
  vm_compute. reflexivity.
Defined.

Lemma summarize_group_on_loaded_witness :
  let P := pandas_with "data.csv" raw_provinces in
  ∃ out log,
    summarize_group (H := scipy_nan) (loaded (H := P) raw_provinces) "Province" None
    = (Ok out, log) ∧ out ≠ [].
Proof.
  intros P.
  apply (summarize_group_on_loaded (H := scipy_nan) (H0 := P) raw_provinces "Province" None).
  - vm_compute. reflexivity.
  - vm_compute. reflexivity.
  - vm_compute. reflexivity.
  - vm_compute. intros Hin. repeat (apply elem_of_cons in Hin as [Hin|Hin]; [discriminate|]).
    by apply elem_of_nil in Hin.
  - vm_compute. reflexivity.
  - intros n [=].
Defined.

Lemma frequency_cells_of_rows_witness :
  ∃ grp, groupby_agg provinces "Province" = Ok grp
    ∧ Forall (frequency_cells (H := scipy_nan) grp)
        (rows_of (summarize_group (H := scipy_nan) provinces "Province" (Some 1))).
Proof.
  apply (frequency_cells_of_rows (H := scipy_nan) provinces "Province" (Some 1) _
           (summarize_group (H := scipy_nan) provinces "Province" (Some 1)).2).
  rewrite summarize_group_eq. vm_compute. reflexivity.
Defined.

Lemma run_tests_scipy_failure_witness :
  ∃ log, run_tests (H := scipy_failing) provinces
         = (Raise (LibraryError "chi2_contingency"), log)
    ∧ last log = Some (CallChi2Contingency (full_table provinces "Province"))
    ∧ ∀ ev, ev ∈ log →
        ev = CallChi2Contingency (full_table provinces "Province") ∨ is_print ev.
Proof.
  apply (run_tests_scipy_failure (H := scipy_failing) provinces
           (LibraryError "chi2_contingency")).
  - vm_compute. reflexivity.
  - vm_compute. reflexivity.
  - vm_compute. reflexivity.
  - vm_compute. reflexivity.
  - reflexivity.
Defined.

Lemma run_all_writes_witness :
  let S := storage_with [] in
  written (ResultsTables.run_all (H := scipy_nan) (H1 := S) one_province).2
  = planned_files (H := scipy_nan) one_province
  ∧ ∀ col top_n file, (col, top_n, file) ∈ summary_plan →
      has_column one_province col = true →
      ∃ table log, summarize_group (H := scipy_nan) one_province col top_n = (Ok table, log)
        ∧ to_csv (Storage := S) (ResultsTables.outdir +:+ "/" +:+ file) table = Ok tt.
Proof.
  intros S.
  apply (proj2 (run_all_writes (H := scipy_nan) (H1 := S) one_province)).
  vm_compute. reflexivity.
Defined.

Lemma results_tables_main_witness :
  ResultsTables.main (H := scipy_nan) (H0 := pandas_with "" no_rows) (H1 := storage_with [])
  = (Ok tt, [Said (Print [PText "No input found; run data pipeline first"])]).
Proof.
  apply (proj1 (results_tables_main (H := scipy_nan) (H0 := pandas_with "" no_rows)
                  (H1 := storage_with []))).
  repeat constructor.
Defined.

Lemma stat_tests_main_witness :
  StatTests.main (H := scipy_nan) (H0 := pandas_with "" no_rows) (H1 := storage_with [])
  = (Ok tt, [Said (Print [PText
       "No input data found under data/ - please run data pipeline first"])]).
Proof.
  apply (proj1 (proj2 (stat_tests_main (H := scipy_nan) (H0 := pandas_with "" no_rows)
                  (H1 := storage_with [])))).
  reflexivity.
Defined.


(** * Totals, ratios and tests against the records of the frame *)

(** ** Conservation of totals, and the records behind them *)






(* the amounts of the provinces are whole: float64 adds them to the same 500
   by groups and by rows *)
Example totals_of_whole_amounts :
  float64_emitted_total provinces "Province" "TotalPremium" = float64_of_Z 500
  ∧ float64_sum (map (λ r, cell r "TotalPremium")
                   (List.filter (λ r, notna (cell r "Province")) (rows provinces)))
    = float64_of_Z 500.
Proof. split; vm_compute; reflexivity. Qed.



(** ** Claim frequency above 1 *)

(** C2, at a frame where one policy of province A has two rows, each with a
    claim.  ClaimOccurred is the 0/1 indicator; the group of A has 1 policy
    and a claims_count of 2, more claims than policies, and its row comes out
    with claim_freq 2, outside [0,1]; these two numbers are what
    two_prop_ztest is given as k1 and n1, to compare the proportions k1/n1
    and k2/n2.  The same rows without the PolicyID column, where policies
    counts rows, give A 2 policies and a claim_freq of 1. *)
Lemma claim_freq_counts_rows_over_policies :
  indicator repeated_policy
  ∧ (∃ a b,
       groupby_agg repeated_policy "Province" = Ok [a; b]
       ∧ g_key a = Str "A" ∧ g_policies a = 1 ∧ (g_claims_count a == 2)%Q
       ∧ (inject_Z (g_policies a) < g_claims_count a)%Q
       ∧ length (rows (group_rows repeated_policy "Province" (Str "A"))) = 2%nat)
  ∧ Exists (λ r, segment_value r = Str "A" ∧ policies r = 1
                 ∧ (∃ f, claim_freq r = Some f ∧ (f == 2)%Q)
                 ∧ ¬ in_unit_interval (claim_freq r)
                 ∧ z_freq_vs_rest r
                   = (ztest_value (H := scipy_nan) (Q2R (claims_count r)) (IZR (policies r))
                        (Q2R (2 - claims_count r)) (IZR (2 - policies r))).1)
      (rows_of (summarize_group (H := scipy_nan) repeated_policy "Province" None))
  ∧ has_column repeated_rows "PolicyID" = false
  ∧ Forall (λ r, in_unit_interval (claim_freq r))
      (rows_of (summarize_group (H := scipy_nan) repeated_rows "Province" None))
  ∧ Exists (λ r, segment_value r = Str "A" ∧ policies r = 2
                 ∧ ∃ f, claim_freq r = Some f ∧ (f == 1)%Q)
      (rows_of (summarize_group (H := scipy_nan) repeated_rows "Province" None)).
Proof.
  split_and!.
  - unfold indicator.
    let rs := eval vm_compute in (rows repeated_policy) in
      change (rows repeated_policy) with rs.
    repeat (apply Forall_cons; split; [vm_compute; auto|]). apply Forall_nil_2.
  - eexists _, _. split; [vm_compute; reflexivity|]. split_and!; vm_compute; done.
  - rewrite summarize_group_eq. apply Exists_exists.
    eexists. split; [vm_compute; left|]. cbv beta.
    split_and!; try (vm_compute; reflexivity).
    + eexists. split; [vm_compute; reflexivity|]. vm_compute. reflexivity.
    + intros (f & Hf & _ & Hle). vm_compute in Hf. injection Hf as <-.
      vm_compute in Hle. by apply Hle.
  - vm_compute. reflexivity.
  - rewrite summarize_group_eq. apply Forall_forall. intros r Hr.
    vm_compute in Hr. 
    apply elem_of_cons in Hr as [->|Hr].
    { eexists. split; [reflexivity|]. split; vm_compute; discriminate. }
    apply elem_of_cons in Hr as [->|Hr].
    { eexists. split; [reflexivity|]. split; vm_compute; discriminate. }
    by apply elem_of_nil in Hr.
  - rewrite summarize_group_eq. apply Exists_exists.
    eexists. split; [vm_compute; left|]. cbv beta.
    split_and!; try (vm_compute; reflexivity).
    eexists. split; [vm_compute; reflexivity|]. vm_compute. reflexivity.
Qed.


(** ** The two ratios of an emitted row *)

(* cells that are present and pairwise different, each equal to one of [u]:
   [u] has as many cells or more *)
Lemma distinct_present_length s u :
  distinct_present s = true →
  (∀ x, x ∈ s → existsb (cell_eqb x) u = true) →
  (length s ≤ length u)%nat.
Proof.
  revert u. induction s as [|x s IH]; intros u Hd Hcov; simpl; [lia|].
  simpl in Hd. apply andb_true_iff in Hd as [Hd Hs].
  apply andb_true_iff in Hd as [Hna Hx]. apply negb_true_iff in Hx.
  pose (u' := List.filter (λ y, negb (cell_eqb x y)) u).
  assert (length s ≤ length u')%nat as Hle.
  { apply IH; [done|]. intros z Hz.
    assert (cell_eqb x z = false) as Hxz.
    { destruct (cell_eqb x z) eqn:E; [|done].
      rewrite <- Hx. symmetry. apply existsb_exists. exists z.
      split; [by apply list_elem_of_In|done]. }
    pose proof (Hcov z ltac:(by right)) as Hzu.
    apply existsb_exists in Hzu as (y & Hy & Hzy).
    apply existsb_exists. exists y. split; [|done].
    unfold u'. apply filter_In. split; [done|].
    apply negb_true_iff. rewrite <- Hxz.
    rewrite (cell_eqb_sym x y), (cell_eqb_sym x z).
    symmetry. by apply cell_eqb_congr_l. }
  assert (length u' < length u)%nat; [|lia].
  pose proof (Hcov x ltac:(by left)) as Hxu.
  clear -Hxu. unfold u'. induction u as [|y u IH]; simpl in *; [done|].
  destruct (cell_eqb x y); simpl.
  - pose proof (filter_length_le (λ y0, negb (cell_eqb x y0)) u). lia.
  - specialize (IH Hxu). lia.
Qed.

(* the indicators of some rows add up to the number of rows that have 1 *)
Lemma indicator_sum_count (l : list (gmap string Cell)) :
  Forall (λ r, cell r "ClaimOccurred" = Num 0 ∨ cell r "ClaimOccurred" = Num 1) l →
  (sumQ (map (col_value "ClaimOccurred") l)
   == inject_Z (Z.of_nat (length
        (List.filter (λ r, cell_eqb (cell r "ClaimOccurred") (Num 1)) l))))%Q.
Proof.
  induction 1 as [|r l Hr _ IH]; simpl; [done|].
  unfold col_value at 1. destruct Hr as [-> | ->]; simpl.
  - by rewrite IH, Qplus_0_l.
  - rewrite IH, Nat2Z.inj_succ, <- Z.add_1_l, inject_Z_plus. done.
Qed.

(* the distinct policies of some rows are as many as its rows with a claim,
   or more, when those are of distinct policies *)
Lemma claims_le_nunique (l : list (gmap string Cell)) :
  distinct_present (map (λ r, cell r "PolicyID")
     (List.filter (λ r, cell_eqb (cell r "ClaimOccurred") (Num 1)) l)) = true →
  Z.of_nat (length (List.filter (λ r, cell_eqb (cell r "ClaimOccurred") (Num 1)) l))
  ≤ nunique (map (λ r, cell r "PolicyID") l).
Proof.
  intros Hd. unfold nunique. apply inj_le.
  rewrite <- (length_map (λ r, cell r "PolicyID")
                (List.filter (λ r, cell_eqb (cell r "ClaimOccurred") (Num 1)) l)).
  apply distinct_present_length; [done|].
  intros x Hx.
  assert (notna x = true ∧ x ∈ map (λ r, cell r "PolicyID") l) as [Hna Hin].
  { split.
    - clear -Hd Hx. induction (map _ _) as [|c s IH]; [by apply elem_of_nil in Hx|].
      simpl in Hd. apply andb_true_iff in Hd as [Hd Hs].
      apply andb_true_iff in Hd as [Hc _].
      apply elem_of_cons in Hx as [->|Hx]; [done|by apply IH].
    - apply list_elem_of_fmap in Hx as (r & -> & Hr).
      apply list_elem_of_In, filter_In in Hr as [Hr _].
      apply list_elem_of_fmap. exists r. split; [done|by apply list_elem_of_In]. }
  destruct (unique_cover x (dropna (map (λ r, cell r "PolicyID") l))) as (v & Hv & Heq).
  - unfold dropna. apply list_elem_of_In, filter_In.
    split; [by apply list_elem_of_In|done].
  - done.
  - apply existsb_exists. exists v. split; [by apply list_elem_of_In|done].
Qed.

(** X29 (summarize_group: claim_freq and loss_ratio).  In every row
    summarize_group emits, claim_freq is claims_count / policies, NaN exactly
    when policies is 0, and loss_ratio is total_claims / total_premium, NaN
    exactly when the premium of the group is 0.  On a frame whose ClaimOccurred
    is the 0/1 indicator, claim_freq is not negative; it lies in [0,1] when the
    frame has no PolicyID column, policies then counting rows; and with
    PolicyID it is at most 1 for a group whose rows with a claim are of
    distinct policies, none of them missing. *)
Theorem ratios_of_emitted_rows `{SciPy} df group_col top_n out log :
  summarize_group df group_col top_n = (Ok out, log) →
  Forall (ratios_hold df group_col) out.
Proof.
  intros Hs. apply Forall_forall. intros r Hr.
  destruct (summarize_group_row _ _ _ _ _ _ Hs Hr)
    as (grp & g & us & Hg & Hgin & Hkey & Ha & ->).
  apply agg_group_inv in Ha as (_ & Hn & Htp & Htc & Hk).
  unfold ratios_hold. simpl.
  pose proof (policies_of_nonneg _ _ _ Hn) as Hn0.
  assert (indicator df →
          (0 <= g_claims_count g)%Q
          ∧ (g_claims_count g
             <= inject_Z (count (map (λ r, cell r "ClaimOccurred")
                                   (rows (group_rows df group_col (g_key g))))))%Q)
    as Hbounds.
  { intros Hind. apply column_total_select in Hk. rewrite Hk.
    apply indicator_sum_bounds. by apply Forall_filter_bool. }
  split_and!; try done.
  - unfold loss_ratio_of. destruct (Qeq_bool (g_total_premium g) 0) eqn:Hz.
    + apply Qeq_bool_iff in Hz. done.
    + split; [done|]. intros Hq. apply Qeq_bool_iff in Hq. congruence.
  - unfold claim_freq_of. destruct (g_policies g =? 0) eqn:Hz.
    + apply Z.eqb_eq in Hz. done.
    + apply Z.eqb_neq in Hz. done.
  - intros Hind f Hf. unfold claim_freq_of in Hf.
    destruct (g_policies g =? 0) eqn:Hz; [done|]. injection Hf as <-.
    apply Qle_shift_div_l; [unfold Qlt; simpl; lia|].
    rewrite Qmult_0_l. by apply Hbounds.
  - intros Hind Hnp. destruct (Hbounds Hind) as [Hk0 Hk1].
    unfold policies_of in Hn. rewrite Hnp in Hn.
    apply Res_fmap_Ok in Hn as (l & Hl & Hn).
    apply getcol_Ok in Hl as [_ ->]. rewrite Hn.
    apply claim_freq_of_bounds; [done..|].
    rewrite indicator_count_rows by (by apply Forall_filter_bool).
    pose proof (group_nonempty _ _ _ Hkey) as Hne.
    destruct (rows (group_rows df group_col (g_key g))); [done|simpl; lia].
  - intros Hind Hp Hd f Hf.
    unfold policies_of in Hn. rewrite Hp in Hn.
    apply Res_fmap_Ok in Hn as (l & Hl & Hn).
    apply getcol_Ok in Hl as [_ ->].
    assert (g_claims_count g <= inject_Z (g_policies g))%Q as Hle.
    { apply column_total_select in Hk. rewrite Hk, Hn.
      rewrite indicator_sum_count by (by apply Forall_filter_bool).
      rewrite <- Zle_Qle. by apply claims_le_nunique. }
    unfold claim_freq_of in Hf.
    destruct (g_policies g =? 0) eqn:Hz; [done|]. apply Z.eqb_neq in Hz.
    destruct (claim_freq_of_bounds (g_claims_count g) (g_policies g))
      as (f' & Hf' & Hb); [by apply Hbounds|done|lia|].
    unfold claim_freq_of in Hf'. apply Z.eqb_neq in Hz. rewrite Hz in Hf'.
    rewrite Hf in Hf'. by injection Hf' as <-.
Qed.

(* two policies of province A with a claim each, and a province without
   premium *)
Lemma ratios_of_emitted_rows_witness :
  has_column two_policies "PolicyID" = true
  ∧ Forall (λ r, distinct_present
                   (claim_policies two_policies "Province" (segment_value r)) = true)
      (rows_of (summarize_group (H := scipy_nan) two_policies "Province" None))
  ∧ Forall (ratios_hold two_policies "Province")
      (rows_of (summarize_group (H := scipy_nan) two_policies "Province" None)).
Proof.
  split; [vm_compute; reflexivity|]. split.
  { rewrite summarize_group_eq. apply Forall_forall. intros r Hr.
    vm_compute in Hr.
    apply elem_of_cons in Hr as [->|Hr]; [vm_compute; reflexivity|].
    apply elem_of_cons in Hr as [->|Hr]; [vm_compute; reflexivity|].
    by apply elem_of_nil in Hr. }
  apply (ratios_of_emitted_rows (H := scipy_nan) two_policies "Province" None _
           (summarize_group (H := scipy_nan) two_policies "Province" None).2).
  rewrite summarize_group_eq. vm_compute. reflexivity.
Defined.


(* province A has two policies and two claims, a claim_freq of 1; province B
   has no premium, and no loss_ratio *)
Example ratios_of_two_policies :
  map (λ r, (segment_value r, policies r, claim_freq r, loss_ratio r))
    (rows_of (summarize_group (H := scipy_nan) two_policies "Province" None))
  = [(Str "A", 2, Some (2 # 2), Some (110 # 300)); (Str "B", 1, Some 0%Q, None)].
Proof. rewrite summarize_group_eq. vm_compute. reflexivity. Qed.


(** ** Kruskal-Wallis: the labels and the rows of the frame *)






(** ** Chi-square: the table and the statistic *)






(* the provinces and the row without one: three rows of the table, two
   degrees of freedom, and Pearson's statistic, 3 *)
Example chi2_of_provinces :
  ∃ q log,
    chi2_test_frequency (H := scipy_documented sf_nan) provinces "Province"
    = (Ok (Some q, None, full_table provinces "Province"), log)
    ∧ ct_index (full_table provinces "Province") = [Str "A"; Str "B"; Str "MISSING"]
    ∧ ct_counts (full_table provinces "Province") = [[2; 1]; [2; 0]; [0; 1]]
    ∧ degrees_of_freedom (full_table provinces "Province") = 2
    ∧ (q == 3)%Q ∧ (pearson_statistic (full_table provinces "Province") == 3)%Q.
Proof. eexists _, _. split_and!; vm_compute; reflexivity. Qed.


